(** * mt_nodes_list: record normalisation and table rendering

    A shallow embedding of [mt_nodes_list.py] (functions [human_time],
    [flatten_dict], [clean_name], [normalize_node], [print_table] and
    [main]) and the properties its specification states about them.

    Python values are modelled by an inductive type, exceptions by a result
    type, the dictionaries by association lists in insertion order, the
    standard output by the list of the lines printed. Services of the Python
    runtime that depend on its Unicode tables, on the C library or on the
    process environment are the fields of the class [Runtime].

    The resources of the process are outside the model: every call has the
    memory and the stack it needs, below the recursion limit of the
    interpreter, and [print] accepts every line, whatever the encoding of the
    stream. *)

From Stdlib Require Import Ascii String.
From Stdlib Require Import ZArith NArith List Bool Lia.
From Stdlib Require Import Sorted Permutation SpecFloat.
Import ListNotations.

Set Warnings "-register-all".

Set Implicit Arguments.

(** ** Strings

    A Python [str] is a sequence of Unicode code points: [len], [ljust],
    slicing and the format width count code points. *)

Definition str := list N.

(** A literal of the source, character by character. *)
Definition lit (s : string) : str := map N_of_ascii (list_ascii_of_string s).
Arguments lit s%_string.

Fixpoint str_eqb (a b : str) : bool :=
  match a, b with
  | [], [] => true
  | x :: a', y :: b' => (x =? y)%N && str_eqb a' b'
  | _, _ => false
  end.

Definition is_empty (s : str) : bool :=
  match s with [] => true | _ => false end.

(** [str.isspace] on one character; the characters [str.split()] and
    [str.strip()] treat as white space. *)
Definition is_space (c : N) : bool :=
  ((9 <=? c) && (c <=? 13) || (28 <=? c) && (c <=? 32) ||
   (c =? 133) || (c =? 160) || (c =? 5760) ||
   (8192 <=? c) && (c <=? 8202) || (c =? 8232) || (c =? 8233) ||
   (c =? 8239) || (c =? 8287) || (c =? 12288))%N.

(** [s.ljust(w)] and the format [f"{s:<{w}}"]: pad with spaces on the right up
    to [w] characters, never truncate. *)
Definition ljust (w : nat) (s : str) : str :=
  s ++ repeat 32%N (w - length s).

Fixpoint lstrip (s : str) : str :=
  match s with
  | c :: s' => if is_space c then lstrip s' else s
  | [] => []
  end.

Definition rstrip (s : str) : str := rev (lstrip (rev s)).

(** [s.strip()] *)
Definition strip (s : str) : str := rstrip (lstrip s).

(** [s.split()]: the maximal runs of characters that are not white space.
    [cur] is the run being read, last character first. *)
Fixpoint split_from (cur : str) (s : str) : list str :=
  match s with
  | [] => if is_empty cur then [] else [rev cur]
  | c :: s' =>
      if is_space c
      then (if is_empty cur then split_from [] s' else rev cur :: split_from [] s')
      else split_from (c :: cur) s'
  end.

Definition split (s : str) : list str := split_from [] s.

(** ["".join(parts)] *)
Definition join (parts : list str) : str := concat parts.

(** [sep.join(parts)] *)
Fixpoint join_with (sep : str) (parts : list str) : str :=
  match parts with
  | [] => []
  | [p] => p
  | p :: ps => p ++ sep ++ join_with sep ps
  end.

(** Decimal digits of a natural number, most significant first. *)
Fixpoint digits_from (fuel : nat) (n : N) (acc : str) : str :=
  match fuel with
  | O => acc
  | S fuel' =>
      let acc' := (48 + n mod 10)%N :: acc in
      if (n <? 10)%N then acc' else digits_from fuel' (n / 10)%N acc'
  end.

Definition str_of_N (n : N) : str :=
  digits_from (S (N.to_nat (N.log2 n))) n [].

(** The text of [str(z)] for an int, when [str(z)] returns (see
    [int_str_ok] below). *)
Definition str_of_Z (z : Z) : str :=
  if (z <? 0)%Z then 45%N :: str_of_N (Z.abs_N z) else str_of_N (Z.abs_N z).

(** [sys.get_int_max_str_digits()]: from CPython 3.11 on, the conversion of
    an int of more decimal digits than this to a string, and of a longer
    string of digits to an int, raises ValueError. The value is the
    interpreter's default, which the program leaves as it is. *)
Definition int_max_str_digits : nat := 4300.

(** [str(z)] returns: [z] has at most [int_max_str_digits] digits, the sign
    not counted. *)
Definition int_str_ok (z : Z) : bool :=
  (Z.abs z <? 10 ^ Z.of_nat int_max_str_digits)%Z.

(** Zero padding on the left to [w] digits, as the formats [03d] of the
    source and [%d], [%m], [%H], [%M], [%S], [%Y] of [strftime] do for numbers
    that are not negative. *)
Definition zfill (w : nat) (n : N) : str :=
  let d := str_of_N n in repeat 48%N (w - length d) ++ d.

(** Lexicographic order on code points: the order of [sorted] on [str]. *)
Fixpoint str_leb (a b : str) : bool :=
  match a, b with
  | [], _ => true
  | _ :: _, [] => false
  | x :: a', y :: b' => (x <? y)%N || (x =? y)%N && str_leb a' b'
  end.

(** ** Exceptions *)

(** The exceptions that leave a function of the program; those a [try]
    catches are [None] in the conversions below. *)
Inductive exn : Set :=
| IndexError
| TypeError
| ValueError.

Inductive result (A : Type) : Type :=
| Ok (a : A)
| Raise (e : exn).
Arguments Ok {A} a.
Arguments Raise {A} e.

Definition bind {A B} (m : result A) (k : A -> result B) : result B :=
  match m with
  | Ok a => k a
  | Raise e => Raise e
  end.

Notation "x <- m ;; k" := (bind m (fun x => k))
  (at level 61, m at next level, right associativity).

(** A loop whose body may raise: the first exception ends it. *)
Fixpoint mapM {A B} (f : A -> result B) (l : list A) : result (list B) :=
  match l with
  | [] => Ok []
  | a :: l' => b <- f a ;; bs <- mapM f l' ;; Ok (b :: bs)
  end.

(** ** Dictionaries

    A [dict] keeps its keys in insertion order; [d[k] = v] replaces the value
    of a key that is present, in place, and appends a new key. *)

Module Dict.
Section Dict.
Variable V : Type.

Definition t := list (str * V).

Fixpoint get (d : t) (k : str) : option V :=
  match d with
  | [] => None
  | (k', v) :: d' => if str_eqb k' k then Some v else get d' k
  end.

(** [k in d] *)
Definition mem (d : t) (k : str) : bool :=
  match get d k with Some _ => true | None => false end.

(** [d.get(k, default)] *)
Definition get_default (d : t) (k : str) (default : V) : V :=
  match get d k with Some v => v | None => default end.

(** [d[k] = v] *)
Fixpoint set (d : t) (k : str) (v : V) : t :=
  match d with
  | [] => [(k, v)]
  | (k', v') :: d' =>
      if str_eqb k' k then (k', v) :: d' else (k', v') :: set d' k v
  end.

(** [d.keys()] *)
Definition keys (d : t) : list str := map fst d.

(** [dict(items)] *)
Definition of_items (items : list (str * V)) : t :=
  fold_left (fun d kv => set d (fst kv) (snd kv)) items [].
End Dict.
End Dict.

(** ** Values

    What a record of the node database can hold. [obs] is any object that is
    none of the built-in kinds below (a [float], [bytes], a protobuf message,
    ...), seen through the operations the program applies to it; [None] in a
    field stands for an exception. [str] and [repr] of such an object
    return, as those of the built-in types other than [int] and the
    containers of an int do. *)

Record obs : Type := {
  o_str : str;               (* str(x) *)
  o_repr : str;              (* repr(x) *)
  o_truthy : bool;           (* bool(x) *)
  o_eq0 : bool;              (* x == 0 *)
  o_int : option Z;          (* int(x) *)
  o_float2 : option str;     (* f"{float(x):.2f}" *)
  o_seconds : option Z;      (* the time_t that fromtimestamp(x) converts *)
  o_json : option str        (* json.dumps(x, ensure_ascii=False) *)
}.

Inductive value : Type :=
| VNone
| VBool (b : bool)
| VInt (z : Z)
| VStr (s : str)
| VList (l : list value)
| VTuple (l : list value)
| VDict (d : list (str * value))
| VObj (o : obs) (attrs : list (str * value)).

Definition pydict := Dict.t value.

(** The three shapes [normalize_node] distinguishes: an object with a
    [to_dict] method, anything [dict(node)] accepts, and any other object,
    read through [dir] and [getattr]. *)
Inductive attribute : Type :=
| AttrRaises                 (* getattr(node, attr) raises *)
| AttrCallable               (* a method *)
| AttrValue (v : value).

Inductive node : Type :=
| NodeToDict (d : pydict)
| NodeMapping (d : pydict)
| NodeObject (attrs : list (str * attribute)).   (* dir(node), in its order *)

(** ** The Python runtime

    The services whose result depends on the Unicode database, on the C
    library or on the process environment. [None] stands for an exception. *)

Class Runtime : Type := {
  (** offset of local time from UTC, in seconds, at an instant *)
  utcoffset : Z -> Z;
  (** [int(s)] *)
  int_of_str : str -> option Z;
  (** [f"{float(s):.2f}"] *)
  float2_of_str : str -> option str;
  (** [datetime.datetime.strptime(s, fmt).timestamp()] *)
  strptime_timestamp : str -> str -> option Z;
  (** [repr(s)] *)
  str_repr : str -> str;
  (** whether [%Y] of [strftime], which is the C library's, pads a year below
      1000 with zeros to four digits (glibc does not) *)
  strftime_pads_year : bool;
  (** the order in which a [set] of strings is iterated, which changes from
      one process to the next with the hash seed *)
  set_order : list str -> list str;
  set_order_perm : forall l, Permutation (set_order l) l
}.

(** ** Built-in conversions *)

(** [bool(v)], the test of [not v] and of [v or w] *)
Definition truthy (v : value) : bool :=
  match v with
  | VNone => false
  | VBool b => b
  | VInt z => negb (z =? 0)%Z
  | VStr s => negb (is_empty s)
  | VList l | VTuple l => match l with [] => false | _ => true end
  | VDict d => match d with [] => false | _ => true end
  | VObj o _ => o_truthy o
  end.

(** [a or b] *)
Definition py_or (a b : value) : value := if truthy a then a else b.

(** [v == 0] *)
Definition eq_zero (v : value) : bool :=
  match v with
  | VBool b => negb b
  | VInt z => (z =? 0)%Z
  | VObj o _ => o_eq0 o
  | _ => false
  end.

Definition is_none (v : value) : bool :=
  match v with VNone => true | _ => false end.

(** [v != ""] *)
Definition ne_empty_str (v : value) : bool :=
  match v with VStr s => negb (is_empty s) | _ => true end.

(** [float(z)] for an int, as the integer it denotes: the nearest binary64
    number, ties to even; [None] is the [OverflowError] of an int too large. *)
Definition float_of_int (z : Z) : option Z :=
  match binary_normalize 53 1024 z 0 false with
  | S754_zero _ => Some 0%Z
  | S754_finite sx m e =>
      let a := if (0 <=? e)%Z then (Zpos m * 2 ^ e)%Z else (Zpos m / 2 ^ (- e))%Z in
      Some (if sx then (- a)%Z else a)
  | _ => None
  end.

(** [str(v)] and [repr(v)] return: no int in [v] has too many digits. *)
Fixpoint str_ok (v : value) : bool :=
  match v with
  | VInt z => int_str_ok z
  | VList l | VTuple l => forallb str_ok l
  | VDict d => forallb (fun kv : str * value => str_ok (snd kv)) d
  | _ => true
  end.

Section WithRuntime.
Context {rt : Runtime}.

(** The text of [repr(v)], when [repr(v)] returns. *)
Fixpoint py_repr (v : value) : str :=
  match v with
  | VNone => lit "None"
  | VBool b => if b then lit "True" else lit "False"
  | VInt z => str_of_Z z
  | VStr s => str_repr s
  | VList l => lit "[" ++ join_with (lit ", ") (map py_repr l) ++ lit "]"
  | VTuple l =>
      match l with
      | [x] => lit "(" ++ py_repr x ++ lit ",)"
      | _ => lit "(" ++ join_with (lit ", ") (map py_repr l) ++ lit ")"
      end
  | VDict d =>
      lit "{" ++
      join_with (lit ", ")
        (map (fun kv : str * value => let (k, x) := kv in str_repr k ++ lit ": " ++ py_repr x) d)
      ++ lit "}"
  | VObj o _ => o_repr o
  end.

(** The text of [str(v)], when [str(v)] returns. *)
Definition py_str (v : value) : str :=
  match v with
  | VStr s => s
  | VObj o _ => o_str o
  | _ => py_repr v
  end.

(** [str(v)] *)
Definition str_of (v : value) : result str :=
  if str_ok v then Ok (py_str v) else Raise ValueError.

(** [int(v)] *)
Definition py_int (v : value) : option Z :=
  match v with
  | VBool b => Some (if b then 1 else 0)%Z
  | VInt z => Some z
  | VStr s => int_of_str s
  | VObj o _ => o_int o
  | _ => None
  end.

(** [f"{float(v):.2f}"] *)
Definition py_float2 (v : value) : option str :=
  match v with
  | VBool b => Some (if b then lit "1.00" else lit "0.00")
  | VInt z =>
      match float_of_int z with
      | Some x => Some (str_of_Z x ++ lit ".00")
      | None => None
      end
  | VStr s => float2_of_str s
  | VObj o _ => o_float2 o
  | _ => None
  end.
End WithRuntime.

(** ** [json.dumps(v, ensure_ascii=False)] *)

Definition hex_digit (n : N) : N :=
  if (n <? 10)%N then (48 + n)%N else (87 + n)%N.

Definition json_escape (c : N) : str :=
  if (c =? 34)%N then [92; 34]%N                 (* backslash, quote *)
  else if (c =? 92)%N then [92; 92]%N            (* two backslashes *)
  else if (c =? 10)%N then 92%N :: lit "n"
  else if (c =? 13)%N then 92%N :: lit "r"
  else if (c =? 9)%N then 92%N :: lit "t"
  else if (c =? 8)%N then 92%N :: lit "b"
  else if (c =? 12)%N then 92%N :: lit "f"
  else if (c <? 32)%N
       then 92%N :: lit "u00" ++ [hex_digit (c / 16); hex_digit (c mod 16)]
  else [c].

Definition json_string (s : str) : str :=
  34%N :: concat (map json_escape s) ++ [34%N].

Fixpoint json_dumps (v : value) : result str :=
  match v with
  | VNone => Ok (lit "null")
  | VBool b => Ok (if b then lit "true" else lit "false")
  | VInt z => if int_str_ok z then Ok (str_of_Z z) else Raise ValueError
  | VStr s => Ok (json_string s)
  | VList l | VTuple l =>
      parts <- mapM json_dumps l ;;
      Ok (lit "[" ++ join_with (lit ", ") parts ++ lit "]")
  | VDict d =>
      parts <- mapM (fun kv : str * value => let (k, x) := kv in
                               s <- json_dumps x ;;
                               Ok (json_string k ++ lit ": " ++ s)) d ;;
      Ok (lit "{" ++ join_with (lit ", ") parts ++ lit "}")
  | VObj o _ =>
      match o_json o with
      | Some s => Ok s
      | None => Raise TypeError
      end
  end.

(** ** Local time *)

Record datetime : Set := {
  year : Z; month : Z; day : Z; hour : Z; minute : Z; second : Z
}.

(** The date of the proleptic Gregorian calendar that lies [z] days after
    1970-01-01. *)
Definition civil_from_days (z : Z) : Z * Z * Z :=
  let z := (z + 719468)%Z in
  let era := (z / 146097)%Z in
  let doe := (z mod 146097)%Z in
  let yoe := ((doe - doe / 1460 + doe / 36524 - doe / 146096) / 365)%Z in
  let doy := (doe - (365 * yoe + yoe / 4 - yoe / 100))%Z in
  let mp := ((5 * doy + 2) / 153)%Z in
  let d := (doy - (153 * mp + 2) / 5 + 1)%Z in
  let m := (if mp <? 10 then mp + 3 else mp - 9)%Z in
  let y := (yoe + era * 400 + (if m <=? 2 then 1 else 0))%Z in
  (y, m, d).

Definition MINYEAR : Z := 1.
Definition MAXYEAR : Z := 9999.

(** The year of a wall clock time, in seconds from 1970-01-01 00:00:00, is
    one a [datetime] can hold. *)
Definition year_ok (l : Z) : bool :=
  let '(y, _, _) := civil_from_days (l / 86400) in
  ((MINYEAR <=? y) && (y <=? MAXYEAR))%Z.

Section WithRuntime.
Context {rt : Runtime}.

(** The local wall clock at the instant [u], in seconds from 1970-01-01
    00:00:00 of that clock. *)
Definition local (u : Z) : Z := (u + utcoffset u)%Z.

(** [datetime.datetime.fromtimestamp(t)] for a [time_t]: the local wall
    clock. A year outside MINYEAR..MAXYEAR is an exception, at [t] and at
    the instants the function probes to tell a repeated hour: one day
    before, and [t] moved by the change of offset over that day when the
    clock was set back. *)
Definition fromtimestamp_time_t (t : Z) : option datetime :=
  let l := local t in
  let '(y, m, d) := civil_from_days (l / 86400) in
  let s := (l mod 86400)%Z in
  let transition := (l - local (t - 86400) - 86400)%Z in
  if year_ok l && year_ok (local (t - 86400))
     && (if (transition <? 0)%Z then year_ok (local (t + transition)) else true)
  then Some {| year := y; month := m; day := d;
               hour := s / 3600; minute := s mod 3600 / 60; second := s mod 60 |}
  else None.

(** [datetime.datetime.fromtimestamp(ts)] *)
Definition fromtimestamp (ts : value) : option datetime :=
  match ts with
  | VBool b => fromtimestamp_time_t (if b then 1 else 0)
  | VInt z => fromtimestamp_time_t z
  | VObj o _ =>
      match o_seconds o with
      | Some t => fromtimestamp_time_t t
      | None => None
      end
  | _ => None
  end.
End WithRuntime.

(** [dt.strftime("%d/%m/%Y")] *)
Definition fmt_date {rt : Runtime} (dt : datetime) : str :=
  zfill 2 (Z.to_N (day dt)) ++ lit "/" ++ zfill 2 (Z.to_N (month dt)) ++ lit "/"
  ++ zfill (if strftime_pads_year then 4 else 1) (Z.to_N (year dt)).

(** [dt.strftime("%H:%M:%S")] *)
Definition fmt_time (dt : datetime) : str :=
  zfill 2 (Z.to_N (hour dt)) ++ lit ":" ++ zfill 2 (Z.to_N (minute dt)) ++ lit ":"
  ++ zfill 2 (Z.to_N (second dt)).

(** [dt.strftime("%d/%m/%Y %H:%M:%S")] *)
Definition strftime_dmY_HMS {rt : Runtime} (dt : datetime) : str :=
  fmt_date dt ++ lit " " ++ fmt_time dt.

(** ** The program *)

Section Program.
Context {rt : Runtime}.

Definition human_time (ts : value) : result str :=
  if is_none ts || eq_zero ts then Ok (lit "-")
  else match fromtimestamp ts with
       | Some dt => Ok (strftime_dmY_HMS dt)
       | None => str_of ts                      (* except Exception: str(ts) *)
       end.

(** [f"{parent_key}{sep}{k}" if parent_key else k] *)
Definition new_key (parent_key sep k : str) : str :=
  if is_empty parent_key then k else parent_key ++ sep ++ k.

(** The items one pair [(k, v)] of the loop of [flatten_dict] adds. *)
Fixpoint flatten_item (parent_key sep k : str) (v : value) {struct v}
  : result (list (str * value)) :=
  let key := new_key parent_key sep k in
  match v with
  | VDict d =>
      items <- (fix loop (d : list (str * value)) : result (list (str * value)) :=
                  match d with
                  | [] => Ok []
                  | (k', v') :: d' =>
                      a <- flatten_item key sep k' v' ;;
                      b <- loop d' ;;
                      Ok (a ++ b)
                  end) d ;;
      Ok (Dict.of_items items)
  | VList _ | VTuple _ =>
      s <- json_dumps v ;; Ok [(key, VStr s)]
  | _ => Ok [(key, v)]
  end.

Fixpoint flatten_items (parent_key sep : str) (d : pydict)
  : result (list (str * value)) :=
  match d with
  | [] => Ok []
  | (k, v) :: d' =>
      a <- flatten_item parent_key sep k v ;;
      b <- flatten_items parent_key sep d' ;;
      Ok (a ++ b)
  end.

Definition flatten_dict (d : pydict) (parent_key sep : str) : result pydict :=
  items <- flatten_items parent_key sep d ;;
  Ok (Dict.of_items items).

(** The characters the pattern [[^a-zA-Z0-9 _\.-]] does not match. *)
Definition kept_by_pattern (c : N) : bool :=
  ((97 <=? c) && (c <=? 122) || (65 <=? c) && (c <=? 90) ||
   (48 <=? c) && (c <=? 57) || (c =? 32) || (c =? 95) || (c =? 46) ||
   (c =? 45))%N.

Definition clean_name (name : value) : result str :=
  if negb (truthy name) then Ok (ljust 35 [])
  else match name with
       | VStr name =>
           let name := filter kept_by_pattern name in
           let name := strip name in
           let name := if 35 <? length name then firstn 35 name else name in
           Ok (ljust 35 name)
       | _ => Raise TypeError                   (* re.sub on what is no str *)
       end.

(** Lines 52 to 68: the record as a dictionary. *)
Definition node_dict (n : node) : pydict :=
  match n with
  | NodeToDict d => d
  | NodeMapping d => d
  | NodeObject attrs =>
      fold_left
        (fun d (a : str * attribute) =>
           let (attr, x) := a in
           match attr with
           | 95%N :: _ => d                     (* attr.startswith("_") *)
           | _ => match x with
                  | AttrValue val => Dict.set d attr val
                  | AttrCallable | AttrRaises => d
                  end
           end)
        attrs []
  end.

(** [getattr(u, k, None)] *)
Definition getattr (u : value) (k : str) : value :=
  match u with
  | VObj _ attrs => Dict.get_default attrs k VNone
  | _ => VNone
  end.

(** The block [# lastHeard] (lines 72 to 76). *)
Definition with_lastHeard (d flat : pydict) : result pydict :=
  if Dict.mem d (lit "lastHeard")
  then
    h <- human_time (Dict.get_default d (lit "lastHeard") VNone) ;;
    let flat := Dict.set flat (lit "lastHeard_human") (VStr h) in
    let tmp := split h in
    match tmp with
    | tmp0 :: tmp1 :: _ =>
        Ok (Dict.set flat (lit "lastHeard_human") (VStr (tmp1 ++ lit " " ++ tmp0)))
    | _ => Raise IndexError                     (* tmp[1] *)
    end
  else Ok flat.

(** The block on the user name (lines 78 to 87). *)
Definition with_name (d flat : pydict) : result pydict :=
  match Dict.get d (lit "user") with
  | Some u =>
      let name :=
        match u with
        | VDict u =>
            py_or (py_or (Dict.get_default u (lit "longName") VNone)
                         (Dict.get_default u (lit "shortName") VNone))
                  (VStr [])
        | _ =>
            py_or (py_or (getattr u (lit "longName"))
                         (getattr u (lit "shortName")))
                  (VStr [])
        end in
      s <- clean_name name ;;
      Ok (Dict.set flat (lit "name") (VStr s))
  | None => Ok (Dict.set flat (lit "name") (VStr (ljust 35 [])))
  end.

(** The block [# viaHop] (lines 89 to 95). *)
Definition with_viaHop (flat : pydict) : pydict :=
  let hops := Dict.get_default flat (lit "hopsAway") VNone in
  let hops_int := if is_none hops then 0%Z
                  else match py_int hops with
                       | Some z => z
                       | None => 0%Z            (* except Exception *)
                       end in
  Dict.set flat (lit "viaHop") (VBool (0 <? hops_int)%Z).

(** The block [# snr] (lines 97 to 102). *)
Definition with_snr (flat : pydict) : pydict :=
  match Dict.get flat (lit "snr") with
  | Some snr =>
      Dict.set flat (lit "snr")
        (VStr (match py_float2 snr with
               | Some s => s
               | None => []                     (* except Exception *)
               end))
  | None => flat
  end.

Definition normalize_node (n : node) : result pydict :=
  let d := node_dict n in
  flat <- flatten_dict d [] (lit "_") ;;
  flat <- with_lastHeard d flat ;;
  flat <- with_name d flat ;;
  Ok (with_snr (with_viaHop flat)).

(** *** [print_table] *)

(** [rows.sort(key=...)] is stable; with [reverse=True] rows of equal key
    keep their order too. [before x y] tells that [x] may stand before [y]. *)
Section Sort.
Variable A : Type.
Variable before : A -> A -> bool.

Fixpoint insert_sorted (x : A) (l : list A) : list A :=
  match l with
  | [] => [x]
  | y :: l' => if before x y then x :: l else y :: insert_sorted x l'
  end.

Fixpoint stable_sort (l : list A) : list A :=
  match l with
  | [] => []
  | x :: l' => insert_sorted x (stable_sort l')
  end.
End Sort.

Definition hop_key (r : pydict) : Z :=
  match py_int (Dict.get_default r (lit "hopsAway") (VInt 0)) with
  | Some z => z
  | None => 0%Z                                 (* except Exception *)
  end.

Definition ts_key (r : pydict) : Z :=
  match Dict.get_default r (lit "lastHeard_human") (VStr (lit "-")) with
  | VStr val =>
      if str_eqb val (lit "-") || is_empty (strip val) then 0%Z
      else match strptime_timestamp val (lit "%H:%M:%S %d/%m/%Y") with
           | Some t => t
           | None => 0%Z                        (* except Exception *)
           end
  | _ => 0%Z                                    (* val.strip() raises *)
  end.

Definition sort_rows (sort_hop : bool) (rows : list pydict) : list pydict :=
  if sort_hop
  then stable_sort (fun a b => (hop_key a <=? hop_key b)%Z) rows
  else stable_sort (fun a b => (ts_key b <=? ts_key a)%Z) rows.

(** [headers.update(flat.keys())], the set as the list of its elements *)
Definition set_add (hs : list str) (k : str) : list str :=
  if existsb (str_eqb k) hs then hs else hs ++ [k].

Definition headers_of (rows : list pydict) : list str :=
  fold_left (fun hs flat => fold_left set_add (Dict.keys flat) hs) rows [].

Definition compact_headers : list str :=
  [ lit "#"; lit "user_id"; lit "user_hwModel"; lit "name"; lit "hopsAway";
    lit "snr"; lit "position_latitude"; lit "position_longitude";
    lit "lastHeard_human" ].

(** [sorted(headers)] *)
Definition sorted (hs : list str) : list str := stable_sort str_leb hs.

Definition select_headers (compact : bool) (rows : list pydict) : list str :=
  if compact then compact_headers
  else lit "#" :: sorted (set_order (headers_of rows)).

(** [max((len(str(r.get(h, ""))) for r in rows), default=0)] *)
Definition maxlen (rows : list pydict) (h : str) : nat :=
  fold_left Nat.max
    (map (fun r => length (py_str (Dict.get_default r h (VStr [])))) rows) 0.

Definition col_width (rows : list pydict) (h : str) : nat :=
  if str_eqb h (lit "#") then 5
  else if str_eqb h (lit "name") then 35
  else Nat.max (maxlen rows h) (length h) + 2.

(** The dictionary [col_widths] after the loop over [headers]. *)
Definition col_widths (rows : list pydict) (headers : list str) : Dict.t nat :=
  fold_left (fun cw h => Dict.set cw h (col_width rows h)) headers [].

Definition header_line (cw : Dict.t nat) (headers : list str) : str :=
  join (map (fun h => ljust (Dict.get_default cw h 0) h) headers).

Definition cell (cw : Dict.t nat) (idx : nat) (r : pydict) (h : str) : str :=
  let w := Dict.get_default cw h 0 in
  if str_eqb h (lit "#") then
    ljust w (zfill 3 (N.of_nat idx))
  else if str_eqb h (lit "snr") && ne_empty_str (Dict.get_default r h (VStr [])) then
    ljust w (py_str (Dict.get_default r h (VStr [])) ++ lit "  ")
  else
    ljust w (py_str (Dict.get_default r h (VStr []))).

Definition row_line (cw : Dict.t nat) (headers : list str) (idx : nat) (r : pydict)
  : str :=
  join (map (cell cw idx r) headers).

Definition highlighted (r : pydict) : bool :=
  str_eqb (py_str (Dict.get_default r (lit "hopsAway") (VStr (lit "0")))) (lit "0")
  && ne_empty_str (Dict.get_default r (lit "snr") (VStr [])).

Definition sgr_green_white : str := (27 :: lit "[42m")%N ++ (27 :: lit "[97m")%N.
Definition sgr_reset : str := (27 :: lit "[0m")%N.

(** What the body of the loop over [enumerate(rows, start=1)] prints. *)
Definition printed_row (cw : Dict.t nat) (headers : list str) (idx : nat)
           (r : pydict) : str :=
  let line := row_line cw headers idx r in
  if highlighted r then sgr_green_white ++ line ++ sgr_reset else line.

Fixpoint printed_rows (cw : Dict.t nat) (headers : list str) (idx : nat)
         (rows : list pydict) : list str :=
  match rows with
  | [] => []
  | r :: rows' => printed_row cw headers idx r :: printed_rows cw headers (S idx) rows'
  end.

(** The lines [print_table] writes once every record is normalised. *)
Definition render (rows : list pydict) (compact sort_hop : bool) : list str :=
  let headers := select_headers compact rows in
  let rows := sort_rows sort_hop rows in
  let cw := col_widths rows headers in
  let hl := header_line cw headers in
  [] :: hl :: repeat 61%N (length hl) :: printed_rows cw headers 1 rows.

(** The calls of [str] that measure the column [h] (line 161); the columns
    [#] and name have their widths without one. *)
Definition measure (rows : list pydict) (h : str) : result unit :=
  if str_eqb h (lit "#") || str_eqb h (lit "name") then Ok tt
  else _ <- mapM (fun r => str_of (Dict.get_default r h (VStr []))) rows ;; Ok tt.

(** The calls of [str] in the body of the loop over the rows: one for every
    column but [#] (lines 177 and 183, where [r[h]] is [r.get(h, "")]), then
    the one of the test on hopsAway (line 188). The number of a row, which
    the format [03d] converts for the column [#], has at most 19 digits: a
    list has fewer than 2^63 elements. *)
Definition row_strs (headers : list str) (r : pydict) : result unit :=
  _ <- mapM (fun h => if str_eqb h (lit "#") then Ok []
                      else str_of (Dict.get_default r h (VStr []))) headers ;;
  _ <- str_of (Dict.get_default r (lit "hopsAway") (VStr (lit "0"))) ;;
  Ok tt.

(** [print_table(nodes, compact, sort_hop)]: the lines written to the
    standard output, or the exception that leaves the function. [nodes] maps
    a node number to its record. An exception comes from [normalize_node], in
    the first loop, or from [str] where the widths are computed, in both
    cases before anything is written: the calls of [str] in the loop over
    the rows return once those of the widths have (lemma
    [row_strs_return]), so that [Raise] never stands for an exception that
    follows a line of the table. *)
Definition print_table (nodes : list (Z * node)) (compact sort_hop : bool)
  : result (list str) :=
  rows <- mapM normalize_node (map snd nodes) ;;
  let headers := select_headers compact rows in
  let sorted_rows := sort_rows sort_hop rows in
  _ <- mapM (measure sorted_rows) headers ;;
  _ <- mapM (row_strs headers) sorted_rows ;;
  Ok (render rows compact sort_hop).
End Program.

(** *** [main]

    What [main] does, as the events the process shows. The libraries are the
    environment: what [parse_args] makes of the command line, whether the
    connection is made, what [nodesByNum] holds and what [close] does are
    given. *)

Inductive event : Type :=
| Stdout (line : str)                           (* print(line) *)
| Stderr (line : str)                           (* print(line, file=sys.stderr) *)
| Sleep (seconds : Z)                           (* time.sleep(seconds) *)
| Close.                                        (* iface.close() is called *)

(** The object [tcp_interface.TCPInterface(...)] returns. *)
Record interface : Type := {
  (** [getattr(iface, "nodesByNum", None)]: [None] for an attribute that is
      missing or [None] *)
  nodesByNum : option (list (Z * node));
  (** [bool(iface)] *)
  is_true : bool;
  (** the text of the exception the call number [k] of [iface.close()]
      raises, counted from 0; [None] when the call returns *)
  close : nat -> option str
}.

(** [tcp_interface.TCPInterface(hostname=..., portNumber=...)]: the
    interface, or the text of the exception raised. *)
Inductive connection : Type :=
| Connected (iface : interface)
| Refused (message : str).

(** [parser.parse_args()]: the arguments, or the lines [argparse] writes to
    the standard output and to the standard error before it ends the
    process, with the status it gives to [sys.exit]: the usage and the error
    with status 2 when an argument is missing or wrong, the help with
    status 0. *)
Inductive command_line : Type :=
| Args (host : str) (port : Z) (sort_hop : bool)
| Usage (out err : list str) (code : Z).

(** The events of a run and how it ends: [None] when [main] returns,
    [Some c] for [sys.exit(c)]. *)
Record outcome : Type := { events : list event; status : option Z }.

Section Main.
Context {rt : Runtime}.
Variable parse_args : command_line.
Variable connect : connection.
Variable str_of_exn : exn -> str.               (* str(exc) *)

(** The clause [except Exception as exc]; [so_far] is what happened before
    the exception. What [iface.close()] raises here is dropped. *)
Definition handler (so_far : list event) (iface : option interface) (exc : str)
  : outcome :=
  let closing := match iface with
                 | Some i => if is_true i then [Close] else []
                 | None => []
                 end in
  {| events := so_far ++ Stderr (lit "Errore: " ++ exc) :: closing;
     status := Some 1%Z |}.

Definition main : outcome :=
  match parse_args with
  | Usage out err code =>
      {| events := map Stdout out ++ map Stderr err; status := Some code |}
  | Args host port sort_hop =>
  if negb (int_str_ok port)                     (* str(args.port) raises *)
  then handler [] None (str_of_exn ValueError)
  else
  let e1 := [Stdout (lit "Connessione TCP a " ++ host ++ lit ":" ++ str_of_Z port)] in
  match connect with
  | Refused exc => handler e1 None exc
  | Connected iface =>
      let e2 := e1 ++ [Stdout (lit "Connesso!"); Sleep 3] in
      match nodesByNum iface with
      | None | Some [] =>                       (* not nodes *)
          let e3 := e2 ++ [Stderr (lit "Errore: impossibile recuperare i nodi");
                           Close] in
          match close iface 0 with
          | Some exc => handler e3 (Some iface) exc
          | None => {| events := e3; status := Some 1%Z |}   (* SystemExit *)
          end
      | Some nodes =>
          match print_table nodes true sort_hop with
          | Raise e => handler e2 (Some iface) (str_of_exn e)
          | Ok lines =>
              let e3 := e2 ++ map Stdout lines ++ [Close] in
              match close iface 0 with
              | Some exc => handler e3 (Some iface) exc
              | None => {| events := e3; status := None |}
              end
          end
      end
  end
  end.
End Main.

(** The lines written to the standard output. *)
Fixpoint stdout (es : list event) : list str :=
  match es with
  | [] => []
  | Stdout line :: es' => line :: stdout es'
  | _ :: es' => stdout es'
  end.

(** The number of calls of [iface.close()]. *)
Fixpoint closes (es : list event) : nat :=
  match es with
  | [] => 0
  | Close :: es' => S (closes es')
  | _ :: es' => closes es'
  end.

(** ** A runtime

    CPython on a machine whose local clock keeps a given offset function,
    restricted to ASCII digits and to the Latin-1 range of [repr]: the
    instance at which the statements below are evaluated. *)

Module Cpython.

Definition is_digit (c : N) : bool := ((48 <=? c) && (c <=? 57))%N.

(** A run of digits with single underscores between digits, as [int] and
    [float] accept it: the digits read, most significant first. *)
Fixpoint digitpart (s : str) (after_digit : bool) : option (list N) :=
  match s with
  | [] => if after_digit then Some [] else None
  | c :: s' =>
      if is_digit c then
        match digitpart s' true with
        | Some ds => Some ((c - 48)%N :: ds)
        | None => None
        end
      else if (c =? 95)%N && after_digit then digitpart s' false
      else None
  end.

Definition number_of (ds : list N) : N :=
  fold_left (fun acc d => (10 * acc + d)%N) ds 0%N.

Definition signed (s : str) : bool * str :=
  match s with
  | 45%N :: s' => (true, s')
  | 43%N :: s' => (false, s')
  | _ => (false, s)
  end.

(** The white space [int] and [float] skip at both ends of a string: that
    of [str.strip] but the separators U+001C to U+001F. *)
Definition is_blank (c : N) : bool :=
  is_space c && negb ((28 <=? c) && (c <=? 31))%N.

Fixpoint skip_blanks (s : str) : str :=
  match s with
  | c :: s' => if is_blank c then skip_blanks s' else s
  | [] => []
  end.

Definition trim (s : str) : str := rev (skip_blanks (rev (skip_blanks s))).

Definition parse_int (s : str) : option Z :=
  let (neg, body) := signed (trim s) in
  match digitpart body false with
  | Some ds =>
      if int_max_str_digits <? length ds then None
      else Some (if neg then - Z.of_N (number_of ds) else Z.of_N (number_of ds))%Z
  | None => None
  end.

(** [s] cut at the first character that satisfies [p]. *)
Fixpoint break_at (p : N -> bool) (s : str) : str * option str :=
  match s with
  | [] => ([], None)
  | c :: s' =>
      if p c then ([], Some s')
      else let (a, b) := break_at p s' in (c :: a, b)
  end.

Definition lower (c : N) : N :=
  if ((65 <=? c) && (c <=? 90))%N then (c + 32)%N else c.

(** The binary64 number nearest to [d * 10 ^ k], ties to even. *)
Definition binary64_of_decimal (neg : bool) (d : N) (k : Z) : spec_float :=
  match d with
  | N0 => S754_zero neg
  | Npos p =>
      if (0 <=? k)%Z then binary_round 53 1024 neg (p * Z.to_pos (10 ^ k))%positive 0
      else
        let den := (10 ^ (- k))%Z in
        let sh := Z.max 0 (66 + Z.log2 den - Z.log2 (Zpos p))%Z in
        let num := (Zpos p * 2 ^ sh)%Z in
        let q := (num / den)%Z in
        let sticky := if (num mod den =? 0)%Z then 0%Z else 1%Z in
        binary_round 53 1024 neg (Z.to_pos (2 * q + sticky)) (- sh - 1)
  end.

(** The format [.2f] of a binary64 number. *)
Definition format_2f (x : spec_float) : str :=
  match x with
  | S754_nan => lit "nan"
  | S754_infinity neg => if neg then lit "-inf" else lit "inf"
  | S754_zero neg => if neg then lit "-0.00" else lit "0.00"
  | S754_finite neg m e =>
      (* m * 2^e * 100 rounded to the nearest integer, ties to even *)
      let n :=
        if (0 <=? e)%Z then (Zpos m * 2 ^ e * 100)%Z
        else
          let den := (2 ^ (- e))%Z in
          let q := (Zpos m * 100 / den)%Z in
          let r := (Zpos m * 100 mod den)%Z in
          if (2 * r <? den)%Z then q
          else if (den <? 2 * r)%Z then (q + 1)%Z
          else if Z.even q then q else (q + 1)%Z in
      (if neg then lit "-" else []) ++ str_of_Z (n / 100) ++ lit "."
      ++ zfill 2 (Z.to_N (n mod 100))
  end.

Definition float_of_str (s : str) : option spec_float :=
  let (neg, body) := signed (trim s) in
  let word := map lower body in
  if str_eqb word (lit "inf") || str_eqb word (lit "infinity")
  then Some (S754_infinity neg)
  else if str_eqb word (lit "nan") then Some S754_nan
  else
    let (mant, ex) := break_at (fun c => (lower c =? 101)%N) body in
    let (ip, fp) := break_at (fun c => (c =? 46)%N) mant in
    let digits_or_empty (t : str) :=
      if is_empty t then Some [] else digitpart t false in
    let ipd := digits_or_empty ip in
    let fpd := match fp with Some t => digits_or_empty t | None => Some [] end in
    let exd :=
      match ex with
      | None => Some 0%Z
      | Some t =>
          let (eneg, t') := signed t in
          match digitpart t' false with
          | Some ds => Some (if eneg then - Z.of_N (number_of ds)
                             else Z.of_N (number_of ds))%Z
          | None => None
          end
      end in
    match ipd, fpd, exd with
    | Some i, Some f, Some e =>
        if is_empty ip && match fp with Some t => is_empty t | None => true end
        then None
        else Some (binary64_of_decimal neg (number_of (i ++ f))
                     (e - Z.of_nat (length f)))
    | _, _, _ => None
    end.

Definition parse_float2 (s : str) : option str :=
  match float_of_str s with
  | Some x => Some (format_2f x)
  | None => None
  end.

(** Days from 1970-01-01 to a date of the proleptic Gregorian calendar. *)
Definition days_from_civil (y m d : Z) : Z :=
  let y := (if m <=? 2 then y - 1 else y)%Z in
  let era := (y / 400)%Z in
  let yoe := (y mod 400)%Z in
  let doy := ((153 * (if 2 <? m then m - 3 else m + 9) + 2) / 5 + d - 1)%Z in
  let doe := (yoe * 365 + yoe / 4 - yoe / 100 + doy)%Z in
  (era * 146097 + doe - 719468)%Z.

Definition is_leap (y : Z) : bool :=
  ((y mod 4 =? 0) && (negb (y mod 100 =? 0) || (y mod 400 =? 0)))%Z.

Definition days_in_month (y m : Z) : Z :=
  if (m =? 2)%Z then (if is_leap y then 29 else 28)%Z
  else if ((m =? 4) || (m =? 6) || (m =? 9) || (m =? 11))%Z then 30%Z
  else 31%Z.

(** A field of one or two digits: the two-digit reading when it lies in
    [lo2..hi], else the one-digit reading when it is at least [lo1]. *)
Definition field2 (lo2 hi lo1 : N) (s : str) : option (Z * str) :=
  let one :=
    match s with
    | a :: s' =>
        if is_digit a && (lo1 <=? a - 48)%N then Some (Z.of_N (a - 48), s') else None
    | [] => None
    end in
  match s with
  | a :: b :: s' =>
      let v := (10 * (a - 48) + (b - 48))%N in
      if is_digit a && is_digit b && (lo2 <=? v)%N && (v <=? hi)%N
      then Some (Z.of_N v, s')
      else one
  | _ => one
  end.

Definition expect (c : N) (s : str) : option str :=
  match s with
  | c' :: s' => if (c =? c')%N then Some s' else None
  | [] => None
  end.

Definition spaces (s : str) : option str :=
  match s with
  | c :: s' => if is_space c then Some (lstrip s') else None
  | [] => None
  end.

Definition year4 (s : str) : option Z :=
  match s with
  | [a; b; c; d] =>
      if is_digit a && is_digit b && is_digit c && is_digit d
      then Some (Z.of_N (number_of [a - 48; b - 48; c - 48; d - 48]%N))
      else None
  | _ => None
  end.

Definition obind {A B} (m : option A) (k : A -> option B) : option B :=
  match m with Some a => k a | None => None end.

(** [datetime.datetime.strptime(s, "%H:%M:%S %d/%m/%Y")] *)
Definition strptime_HMS_dmY (s : str) : option datetime :=
  obind (field2 0 23 0 s) (fun '(hh, s) =>
  obind (expect 58 s) (fun s =>
  obind (field2 0 59 0 s) (fun '(mi, s) =>
  obind (expect 58 s) (fun s =>
  obind (field2 0 61 0 s) (fun '(ss, s) =>
  obind (spaces s) (fun s =>
  obind (field2 1 31 1 s) (fun '(d, s) =>
  obind (expect 47 s) (fun s =>
  obind (field2 1 12 1 s) (fun '(m, s) =>
  obind (expect 47 s) (fun s =>
  obind (year4 s) (fun y =>
  if ((ss <=? 59) && (1 <=? y) && (d <=? days_in_month y m))%Z
  then Some {| year := y; month := m; day := d;
               hour := hh; minute := mi; second := ss |}
  else None))))))))))).

Section Clock.
Variable offset : Z -> Z.

Definition local_checked (u : Z) : option Z :=
  let l := (u + offset u)%Z in
  if year_ok l then Some l else None.

(** [dt.timestamp()] of a naive [datetime] whose [fold] is 0: the instant
    at which the local clock shows [dt]. *)
Definition timestamp (dt : datetime) : option Z :=
  let t := (days_from_civil (year dt) (month dt) (day dt) * 86400
            + hour dt * 3600 + minute dt * 60 + second dt)%Z in
  obind (local_checked t) (fun lt =>
  let a := (lt - t)%Z in
  let u1 := (t - a)%Z in
  obind (local_checked u1) (fun t1 =>
  let second_guess (b : Z) :=
    let u2 := (t - b)%Z in
    obind (local_checked u2) (fun t2 =>
    if (t2 =? t)%Z then Some u2
    else if (t1 =? t)%Z then Some u1
    else Some (Z.max u1 u2)) in
  if (t1 =? t)%Z then
    let u2 := (u1 - 86400)%Z in
    obind (local_checked u2) (fun lt2 =>
    let b := (lt2 - u2)%Z in
    if (a =? b)%Z then Some u1 else second_guess b)
  else second_guess (t1 - u1)%Z)).

Definition parse_timestamp (s fmt : str) : option Z :=
  if str_eqb fmt (lit "%H:%M:%S %d/%m/%Y")
  then obind (strptime_HMS_dmY s) timestamp
  else None.
End Clock.

(** *** A [float], as the program observes it *)

(** [int(x)]: what lies before the point. *)
Definition truncate (x : spec_float) : option Z :=
  match x with
  | S754_zero _ => Some 0%Z
  | S754_finite neg m e =>
      let a := if (0 <=? e)%Z then (Zpos m * 2 ^ e)%Z else (Zpos m / 2 ^ (- e))%Z in
      Some (if neg then - a else a)%Z
  | _ => None
  end.

(** The integer nearest to the magnitude of a finite number, ties to even. *)
Definition nearest (x : spec_float) : Z :=
  match x with
  | S754_finite _ m e =>
      if (0 <=? e)%Z then (Zpos m * 2 ^ e)%Z
      else
        let den := (2 ^ (- e))%Z in
        let q := (Zpos m / den)%Z in
        let r := (Zpos m mod den)%Z in
        if (2 * r <? den)%Z then q
        else if (den <? 2 * r)%Z then (q + 1)%Z
        else if Z.even q then q else (q + 1)%Z
  | _ => 0%Z
  end.

(** The seconds of the [time_t] and microseconds [fromtimestamp(x)]
    converts: the fraction times 1e6, a binary64 product, is rounded to the
    nearest integer, ties to even, and carried into the seconds. *)
Definition time_t_of (x : spec_float) : option Z :=
  match x with
  | S754_zero _ => Some 0%Z
  | S754_finite neg m e =>
      if (0 <=? e)%Z then Some (if neg then - (Zpos m * 2 ^ e) else Zpos m * 2 ^ e)%Z
      else
        let den := (2 ^ (- e))%Z in
        let intpart := (Zpos m / den)%Z in
        let us := nearest (binary_normalize 53 1024 (Zpos m mod den * 1000000) e false) in
        if neg then Some (if (0 <? us)%Z then - intpart - 1 else - intpart)%Z
        else Some (if (1000000 <=? us)%Z then intpart + 1 else intpart)%Z
  | _ => None
  end.

(** The float whose [repr] is the text [text]. *)
Definition float_obs (text : string) : obs :=
  let x := match float_of_str (lit text) with Some x => x | None => S754_nan end in
  let zero := match x with S754_zero _ => true | _ => false end in
  {| o_str := lit text;
     o_repr := lit text;
     o_truthy := negb zero;
     o_eq0 := zero;
     o_int := truncate x;
     o_float2 := Some (format_2f x);
     o_seconds := time_t_of x;
     o_json := Some (match x with
                     | S754_nan => lit "NaN"
                     | S754_infinity neg => if neg then lit "-Infinity" else lit "Infinity"
                     | _ => lit text
                     end) |}.

Definition VFloat (text : string) : value := VObj (float_obs text) [].

Definition hex2 (c : N) : str := [hex_digit (c / 16); hex_digit (c mod 16)]%N.

Definition repr_char (quote : N) (c : N) : str :=
  if ((c =? quote) || (c =? 92))%N then [92%N; c]
  else if (c =? 10)%N then 92%N :: lit "n"
  else if (c =? 13)%N then 92%N :: lit "r"
  else if (c =? 9)%N then 92%N :: lit "t"
  else if ((c <? 32) || (127 <=? c) && (c <=? 160) || (c =? 173))%N
       then 92%N :: lit "x" ++ hex2 c
  else [c].

Definition repr_str (s : str) : str :=
  let quote := if existsb (N.eqb 39) s && negb (existsb (N.eqb 34) s)
               then 34%N else 39%N in
  quote :: concat (map (repr_char quote) s) ++ [quote].

(** The runtime with the given clock that iterates a set in the order
    [order] gives. *)
Definition runtime (offset : Z -> Z) (order : list str -> list str)
           (order_perm : forall l, Permutation (order l) l) : Runtime :=
  {| utcoffset := offset;
     int_of_str := parse_int;
     float2_of_str := parse_float2;
     strptime_timestamp := parse_timestamp offset;
     str_repr := repr_str;
     strftime_pads_year := false;
     set_order := order;
     set_order_perm := order_perm |}.

(** Local time is UTC; a set is iterated in the order of insertion. *)
Definition utc : Runtime :=
  runtime (fun _ => 0%Z) (fun l => l) (@Permutation_refl str).

(** The same process with another hash seed: the opposite order. *)
Definition utc_reversed : Runtime :=
  runtime (fun _ => 0%Z) (@rev str) (fun l => Permutation_sym (Permutation_rev l)).

End Cpython.

(** ** A snapshot

    Two records as the node database holds them: one heard directly, with a
    position and a signal-to-noise ratio, and one heard through two hops of
    which little is known. *)

Module Sample.
Import Cpython.

Definition alice : node :=
  NodeMapping
    [ (lit "num", VInt 2864434397);
      (lit "user", VDict [ (lit "id", VStr (lit "!aabbccdd"));
                           (lit "longName", VStr (lit "Alice Station!!"));
                           (lit "shortName", VStr (lit "ALIC"));
                           (lit "hwModel", VStr (lit "TBEAM")) ]);
      (lit "position", VDict [ (lit "latitude", VFloat "43.7167");
                               (lit "longitude", VFloat "10.3833");
                               (lit "altitude", VInt 12) ]);
      (lit "snr", VFloat "5.678");
      (lit "lastHeard", VInt 1700000000);
      (lit "hopsAway", VInt 0) ].

Definition bob : node :=
  NodeMapping
    [ (lit "num", VInt 287454020);
      (lit "user", VDict [ (lit "shortName", VStr (lit "BOB")) ]);
      (lit "hopsAway", VInt 2) ].

Definition nodes : list (Z * node) :=
  [ (2864434397%Z, alice); (287454020%Z, bob) ].

(** Their rows, when local time is UTC. *)
Definition alice_row : pydict :=
  [ (lit "num", VInt 2864434397);
    (lit "user_id", VStr (lit "!aabbccdd"));
    (lit "user_longName", VStr (lit "Alice Station!!"));
    (lit "user_shortName", VStr (lit "ALIC"));
    (lit "user_hwModel", VStr (lit "TBEAM"));
    (lit "position_latitude", VFloat "43.7167");
    (lit "position_longitude", VFloat "10.3833");
    (lit "position_altitude", VInt 12);
    (lit "snr", VStr (lit "5.68"));
    (lit "lastHeard", VInt 1700000000);
    (lit "hopsAway", VInt 0);
    (lit "lastHeard_human", VStr (lit "22:13:20 14/11/2023"));
    (lit "name", VStr (lit "Alice Station                      "));
    (lit "viaHop", VBool false) ].

Definition bob_row : pydict :=
  [ (lit "num", VInt 287454020);
    (lit "user_shortName", VStr (lit "BOB"));
    (lit "hopsAway", VInt 2);
    (lit "name", VStr (lit "BOB                                "));
    (lit "viaHop", VBool true) ].
End Sample.

(** ** The specification's reading of the operations *)

(** "ASCII letter, digit, space, underscore, hyphen, or period" *)
Definition ascii_letter (c : N) : bool :=
  ((65 <=? c) && (c <=? 90) || (97 <=? c) && (c <=? 122))%N.

Definition ascii_digit (c : N) : bool := ((48 <=? c) && (c <=? 57))%N.

Definition name_char (c : N) : bool :=
  ascii_letter c || ascii_digit c || (c =? 32)%N || (c =? 95)%N || (c =? 45)%N
  || (c =? 46)%N.

(** "strips every character that is not ...; trims leading/trailing
    whitespace; truncates to at most 35 characters; right-pads with spaces
    until exactly 35 characters" *)
Definition cleanName (raw : str) : str :=
  let stripped := filter name_char raw in
  let trimmed := strip stripped in
  let truncated := firstn 35 trimmed in
  truncated ++ repeat 32%N (35 - length truncated).

(** "max(header length, maximum content length across all rows) + 2, except
    that the '#' column has fixed width 5 and the 'name' column has fixed
    width 35" *)
Definition content_length {rt : Runtime} (h : str) (r : pydict) : nat :=
  length (py_str (Dict.get_default r h (VStr []))).

Definition columnWidth {rt : Runtime} (rows : list pydict) (h : str) : nat :=
  if list_eq_dec N.eq_dec h (lit "#") then 5
  else if list_eq_dec N.eq_dec h (lit "name") then 35
  else Nat.max (length h) (list_max (map (content_length h) rows)) + 2.

(** "the row's hopsAway value, compared as a string with default "0" when
    absent, equals "0" and the row's snr value is non-empty" *)
Definition direct_with_snr {rt : Runtime} (r : pydict) : Prop :=
  py_str (match Dict.get r (lit "hopsAway") with Some v => v | None => VStr (lit "0") end)
  = lit "0"
  /\ Dict.get r (lit "snr") <> None /\ Dict.get r (lit "snr") <> Some (VStr []).

(** Two runs of the program in one configuration: the same clock and the
    same library, whatever the order in which each iterates its sets. *)
Definition same_configuration (rt1 rt2 : Runtime) : Prop :=
  @utcoffset rt1 = @utcoffset rt2
  /\ @int_of_str rt1 = @int_of_str rt2
  /\ @float2_of_str rt1 = @float2_of_str rt2
  /\ @strptime_timestamp rt1 = @strptime_timestamp rt2
  /\ @str_repr rt1 = @str_repr rt2
  /\ @strftime_pads_year rt1 = @strftime_pads_year rt2.

(** "exactly one header line, one separator line of '=' repeated to the
    header line's length, and one line per row, in that order, and nothing
    else" *)
Definition writes_header_separator_rows {rt : Runtime}
           (nodes : list (Z * node)) (compact sort_hop : bool) : Prop :=
  exists header lines,
    print_table nodes compact sort_hop
    = Ok (header :: repeat 61%N (length header) :: lines)
    /\ length lines = length nodes.

(** "the key obtained by parsing each row's lastHeard_human as 'HH:MM:SS
    DD/MM/YYYY' into an epoch timestamp, where a value of '-', blank, or any
    value that fails to parse is keyed as epoch zero" *)
Definition recencyKey {rt : Runtime} (r : pydict) : Z :=
  match Dict.get r (lit "lastHeard_human") with
  | Some (VStr val) =>
      if list_eq_dec N.eq_dec val (lit "-") then 0%Z
      else if forallb is_space val then 0%Z
      else match strptime_timestamp val (lit "%H:%M:%S %d/%m/%Y") with
           | Some t => t
           | None => 0%Z
           end
  | _ => 0%Z
  end.

(** "keyed as epoch zero and therefore sorts last": in the table, a row
    whose key is zero stands after every row whose key is not. *)
Definition zero_keyed_last {rt : Runtime} (rows : list pydict) : Prop :=
  forall i j a b,
    nth_error (sort_rows false rows) i = Some a ->
    nth_error (sort_rows false rows) j = Some b ->
    recencyKey a = 0%Z -> recencyKey b <> 0%Z -> j < i.

(** A record last heard five seconds before 1970, and its row when local
    time is UTC. *)
Definition early : node :=
  NodeMapping [ (lit "num", VInt 7); (lit "lastHeard", VInt (-5)) ].

Definition early_row : pydict :=
  [ (lit "num", VInt 7);
    (lit "lastHeard", VInt (-5));
    (lit "lastHeard_human", VStr (lit "23:59:55 31/12/1969"));
    (lit "name", VStr (repeat 32%N 35));
    (lit "viaHop", VBool false) ].

(** "each row's hopsAway value parsed as an integer, where a missing or
    non-numeric hopsAway is keyed as 0" *)
Definition hopKey {rt : Runtime} (r : pydict) : Z :=
  match Dict.get r (lit "hopsAway") with
  | Some hops => match py_int hops with Some z => z | None => 0%Z end
  | None => 0%Z
  end.

(** A character of a word of [split]. *)
Definition nonspace (c : N) : Prop := is_space c = false.

(** "the fixed 35-character name": the row has a name of 35 characters. *)
Definition has_name (r : pydict) : Prop :=
  exists s, Dict.get r (lit "name") = Some (VStr s) /\ length s = 35.

(** ** What the further properties speak of *)

(** The field [k] of a user: [u.get(k)] of a dict, [getattr(u, k, None)] of
    any other object. *)
Definition user_field (u : value) (k : str) : value :=
  match u with
  | VDict fields => Dict.get_default fields k VNone
  | _ => getattr u k
  end.

(** [str] accepts every value the table shows in a column of [headers]
    other than [#] and name: no int of too many digits is among them. *)
Definition measurable {rt : Runtime} (rows : list pydict) (headers : list str)
  : bool :=
  forallb (fun h => str_eqb h (lit "#") || str_eqb h (lit "name")
                    || forallb (fun r => str_ok (Dict.get_default r h (VStr []))) rows)
    headers.

(** [attr.startswith("_")] *)
Definition is_private (attr : str) : bool :=
  match attr with
  | 95%N :: _ => true
  | _ => false
  end.

(** A value that is no dict, list or tuple: what a flat row holds. *)
Definition is_scalar (v : value) : bool :=
  match v with
  | VList _ | VTuple _ | VDict _ => false
  | _ => true
  end.

(** [json.dumps] accepts the value: no object in it is one it cannot
    serialise, and no int has too many digits. *)
Fixpoint json_ok (v : value) : bool :=
  match v with
  | VInt z => int_str_ok z
  | VList l | VTuple l => forallb json_ok l
  | VDict d => forallb (fun kv : str * value => json_ok (snd kv)) d
  | VObj o _ => match o_json o with Some _ => true | None => false end
  | _ => true
  end.

(** No object in the value is one [json.dumps] cannot serialise. *)
Fixpoint objects_ok (v : value) : bool :=
  match v with
  | VList l | VTuple l => forallb objects_ok l
  | VDict d => forallb (fun kv : str * value => objects_ok (snd kv)) d
  | VObj o _ => match o_json o with Some _ => true | None => false end
  | _ => true
  end.

(** Every list and tuple of the value, at any depth of dicts, is one
    [json.dumps] accepts. *)
Fixpoint flattenable (v : value) : bool :=
  match v with
  | VDict d => forallb (fun kv : str * value => flattenable (snd kv)) d
  | VList _ | VTuple _ => json_ok v
  | _ => true
  end.

(** The values of a dictionary are scalars. *)
Definition scalars (items : list (str * value)) : Prop :=
  Forall (fun kv => is_scalar (snd kv) = true) items.

(** [P] holds of the [n] integers from [z] on. *)
Fixpoint all_from (P : Z -> bool) (z : Z) (n : nat) : bool :=
  match n with
  | O => true
  | S n' => P z && all_from P (z + 1) n'
  end.

(** The number [n] is printed in two digits, which read as [n]. *)
Definition two_digits (n : N) : bool :=
  match zfill 2 n with
  | [a; b] =>
      Cpython.is_digit a && Cpython.is_digit b && negb (is_space a)
      && (10 * (a - 48) + (b - 48) =? n)%N
  | _ => false
  end.

(** The year [y] is printed in four digits, which read as [y]. *)
Definition four_digits (y : N) : bool :=
  match zfill 1 y with
  | [a; b; c; d] =>
      Cpython.is_digit a && Cpython.is_digit b && Cpython.is_digit c
      && Cpython.is_digit d
      && (Cpython.number_of [a - 48; b - 48; c - 48; d - 48] =? y)%N
  | _ => false
  end.

(** The day [z] days after 1970-01-01 is a date of a year of four digits,
    and the day of that date. *)
Definition calendar_day (z : Z) : bool :=
  let '(y, m, d) := civil_from_days z in
  ((1000 <=? y) && (y <=? 9999) && (1 <=? m) && (m <=? 12) && (1 <=? d)
   && (d <=? Cpython.days_in_month y m)
   && (Cpython.days_from_civil y m d =? z))%Z.

(** A record of a node that was never heard, and a node database with it
    before the records of the sample. *)
Definition unheard : node := NodeMapping [(lit "lastHeard", VInt 0)].

Definition station : interface :=
  {| nodesByNum := Some ((1%Z, unheard) :: Sample.nodes);
     is_true := true;
     close := fun _ => None |}.

(** * Properties *)

(** Two literals of the source differ. *)
Ltac lit_neq :=
  let H := fresh in intro H; vm_compute in H; discriminate H.

(** ** Strings and dictionaries *)

Lemma str_eqb_eq : forall a b, str_eqb a b = true <-> a = b.
Proof.
  induction a as [|x a IH]; destruct b as [|y b]; simpl; split; intro H;
    try reflexivity; try discriminate.
  - apply andb_true_iff in H as [Hx Hr]. apply N.eqb_eq in Hx.
    apply IH in Hr. congruence.
  - injection H as -> ->. rewrite N.eqb_refl. simpl. now apply IH.
Qed.

Lemma str_eqb_refl : forall a, str_eqb a a = true.
Proof. intro a. now apply str_eqb_eq. Qed.

Lemma str_eqb_neq : forall a b, str_eqb a b = false <-> a <> b.
Proof.
  intros a b. split.
  - intros H E. apply str_eqb_eq in E. congruence.
  - intro H. destruct (str_eqb a b) eqn:E; [|reflexivity].
    apply str_eqb_eq in E. contradiction.
Qed.

Lemma length_ljust : forall w s, length (ljust w s) = Nat.max w (length s).
Proof.
  intros w s. unfold ljust. rewrite length_app, repeat_length. lia.
Qed.

Lemma ljust_fits : forall w s, length s <= w -> length (ljust w s) = w.
Proof. intros w s H. rewrite length_ljust. lia. Qed.

Lemma length_join : forall parts, length (join parts) = list_sum (map (@length N) parts).
Proof.
  induction parts as [|p ps IH]; simpl; [reflexivity|].
  unfold join in *. rewrite length_app. now rewrite IH.
Qed.

Section DictFacts.
Variable V : Type.
Implicit Types (d : Dict.t V) (k : str) (v : V).

Lemma get_set_same : forall d k v, Dict.get (Dict.set d k v) k = Some v.
Proof.
  induction d as [|[k' v'] d IH]; intros k v; simpl.
  - now rewrite str_eqb_refl.
  - destruct (str_eqb k' k) eqn:E; simpl; rewrite E; [reflexivity|apply IH].
Qed.

Lemma get_set_other : forall d k k' v,
    k <> k' -> Dict.get (Dict.set d k v) k' = Dict.get d k'.
Proof.
  induction d as [|[k0 v0] d IH]; intros k k' v Hne; simpl.
  - apply str_eqb_neq in Hne. now rewrite Hne.
  - destruct (str_eqb k0 k) eqn:E; simpl.
    + apply str_eqb_eq in E. subst k0.
      apply str_eqb_neq in Hne. now rewrite Hne.
    + destruct (str_eqb k0 k'); [reflexivity|now apply IH].
Qed.

Lemma get_default_some : forall d k v default,
    Dict.get d k = Some v -> Dict.get_default d k default = v.
Proof. intros d k v default H. unfold Dict.get_default. now rewrite H. Qed.
End DictFacts.

(** ** [clean_name] *)

Lemma Forall_lstrip : forall (P : N -> Prop) s, Forall P s -> Forall P (lstrip s).
Proof.
  intros P s H. induction H as [|c s Hc Hs IH]; simpl; [constructor|].
  destruct (is_space c); [assumption|now constructor].
Qed.

Lemma Forall_prefix : forall (P : N -> Prop) n s,
    Forall P s -> Forall P (firstn n s).
Proof.
  intros P n s H. apply Forall_forall. intros c Hc.
  apply (proj1 (Forall_forall P s) H). rewrite <- (firstn_skipn n s).
  apply in_or_app. now left.
Qed.

Lemma Forall_strip : forall (P : N -> Prop) s, Forall P s -> Forall P (strip s).
Proof.
  intros P s H. unfold strip, rstrip.
  apply Forall_rev, Forall_lstrip, Forall_rev, Forall_lstrip, H.
Qed.

Lemma kept_by_pattern_name_char : forall c, kept_by_pattern c = name_char c.
Proof.
  intro c. unfold kept_by_pattern, name_char, ascii_letter, ascii_digit.
  destruct ((97 <=? c) && (c <=? 122))%N, ((65 <=? c) && (c <=? 90))%N,
    ((48 <=? c) && (c <=? 57))%N, (c =? 32)%N, (c =? 95)%N, (c =? 46)%N,
    (c =? 45)%N; reflexivity.
Qed.

Lemma truncate_firstn : forall (s : str),
    (if 35 <? length s then firstn 35 s else s) = firstn 35 s.
Proof.
  intro s. destruct (35 <? length s) eqn:E; [reflexivity|].
  apply Nat.ltb_ge in E. symmetry. now apply firstn_all2.
Qed.

Lemma length_cleanName : forall raw, length (cleanName raw) = 35.
Proof.
  intro raw. unfold cleanName. cbv zeta.
  rewrite length_app, repeat_length.
  pose proof (firstn_le_length 35 (strip (filter name_char raw))). lia.
Qed.

Lemma clean_name_VStr : forall raw : str,
    clean_name (VStr raw) = Ok (cleanName raw).
Proof.
  intro raw. destruct raw as [|c raw]; [reflexivity|].
  unfold clean_name, cleanName. cbn [truthy is_empty negb]. cbv zeta.
  rewrite truncate_firstn.
  rewrite (filter_ext _ _ kept_by_pattern_name_char). reflexivity.
Qed.

Lemma clean_name_length : forall name s, clean_name name = Ok s -> length s = 35.
Proof.
  intros name s H. destruct name as [| | |raw| | | |];
    try (unfold clean_name in H; destruct (negb (truthy _));
         [injection H as <-; reflexivity|discriminate]).
  rewrite clean_name_VStr in H. injection H as <-. apply length_cleanName.
Qed.

(** C4. For every input string, the empty one included, [clean_name] returns
    the string the specification describes (the characters that are no ASCII
    letter, digit, space, underscore, hyphen or period removed, the white
    space at both ends trimmed, the first 35 characters kept, spaces added on
    the right), it has exactly 35 characters, and no other character than
    those is left in it. *)
Theorem clean_name_is_cleanName : forall raw : str,
    clean_name (VStr raw) = Ok (cleanName raw)
    /\ length (cleanName raw) = 35
    /\ Forall (fun c => name_char c = true) (cleanName raw).
Proof.
  intro raw. split; [|split].
  - apply clean_name_VStr.
  - apply length_cleanName.
  - unfold cleanName. cbv zeta. apply Forall_app. split.
    + apply Forall_prefix, Forall_strip.
      apply Forall_forall. intros c Hc. now apply filter_In in Hc.
    + apply Forall_forall. intros c Hc. apply repeat_spec in Hc. now subst c.
Qed.

(** ** Column widths *)

Section Widths.
Context {rt : Runtime}.

Lemma fold_max_list_max : forall l a,
    fold_left Nat.max l a = Nat.max a (list_max l).
Proof.
  induction l as [|x l IH]; intro a; simpl.
  - lia.
  - rewrite IH. lia.
Qed.

Lemma maxlen_list_max : forall rows h,
    maxlen rows h = list_max (map (content_length h) rows).
Proof.
  intros rows h. unfold maxlen. rewrite fold_max_list_max. reflexivity.
Qed.

Lemma content_le_maxlen : forall rows h r,
    In r rows -> content_length h r <= maxlen rows h.
Proof.
  intros rows h r Hin. rewrite maxlen_list_max.
  pose proof (proj1 (list_max_le (map (content_length h) rows) _)
                (Nat.le_refl _)) as Hall.
  apply (proj1 (Forall_forall _ _) Hall). now apply in_map.
Qed.

Lemma col_width_columnWidth : forall rows h,
    col_width rows h = columnWidth rows h.
Proof.
  intros rows h. unfold col_width, columnWidth.
  destruct (list_eq_dec N.eq_dec h (lit "#")) as [->|Hsharp].
  - reflexivity.
  - apply str_eqb_neq in Hsharp. rewrite Hsharp.
    destruct (list_eq_dec N.eq_dec h (lit "name")) as [->|Hname].
    + reflexivity.
    + apply str_eqb_neq in Hname. rewrite Hname.
      rewrite maxlen_list_max. lia.
Qed.

(** After the loop over [headers], [col_widths[h]] is the width computed
    for [h], for every [h] the loop met. *)
Lemma col_widths_fold : forall rows headers cw h,
    In h headers \/ Dict.get cw h = Some (col_width rows h) ->
    Dict.get (fold_left (fun cw h => Dict.set cw h (col_width rows h)) headers cw) h
    = Some (col_width rows h).
Proof.
  induction headers as [|h0 headers IH]; intros cw h H; simpl.
  - destruct H as [[]|H]. exact H.
  - apply IH. destruct (list_eq_dec N.eq_dec h0 h) as [->|Hne].
    + right. apply get_set_same.
    + destruct H as [[Heq|Hin]|Hget].
      * contradiction.
      * now left.
      * right. now rewrite get_set_other.
Qed.

Lemma col_widths_get : forall rows headers h,
    In h headers ->
    Dict.get_default (col_widths rows headers) h 0 = col_width rows h.
Proof.
  intros rows headers h Hin. apply get_default_some.
  apply col_widths_fold. now left.
Qed.

(** C7. For every selected column [h] and all rows, the width stored for
    [h] is max(header length, longest content) + 2, except 5 for the column
    '#' and 35 for the column 'name'; a column 'snr' whose contents are
    '1.23' and '' gets the width 6. *)
Theorem col_widths_columnWidth : forall rows headers h,
    In h headers ->
    Dict.get (col_widths rows headers) h = Some (columnWidth rows h)
    /\ columnWidth [ [(lit "snr", VStr (lit "1.23"))]; [(lit "snr", VStr [])] ]
         (lit "snr") = 6.
Proof.
  intros rows headers h Hin. split.
  - rewrite <- col_width_columnWidth. apply col_widths_fold. now left.
  - reflexivity.
Qed.
End Widths.

Lemma col_widths_columnWidth_witness :
  In (lit "snr") compact_headers
  /\ Dict.get (@col_widths Cpython.utc
                 [ [(lit "snr", VStr (lit "1.23"))]; [(lit "snr", VStr [])] ]
                 compact_headers) (lit "snr") = Some 6.
Proof.
  split.
  - vm_compute. tauto.
  - refine (proj1 (@col_widths_columnWidth Cpython.utc _ compact_headers (lit "snr") _)).
    vm_compute. tauto.
Defined.

(** ** The shape of the output *)

Section Output.
Context {rt : Runtime}.

(** What [print_table] writes when it returns. *)
Lemma print_table_render : forall nodes compact sort_hop out,
    print_table nodes compact sort_hop = Ok out ->
    exists rows,
      mapM normalize_node (map snd nodes) = Ok rows
      /\ out = render rows compact sort_hop.
Proof.
  intros nodes compact sort_hop out H. unfold print_table in H.
  destruct (mapM normalize_node (map snd nodes)) as [rows|e]; [|discriminate].
  cbn [bind] in H. cbv zeta in H.
  destruct (mapM (measure _) _); [|discriminate].
  destruct (mapM (row_strs _) _); [|discriminate].
  cbn [bind] in H. injection H as <-. now exists rows.
Qed.

Lemma measure_no_rows : forall headers,
    exists units, mapM (measure []) headers = Ok units.
Proof.
  induction headers as [|h headers [units IH]]; [now eexists|].
  cbn [mapM]. rewrite IH. unfold measure.
  destruct (_ || _); cbn; now eexists.
Qed.

Lemma mapM_length : forall (A B : Type) (f : A -> result B) l l',
    mapM f l = Ok l' -> length l' = length l.
Proof.
  induction l as [|a l IH]; intros l' H; simpl in H.
  - injection H as <-. reflexivity.
  - destruct (f a) as [b|e]; simpl in H; [|discriminate].
    destruct (mapM f l) as [bs|e]; simpl in H; [|discriminate].
    injection H as <-. simpl. f_equal. now apply IH.
Qed.

Lemma mapM_In : forall (A B : Type) (f : A -> result B) l l' b,
    mapM f l = Ok l' -> In b l' -> exists a, In a l /\ f a = Ok b.
Proof.
  induction l as [|a l IH]; intros l' b H Hin; simpl in H.
  - injection H as <-. destruct Hin.
  - destruct (f a) as [b0|e] eqn:Ea; simpl in H; [|discriminate].
    destruct (mapM f l) as [bs|e]; simpl in H; [|discriminate].
    injection H as <-. destruct Hin as [<-|Hin].
    + exists a. split; [now left|assumption].
    + destruct (IH bs b eq_refl Hin) as [a' [Ha' Hf]].
      exists a'. split; [now right|assumption].
Qed.

Lemma printed_rows_length : forall cw headers rows idx,
    length (printed_rows cw headers idx rows) = length rows.
Proof.
  intros cw headers. induction rows as [|r rows IH]; intro idx; simpl.
  - reflexivity.
  - now rewrite IH.
Qed.

(** The [k]-th line of the loop is the line of the [k]-th row, numbered
    from [idx]. *)
Lemma printed_rows_nth : forall cw headers rows idx k r,
    nth_error rows k = Some r ->
    nth_error (printed_rows cw headers idx rows) k
    = Some (printed_row cw headers (idx + k) r).
Proof.
  intros cw headers. induction rows as [|r0 rows IH]; intros idx k r H.
  - destruct k; discriminate.
  - destruct k as [|k]; simpl in *.
    + injection H as <-. now rewrite Nat.add_0_r.
    + rewrite (IH (S idx) k r H). f_equal. f_equal. lia.
Qed.

Lemma printed_rows_In : forall cw headers rows idx line,
    In line (printed_rows cw headers idx rows) ->
    exists k r, nth_error rows k = Some r
                /\ line = printed_row cw headers (idx + k) r.
Proof.
  intros cw headers. induction rows as [|r0 rows IH]; intros idx line H.
  - destruct H.
  - destruct H as [<-|H].
    + exists 0, r0. split; [reflexivity|]. now rewrite Nat.add_0_r.
    + destruct (IH (S idx) line H) as [k [r [Hk ->]]].
      exists (S k), r. split; [exact Hk|]. f_equal. lia.
Qed.

Lemma insert_sorted_perm : forall (A : Type) (before : A -> A -> bool) x l,
    Permutation (insert_sorted before x l) (x :: l).
Proof.
  intros A before x. induction l as [|y l IH]; simpl.
  - apply Permutation_refl.
  - destruct (before x y).
    + apply Permutation_refl.
    + eapply perm_trans; [apply perm_skip, IH|apply perm_swap].
Qed.

Lemma stable_sort_perm : forall (A : Type) (before : A -> A -> bool) l,
    Permutation (stable_sort before l) l.
Proof.
  intros A before. induction l as [|x l IH]; simpl.
  - apply perm_nil.
  - eapply perm_trans; [apply insert_sorted_perm|now apply perm_skip].
Qed.

Lemma sort_rows_perm : forall sort_hop rows,
    Permutation (sort_rows sort_hop rows) rows.
Proof.
  intros [|] rows; unfold sort_rows; apply stable_sort_perm.
Qed.

Lemma sort_rows_length : forall sort_hop rows,
    length (sort_rows sort_hop rows) = length rows.
Proof. intros. apply Permutation_length, sort_rows_perm. Qed.

(** Amended C2. For every snapshot and every combination of the two flags,
    whenever [print_table] returns it has written an empty line, then the
    header line, then a line of '=' as long as the header line, then one
    line per row, and nothing else; on the empty snapshot it returns, and
    has written the first three of these lines. *)
Theorem print_table_lines : forall nodes compact sort_hop,
    (forall out,
        print_table nodes compact sort_hop = Ok out ->
        exists rows headers cw lines,
          mapM normalize_node (map snd nodes) = Ok rows
          /\ out = [] :: header_line cw headers
                     :: repeat 61%N (length (header_line cw headers))
                     :: lines
          /\ headers = select_headers compact rows
          /\ cw = col_widths (sort_rows sort_hop rows) headers
          /\ lines = printed_rows cw headers 1 (sort_rows sort_hop rows)
          /\ length lines = length nodes)
    /\ (nodes = [] ->
        exists header,
          print_table nodes compact sort_hop
          = Ok [[]; header; repeat 61%N (length header)]).
Proof.
  intros nodes compact sort_hop. split.
  - intros out H. destruct (print_table_render _ _ _ H) as [rows [Hrows ->]].
    exists rows, (select_headers compact rows),
      (col_widths (sort_rows sort_hop rows) (select_headers compact rows)),
      (printed_rows (col_widths (sort_rows sort_hop rows) (select_headers compact rows))
         (select_headers compact rows) 1 (sort_rows sort_hop rows)).
    repeat split; [exact Hrows|].
    rewrite printed_rows_length, sort_rows_length.
    rewrite (mapM_length _ _ Hrows). apply length_map.
  - intros ->. unfold print_table. cbn [map mapM bind]. cbv zeta.
    replace (sort_rows sort_hop []) with (@nil pydict) by (now destruct sort_hop).
    destruct (measure_no_rows (select_headers compact [])) as [units ->].
    cbn [mapM bind]. eexists. unfold render. cbv zeta.
    replace (sort_rows sort_hop []) with (@nil pydict) by (now destruct sort_hop).
    reflexivity.
Qed.
End Output.


(** ** Highlighting *)

Section Highlight.
Context {rt : Runtime}.

Lemma highlighted_direct_with_snr : forall r,
    highlighted r = true <-> direct_with_snr r.
Proof.
  intro r. unfold highlighted, direct_with_snr, Dict.get_default.
  rewrite andb_true_iff, str_eqb_eq.
  destruct (Dict.get r (lit "snr")) as [[| | |[|c s]| | | |]|]; simpl;
    intuition (congruence || discriminate).
Qed.

Lemma wrapped_neq : forall line : str,
    sgr_green_white ++ line ++ sgr_reset <> line.
Proof.
  intros line H. apply (f_equal (@length N)) in H.
  rewrite !length_app in H. simpl in H. lia.
Qed.

(** C8. The line printed for the [k]-th row [r] of the table is the
    rendered line between the prefix ESC[42m ESC[97m and the suffix ESC[0m
    if and only if [str] of the row's hopsAway (["0"] when absent) is ["0"]
    and the row has an snr that is not the empty string; otherwise it is the
    rendered line itself, so a row whose hopsAway is ["1"], or any string
    other than ["0"], is printed unstyled whatever its snr. *)
Theorem highlight_iff_direct_with_snr : forall rows compact sort_hop k r,
    nth_error (sort_rows sort_hop rows) k = Some r ->
    exists line,
      line = row_line (col_widths (sort_rows sort_hop rows) (select_headers compact rows))
               (select_headers compact rows) (S k) r
      /\ (nth_error (render rows compact sort_hop) (3 + k)
          = Some (sgr_green_white ++ line ++ sgr_reset) <-> direct_with_snr r)
      /\ (nth_error (render rows compact sort_hop) (3 + k) = Some line
          <-> ~ direct_with_snr r)
      /\ (forall hops, Dict.get r (lit "hopsAway") = Some hops ->
                       py_str hops <> lit "0" ->
                       nth_error (render rows compact sort_hop) (3 + k) = Some line).
Proof.
  intros rows compact sort_hop k r Hk.
  eexists. split; [reflexivity|].
  unfold render. cbn [nth_error Nat.add].
  rewrite (printed_rows_nth _ _ _ 1 _ Hk). cbn [Nat.add].
  unfold printed_row.
  pose proof (highlighted_direct_with_snr r) as Hiff.
  destruct (highlighted r).
  - assert (Hd : direct_with_snr r) by now apply Hiff.
    split; [tauto|]. split; [split|].
    + intro H. injection H as H. now apply wrapped_neq in H.
    + intro H. contradiction.
    + intros hops Hget Hne. exfalso. destruct Hd as [Hd _].
      rewrite Hget in Hd. contradiction.
  - assert (Hd : ~ direct_with_snr r).
    { intro H. apply Hiff in H. discriminate. }
    split; [split|].
    + intro H. injection H as H. symmetry in H. now apply wrapped_neq in H.
    + intro H. contradiction.
    + split; [tauto|]. reflexivity.
Qed.
End Highlight.

(** ** Sorting *)

Section SortFacts.
Variable A : Type.
Variable before : A -> A -> bool.
Hypothesis before_total : forall a b, before a b = false -> before b a = true.
Hypothesis before_trans :
  forall a b c, before a b = true -> before b c = true -> before a c = true.

Local Abbreviation R := (fun a b : A => before a b = true).

Lemma insert_sorted_sorted : forall x l,
    StronglySorted R l -> StronglySorted R (insert_sorted before x l).
Proof.
  intros x l Hs. induction Hs as [|y l Hs IH Hy]; simpl.
  - constructor; constructor.
  - destruct (before x y) eqn:E.
    + constructor; [now constructor|].
      constructor; [exact E|].
      eapply Forall_impl; [|exact Hy]. intros z Hz. now apply before_trans with y.
    + constructor; [exact IH|].
      apply (Permutation_Forall (Permutation_sym (insert_sorted_perm before x l))).
      constructor; [now apply before_total|exact Hy].
Qed.

Lemma stable_sort_sorted : forall l, StronglySorted R (stable_sort before l).
Proof.
  induction l as [|x l IH]; simpl.
  - constructor.
  - now apply insert_sorted_sorted.
Qed.
End SortFacts.

Lemma StronglySorted_nth : forall (A : Type) (R : A -> A -> Prop) l i j a b,
    StronglySorted R l -> i < j ->
    nth_error l i = Some a -> nth_error l j = Some b -> R a b.
Proof.
  intros A R l i j a b Hs. revert i j. induction Hs as [|x l Hs IH Hx];
    intros i j Hij Ha Hb.
  - destruct i; discriminate.
  - destruct j as [|j]; [lia|]. simpl in Hb. destruct i as [|i]; simpl in Ha.
    + injection Ha as <-. apply (proj1 (Forall_forall _ _) Hx).
      eapply nth_error_In, Hb.
    + apply (IH i j); [lia|assumption|assumption].
Qed.

Lemma StronglySorted_weaken : forall (A : Type) (R R' : A -> A -> Prop) l,
    (forall a b, R a b -> R' a b) -> StronglySorted R l -> StronglySorted R' l.
Proof.
  intros A R R' l Himp Hs. induction Hs as [|x l Hs IH Hx]; constructor.
  - exact IH.
  - eapply Forall_impl; [|exact Hx]. intros b Hb. now apply Himp.
Qed.

Lemma lstrip_nil_blank : forall s, lstrip s = [] -> forallb is_space s = true.
Proof.
  induction s as [|c s IH]; simpl; intro H; [reflexivity|].
  destruct (is_space c); [now apply IH|discriminate].
Qed.

Lemma blank_lstrip_nil : forall s, forallb is_space s = true -> lstrip s = [].
Proof.
  induction s as [|c s IH]; simpl; intro H; [reflexivity|].
  destruct (is_space c); [now apply IH|discriminate].
Qed.

Lemma lstrip_head : forall s c t, lstrip s = c :: t -> is_space c = false.
Proof.
  induction s as [|c0 s IH]; simpl; intros c t H; [discriminate|].
  destruct (is_space c0) eqn:E; [now apply IH with t|].
  now injection H as <- <-.
Qed.

Lemma strip_blank : forall s, is_empty (strip s) = forallb is_space s.
Proof.
  intro s. unfold strip, rstrip.
  destruct (forallb is_space s) eqn:E.
  - now rewrite (blank_lstrip_nil _ E).
  - destruct (lstrip s) as [|c t] eqn:El.
    + apply lstrip_nil_blank in El. congruence.
    + apply lstrip_head in El.
      destruct (lstrip (rev (c :: t))) as [|c' t'] eqn:Er.
      * apply lstrip_nil_blank in Er. rewrite forallb_forall in Er.
        rewrite (Er c) in El; [discriminate|]. apply -> in_rev. now left.
      * destruct (rev (c' :: t')) eqn:Erev; [|reflexivity].
        apply (f_equal (@length N)) in Erev. rewrite length_rev in Erev.
        discriminate.
Qed.

Section RowOrder.
Context {rt : Runtime}.

Lemma ts_key_recencyKey : forall r, ts_key r = recencyKey r.
Proof.
  intro r. unfold ts_key, recencyKey, Dict.get_default.
  destruct (Dict.get r (lit "lastHeard_human")) as [[| | |val| | | |]|];
    try reflexivity.
  rewrite strip_blank.
  destruct (list_eq_dec N.eq_dec val (lit "-")) as [->|Hne]; [reflexivity|].
  apply str_eqb_neq in Hne. rewrite Hne. reflexivity.
Qed.

Lemma hop_key_hopKey : forall r, hop_key r = hopKey r.
Proof.
  intro r. unfold hop_key, hopKey, Dict.get_default.
  destruct (Dict.get r (lit "hopsAway")); reflexivity.
Qed.

Lemma render_rows : forall rows compact sort_hop,
    exists headers cw,
      render rows compact sort_hop
      = [] :: header_line cw headers
           :: repeat 61%N (length (header_line cw headers))
           :: printed_rows cw headers 1 (sort_rows sort_hop rows).
Proof. intros. eexists. eexists. reflexivity. Qed.

(** Amended C5. Without sort-by-hop, the rows are printed in an order (a
    rearrangement of the normalised rows) in which the key never increases
    from one line to the next, the key being the timestamp read from
    lastHeard_human in the format HH:MM:SS DD/MM/YYYY, and zero when
    lastHeard_human is '-', blank, absent, no string or not in that format:
    such a row stands after every row whose timestamp is positive, and
    before every row whose timestamp is negative, a time before 1970. *)
Theorem rows_by_recency : forall rows compact,
    Permutation (sort_rows false rows) rows
    /\ StronglySorted (fun a b => (recencyKey b <= recencyKey a)%Z)
         (sort_rows false rows)
    /\ (exists headers cw,
           render rows compact false
           = [] :: header_line cw headers
                :: repeat 61%N (length (header_line cw headers))
                :: printed_rows cw headers 1 (sort_rows false rows))
    /\ (forall i j a b,
           nth_error (sort_rows false rows) i = Some a ->
           nth_error (sort_rows false rows) j = Some b ->
           recencyKey a = 0%Z ->
           ((0 < recencyKey b)%Z -> j < i) /\ ((recencyKey b < 0)%Z -> i < j)).
Proof.
  intros rows compact.
  assert (Hs : StronglySorted (fun a b => (recencyKey b <= recencyKey a)%Z)
                 (sort_rows false rows)).
  { unfold sort_rows.
    eapply StronglySorted_weaken;
      [|apply (@stable_sort_sorted _ (fun a b => (ts_key b <=? ts_key a)%Z))].
    - intros a b H. cbv beta in H. apply Z.leb_le in H.
      now rewrite <- !ts_key_recencyKey.
    - intros a b H. apply Z.leb_gt in H. apply Z.leb_le. lia.
    - intros a b c H1 H2. apply Z.leb_le in H1, H2. apply Z.leb_le. lia. }
  split; [apply sort_rows_perm|]. split; [exact Hs|].
  split; [apply render_rows|].
  intros i j a b Ha Hb Hza. split; intro Hb0.
  - destruct (Nat.lt_trichotomy i j) as [Hij|[->|Hji]]; [| |exact Hji].
    + pose proof (StronglySorted_nth Hs Hij Ha Hb) as H. cbv beta in H. lia.
    + rewrite Ha in Hb. injection Hb as <-. lia.
  - destruct (Nat.lt_trichotomy i j) as [Hij|[->|Hji]]; [exact Hij| |].
    + rewrite Ha in Hb. injection Hb as <-. lia.
    + pose proof (StronglySorted_nth Hs Hji Hb Ha) as H. cbv beta in H. lia.
Qed.

(** C6. With sort-by-hop, the rows are printed in an order (a rearrangement
    of the normalised rows) in which the key never decreases from one line
    to the next, the key being [int] of the row's hopsAway, and zero when
    hopsAway is absent or [int] fails on it. *)
Theorem rows_by_hop : forall rows compact,
    Permutation (sort_rows true rows) rows
    /\ StronglySorted (fun a b => (hopKey a <= hopKey b)%Z) (sort_rows true rows)
    /\ (exists headers cw,
           render rows compact true
           = [] :: header_line cw headers
                :: repeat 61%N (length (header_line cw headers))
                :: printed_rows cw headers 1 (sort_rows true rows)).
Proof.
  intros rows compact.
  split; [apply sort_rows_perm|]. split; [|apply render_rows].
  unfold sort_rows.
  eapply StronglySorted_weaken;
    [|apply (@stable_sort_sorted _ (fun a b => (hop_key a <=? hop_key b)%Z))].
  - intros a b H. cbv beta in H. apply Z.leb_le in H.
    now rewrite <- !hop_key_hopKey.
  - intros a b H. apply Z.leb_gt in H. apply Z.leb_le. lia.
  - intros a b c H1 H2. apply Z.leb_le in H1, H2. apply Z.leb_le. lia.
Qed.
End RowOrder.

(** ** Line lengths *)

Lemma digits_from_length : forall fuel n acc k,
    (n < 10 ^ N.of_nat (S k))%N ->
    length (digits_from fuel n acc) <= length acc + S k.
Proof.
  induction fuel as [|fuel IH]; intros n acc k Hn; simpl.
  - lia.
  - destruct (n <? 10)%N eqn:E; simpl; [lia|].
    apply N.ltb_ge in E.
    destruct k as [|k].
    + change (10 ^ N.of_nat 1)%N with 10%N in Hn. lia.
    + assert (Hd : (n / 10 < 10 ^ N.of_nat (S k))%N).
      { apply N.Div0.div_lt_upper_bound.
        rewrite <- N.pow_succ_r', <- Nat2N.inj_succ. exact Hn. }
      specialize (IH (n / 10)%N ((48 + n mod 10)%N :: acc) k Hd).
      simpl in IH. lia.
Qed.

Lemma zfill_length : forall w n, length (zfill w n) = Nat.max w (length (str_of_N n)).
Proof.
  intros w n. unfold zfill. cbv zeta. rewrite length_app, repeat_length. lia.
Qed.

Lemma index_cell_length : forall idx,
    (N.of_nat idx < 100000)%N -> length (ljust 5 (zfill 3 (N.of_nat idx))) = 5.
Proof.
  intros idx H. apply ljust_fits. rewrite zfill_length.
  assert (Hd : length (str_of_N (N.of_nat idx)) <= 0 + 5).
  { unfold str_of_N. apply digits_from_length.
    change (10 ^ N.of_nat 5)%N with 100000%N. exact H. }
  lia.
Qed.

Section LineLength.
Context {rt : Runtime}.

Lemma with_name_has_name : forall d flat flat',
    with_name d flat = Ok flat' -> has_name flat'.
Proof.
  intros d flat flat' H. unfold with_name in H.
  destruct (Dict.get d (lit "user")) as [u|].
  - match type of H with (bind (clean_name ?x) _ = _) =>
      destruct (clean_name x) as [s|e] eqn:E end; simpl in H; [|discriminate].
    injection H as <-. exists s. split; [apply get_set_same|].
    now apply clean_name_length in E.
  - injection H as <-. eexists. split; [apply get_set_same|reflexivity].
Qed.

Lemma with_viaHop_name : forall flat,
    Dict.get (with_viaHop flat) (lit "name") = Dict.get flat (lit "name").
Proof. intro flat. unfold with_viaHop. apply get_set_other. lit_neq. Qed.

Lemma with_snr_name : forall flat,
    Dict.get (with_snr flat) (lit "name") = Dict.get flat (lit "name").
Proof.
  intro flat. unfold with_snr. destruct (Dict.get flat (lit "snr")).
  - apply get_set_other. lit_neq.
  - reflexivity.
Qed.

Lemma normalize_node_has_name : forall n r,
    normalize_node n = Ok r -> has_name r.
Proof.
  intros n r H. unfold normalize_node in H. cbv zeta in H.
  destruct (flatten_dict _ _ _) as [flat|e]; simpl in H; [|discriminate].
  destruct (with_lastHeard _ flat) as [flat1|e]; simpl in H; [|discriminate].
  destruct (with_name _ flat1) as [flat2|e] eqn:E; simpl in H; [|discriminate].
  injection H as <-. apply with_name_has_name in E. destruct E as [s [Hs Hl]].
  exists s. split; [|exact Hl].
  now rewrite with_snr_name, with_viaHop_name.
Qed.

Lemma header_fits : forall rows h, length h <= col_width rows h.
Proof.
  intros rows h. unfold col_width.
  destruct (str_eqb h (lit "#")) eqn:E1.
  - apply str_eqb_eq in E1. subst h. vm_compute. lia.
  - destruct (str_eqb h (lit "name")) eqn:E2.
    + apply str_eqb_eq in E2. subst h. vm_compute. lia.
    + lia.
Qed.

Lemma cell_length : forall rows headers idx r h,
    In h headers -> In r rows -> (N.of_nat idx < 100000)%N -> has_name r ->
    length (cell (col_widths rows headers) idx r h) = col_width rows h.
Proof.
  intros rows headers idx r h Hh Hr Hidx [s [Hs Hl]].
  unfold cell. cbv zeta. rewrite (col_widths_get _ _ _ Hh).
  pose proof (content_le_maxlen rows h r Hr) as Hc. unfold content_length in Hc.
  unfold col_width in *.
  destruct (str_eqb h (lit "#")) eqn:E1.
  - now apply index_cell_length.
  - destruct (str_eqb h (lit "name")) eqn:E2.
    + apply str_eqb_eq in E2. subst h.
      replace (str_eqb (lit "name") (lit "snr")) with false by reflexivity.
      cbn [andb]. rewrite (get_default_some _ _ _ Hs). cbn [py_str].
      apply ljust_fits. lia.
    + destruct (str_eqb h (lit "snr") && _).
      * apply ljust_fits. rewrite length_app. simpl. lia.
      * apply ljust_fits. lia.
Qed.

Lemma header_line_length : forall rows headers,
    length (header_line (col_widths rows headers) headers)
    = list_sum (map (col_width rows) headers).
Proof.
  intros rows headers. unfold header_line. rewrite length_join, map_map.
  f_equal. apply map_ext_in. intros h Hh.
  rewrite (col_widths_get _ _ _ Hh). apply ljust_fits, header_fits.
Qed.

Lemma row_line_length : forall rows headers idx r,
    In r rows -> (N.of_nat idx < 100000)%N -> has_name r ->
    length (row_line (col_widths rows headers) headers idx r)
    = list_sum (map (col_width rows) headers).
Proof.
  intros rows headers idx r Hr Hidx Hn. unfold row_line.
  rewrite length_join, map_map. f_equal. apply map_ext_in. intros h Hh.
  now apply cell_length.
Qed.

(** C10. For every snapshot of fewer than 100000 records that
    [print_table] prints, every line of a row is, between the escape
    sequences when the row is highlighted, exactly as long as the header
    line, whose length is the sum of the widths of the columns: no cell is
    longer than its column. *)
Theorem row_lines_as_long_as_header : forall nodes compact sort_hop out,
    (N.of_nat (length nodes) < 100000)%N ->
    print_table nodes compact sort_hop = Ok out ->
    exists rows headers hl lines,
      out = [] :: hl :: repeat 61%N (length hl) :: lines
      /\ length lines = length nodes
      /\ length hl = list_sum (map (columnWidth rows) headers)
      /\ Forall (fun line =>
                   exists body,
                     (line = body \/ line = sgr_green_white ++ body ++ sgr_reset)
                     /\ length body = length hl) lines.
Proof.
  intros nodes compact sort_hop out Hn Hp.
  destruct (print_table_render _ _ _ Hp) as [rows [Hm ->]].
  pose proof (mapM_length _ _ Hm) as Hlen. rewrite length_map in Hlen.
  set (shown := sort_rows sort_hop rows).
  set (headers := select_headers compact rows).
  exists shown, headers, (header_line (col_widths shown headers) headers),
    (printed_rows (col_widths shown headers) headers 1 shown).
  split; [reflexivity|].
  split; [unfold shown; now rewrite printed_rows_length, sort_rows_length|].
  split.
  { rewrite header_line_length. f_equal. apply map_ext. intro h.
    apply col_width_columnWidth. }
  apply Forall_forall. intros line Hline.
  apply printed_rows_In in Hline. destruct Hline as [k [r [Hk ->]]].
  assert (Hin : In r shown) by (eapply nth_error_In, Hk).
  assert (Hlt : k < length shown) by (apply nth_error_Some; congruence).
  unfold shown in Hlt. rewrite sort_rows_length in Hlt.
  assert (Hname : has_name r).
  { apply (Permutation_in _ (sort_rows_perm sort_hop rows)) in Hin.
    destruct (mapM_In _ _ _ Hm Hin) as [n [_ Hnr]].
    now apply normalize_node_has_name with n. }
  exists (row_line (col_widths shown headers) headers (1 + k) r). split.
  - unfold printed_row. destruct (highlighted r); [now right|now left].
  - rewrite header_line_length. apply row_line_length; [exact Hin|lia|exact Hname].
Qed.
End LineLength.

(** ** Determinism *)

Section SortedUnique.
Variable A : Type.
Variable R : A -> A -> Prop.
Hypothesis R_antisym : forall a b, R a b -> R b a -> a = b.

Lemma sorted_perm_unique : forall l1 l2,
    StronglySorted R l1 -> StronglySorted R l2 -> Permutation l1 l2 -> l1 = l2.
Proof.
  induction l1 as [|a l1 IH]; intros l2 H1 H2 Hp.
  - apply Permutation_nil in Hp. now subst.
  - destruct l2 as [|b l2].
    + apply Permutation_sym, Permutation_nil in Hp. discriminate.
    + apply StronglySorted_inv in H1 as [H1 Ha].
      apply StronglySorted_inv in H2 as [H2 Hb].
      assert (Hab : a = b).
      { assert (Hin1 : In a (b :: l2))
          by (apply (Permutation_in _ Hp); now left).
        assert (Hin2 : In b (a :: l1))
          by (apply (Permutation_in _ (Permutation_sym Hp)); now left).
        destruct Hin1 as [Hin1|Hin1]; [now symmetry|].
        destruct Hin2 as [Hin2|Hin2]; [assumption|].
        apply R_antisym.
        - apply (proj1 (Forall_forall _ _) Ha _ Hin2).
        - apply (proj1 (Forall_forall _ _) Hb _ Hin1). }
      subst b. f_equal. apply IH; [assumption|assumption|].
      now apply Permutation_cons_inv with a.
Qed.
End SortedUnique.

Lemma str_leb_total : forall a b, str_leb a b = false -> str_leb b a = true.
Proof.
  induction a as [|x a IH]; destruct b as [|y b]; simpl; intro H;
    try reflexivity; try discriminate.
  destruct (N.ltb_spec x y); [discriminate|].
  destruct (N.eqb_spec x y) as [->|Hne]; simpl in H.
  - rewrite N.ltb_irrefl, N.eqb_refl. simpl. now apply IH.
  - destruct (N.ltb_spec y x); [reflexivity|lia].
Qed.

Lemma str_leb_trans : forall a b c,
    str_leb a b = true -> str_leb b c = true -> str_leb a c = true.
Proof.
  induction a as [|x a IH]; destruct b as [|y b]; destruct c as [|z c]; simpl;
    intros H1 H2; try reflexivity; try discriminate.
  destruct (N.ltb_spec x y); destruct (N.ltb_spec y z); simpl in *.
  - destruct (N.ltb_spec x z); [reflexivity|lia].
  - destruct (N.eqb_spec y z) as [->|]; [|discriminate].
    destruct (N.ltb_spec x z); [reflexivity|lia].
  - destruct (N.eqb_spec x y) as [->|]; [|discriminate].
    destruct (N.ltb_spec y z); [reflexivity|lia].
  - destruct (N.eqb_spec x y) as [->|]; [|discriminate].
    destruct (N.eqb_spec y z) as [->|]; [|discriminate].
    rewrite ?N.ltb_irrefl, ?N.eqb_refl. simpl in *. now apply IH with b.
Qed.

Lemma str_leb_antisym : forall a b,
    str_leb a b = true -> str_leb b a = true -> a = b.
Proof.
  induction a as [|x a IH]; destruct b as [|y b]; simpl; intros H1 H2;
    try reflexivity; try discriminate.
  destruct (N.eqb_spec x y) as [->|Hne].
  - rewrite N.ltb_irrefl, N.eqb_refl in *. simpl in *. f_equal. now apply IH.
  - destruct (N.eqb_spec y x) as [->|_]; [contradiction|].
    rewrite andb_false_l, orb_false_r in *.
    apply N.ltb_lt in H1, H2. lia.
Qed.

(** [sorted] does not depend on the order in which the set is iterated. *)
Lemma sorted_perm : forall l1 l2, Permutation l1 l2 -> sorted l1 = sorted l2.
Proof.
  intros l1 l2 Hp. unfold sorted.
  apply sorted_perm_unique with (R := fun a b => str_leb a b = true).
  - apply str_leb_antisym.
  - apply stable_sort_sorted; [apply str_leb_total|apply str_leb_trans].
  - apply stable_sort_sorted; [apply str_leb_total|apply str_leb_trans].
  - eapply perm_trans; [apply stable_sort_perm|].
    eapply perm_trans; [exact Hp|]. apply Permutation_sym, stable_sort_perm.
Qed.

(** C9. Two runs of [print_table] on one snapshot with the same flags, in one
    configuration (the same clock and library; the order in which the sets of
    each run are iterated is free), write the same lines, or raise the same
    exception. *)
Theorem print_table_deterministic :
  forall (rt1 rt2 : Runtime) nodes compact sort_hop,
    same_configuration rt1 rt2 ->
    @print_table rt1 nodes compact sort_hop = @print_table rt2 nodes compact sort_hop.
Proof.
  intros [u1 i1 f1 s1 r1 y1 o1 p1] [u2 i2 f2 s2 r2 y2 o2 p2] nodes compact sort_hop H.
  unfold same_configuration in H. simpl in H.
  destruct H as [-> [-> [-> [-> [-> ->]]]]].
  unfold print_table.
  change (@normalize_node (Build_Runtime u2 i2 f2 s2 r2 y2 o1 p1))
    with (@normalize_node (Build_Runtime u2 i2 f2 s2 r2 y2 o2 p2)).
  destruct (mapM _ (map snd nodes)) as [rows|e]; cbn [bind]; [|reflexivity].
  cbv zeta. unfold render.
  assert (Hh : @select_headers (Build_Runtime u2 i2 f2 s2 r2 y2 o1 p1) compact rows
               = @select_headers (Build_Runtime u2 i2 f2 s2 r2 y2 o2 p2) compact rows).
  { unfold select_headers. destruct compact; [reflexivity|]. f_equal.
    apply sorted_perm. simpl.
    eapply perm_trans; [apply p1|apply Permutation_sym, p2]. }
  rewrite Hh. reflexivity.
Qed.

(** ** [lastHeard_human] *)

Lemma printable_nonspace : forall c, (33 <= c <= 126)%N -> nonspace c.
Proof.
  intros c H. unfold nonspace, is_space.
  replace (c <=? 13)%N with false by (symmetry; apply N.leb_gt; lia).
  replace (c <=? 32)%N with false by (symmetry; apply N.leb_gt; lia).
  replace (c =? 133)%N with false by (symmetry; apply N.eqb_neq; lia).
  replace (c =? 160)%N with false by (symmetry; apply N.eqb_neq; lia).
  replace (c =? 5760)%N with false by (symmetry; apply N.eqb_neq; lia).
  replace (8192 <=? c)%N with false by (symmetry; apply N.leb_gt; lia).
  replace (c =? 8232)%N with false by (symmetry; apply N.eqb_neq; lia).
  replace (c =? 8233)%N with false by (symmetry; apply N.eqb_neq; lia).
  replace (c =? 8239)%N with false by (symmetry; apply N.eqb_neq; lia).
  replace (c =? 8287)%N with false by (symmetry; apply N.eqb_neq; lia).
  replace (c =? 12288)%N with false by (symmetry; apply N.eqb_neq; lia).
  now rewrite !andb_false_r.
Qed.

Lemma digits_from_nonspace : forall fuel n acc,
    Forall nonspace acc -> Forall nonspace (digits_from fuel n acc).
Proof.
  induction fuel as [|fuel IH]; intros n acc H; simpl; [exact H|].
  assert (Hd : Forall nonspace ((48 + n mod 10)%N :: acc)).
  { constructor; [|exact H]. apply printable_nonspace.
    assert (Hm : (n mod 10 < 10)%N) by (apply N.mod_upper_bound; discriminate).
    generalize dependent (n mod 10)%N. intros d Hm. lia. }
  destruct (n <? 10)%N; [exact Hd|now apply IH].
Qed.

Lemma zfill_nonspace : forall w n, Forall nonspace (zfill w n).
Proof.
  intros w n. unfold zfill. cbv zeta. apply Forall_app. split.
  - apply Forall_forall. intros c Hc. apply repeat_spec in Hc. subst c.
    apply printable_nonspace. lia.
  - apply digits_from_nonspace. constructor.
Qed.

Lemma literal_nonspace : forall s : str,
    forallb (fun c => negb (is_space c)) s = true -> Forall nonspace s.
Proof.
  intros s H. apply Forall_forall. intros c Hc.
  rewrite forallb_forall in H. specialize (H c Hc).
  unfold nonspace. now destruct (is_space c).
Qed.

Lemma digits_from_grows : forall fuel n acc,
    length acc <= length (digits_from fuel n acc).
Proof.
  induction fuel as [|fuel IH]; intros n acc; simpl; [lia|].
  destruct (n <? 10)%N; simpl; [lia|].
  specialize (IH (n / 10)%N ((48 + n mod 10)%N :: acc)). simpl in IH. lia.
Qed.

Lemma digits_from_length_ge : forall k fuel n acc,
    k < fuel -> (10 ^ N.of_nat k <= n)%N ->
    length acc + S k <= length (digits_from fuel n acc).
Proof.
  induction k as [|k IH]; intros fuel n acc Hf Hn;
    (destruct fuel as [|fuel]; [lia|]); simpl.
  - destruct (n <? 10)%N; simpl; [lia|].
    pose proof (digits_from_grows fuel (n / 10)%N ((48 + n mod 10)%N :: acc)) as H.
    simpl in H. lia.
  - rewrite Nat2N.inj_succ, N.pow_succ_r' in Hn.
    assert (Hp : (1 <= 10 ^ N.of_nat k)%N).
    { change 1%N with (10 ^ 0)%N. apply N.pow_le_mono_r; lia. }
    destruct (n <? 10)%N eqn:E; [apply N.ltb_lt in E; lia|].
    assert (Hd : (10 ^ N.of_nat k <= n / 10)%N).
    { apply N.div_le_lower_bound; [discriminate|exact Hn]. }
    specialize (IH fuel (n / 10)%N ((48 + n mod 10)%N :: acc) ltac:(lia) Hd).
    simpl in IH. lia.
Qed.

(** From the year 1000 on, padding the year to four digits changes nothing. *)
Lemma zfill_four_digits : forall y,
    (1000 <= y)%Z -> zfill 4 (Z.to_N y) = zfill 1 (Z.to_N y).
Proof.
  intros y Hy. unfold zfill. cbv zeta.
  assert (Hn : (1000 <= Z.to_N y)%N) by lia.
  assert (Hl : 0 + 4 <= length (str_of_N (Z.to_N y))).
  { unfold str_of_N.
    apply (@digits_from_length_ge 3 _ (Z.to_N y) []).
    - pose proof (N.log2_le_mono _ _ Hn) as Hlog.
      change (N.log2 1000) with 9%N in Hlog. lia.
    - exact Hn. }
  replace (4 - length (str_of_N (Z.to_N y))) with 0 by lia.
  replace (1 - length (str_of_N (Z.to_N y))) with 0 by lia.
  reflexivity.
Qed.

Lemma fmt_date_nonspace : forall (rt : Runtime) dt, Forall nonspace (fmt_date dt).
Proof.
  intros rt dt. unfold fmt_date.
  apply Forall_app; split; [apply zfill_nonspace|].
  apply Forall_app; split; [apply literal_nonspace; reflexivity|].
  apply Forall_app; split; [apply zfill_nonspace|].
  apply Forall_app; split; [apply literal_nonspace; reflexivity|].
  apply zfill_nonspace.
Qed.

Lemma fmt_time_nonspace : forall dt, Forall nonspace (fmt_time dt).
Proof.
  intro dt. unfold fmt_time.
  apply Forall_app; split; [apply zfill_nonspace|].
  apply Forall_app; split; [apply literal_nonspace; reflexivity|].
  apply Forall_app; split; [apply zfill_nonspace|].
  apply Forall_app; split; [apply literal_nonspace; reflexivity|].
  apply zfill_nonspace.
Qed.

Lemma split_from_word : forall w cur rest,
    Forall nonspace w ->
    split_from cur (w ++ rest) = split_from (rev w ++ cur) rest.
Proof.
  induction w as [|c w IH]; intros cur rest H; simpl; [reflexivity|].
  inversion H as [|c' w' Hc Hw]; subst. unfold nonspace in Hc. rewrite Hc.
  rewrite IH by assumption. now rewrite <- app_assoc.
Qed.

(** A date and a time with a space between them are two words. *)
Lemma split_two_words : forall a b,
    Forall nonspace a -> Forall nonspace b -> a <> [] -> b <> [] ->
    split (a ++ lit " " ++ b) = [a; b].
Proof.
  intros a b Ha Hb Hna Hnb. unfold split.
  rewrite split_from_word by assumption. rewrite app_nil_r.
  change (lit " " ++ b) with (32%N :: b). cbn [split_from].
  replace (is_space 32) with true by reflexivity.
  destruct (rev a) as [|x ra] eqn:Era.
  - apply (f_equal (@rev N)) in Era. rewrite rev_involutive in Era. contradiction.
  - cbn [is_empty]. rewrite <- Era, rev_involutive. f_equal.
    rewrite <- (app_nil_r b) at 1. rewrite split_from_word by assumption.
    rewrite app_nil_r. cbn [split_from].
    destruct (rev b) as [|y rb] eqn:Erb.
    + apply (f_equal (@rev N)) in Erb. rewrite rev_involutive in Erb. contradiction.
    + cbn [is_empty]. now rewrite <- Erb, rev_involutive.
Qed.

Lemma fmt_date_nonempty : forall (rt : Runtime) dt, fmt_date dt <> [].
Proof.
  intros rt dt H. apply (f_equal (@length N)) in H. unfold fmt_date in H.
  rewrite !length_app in H. simpl in H. lia.
Qed.

Lemma fmt_time_nonempty : forall dt, fmt_time dt <> [].
Proof.
  intros dt H. apply (f_equal (@length N)) in H. unfold fmt_time in H.
  rewrite !length_app in H. simpl in H. lia.
Qed.

Section LastHeard.
Context {rt : Runtime}.

Lemma human_time_rendered : forall ts dt,
    is_none ts = false -> eq_zero ts = false -> fromtimestamp ts = Some dt ->
    human_time ts = Ok (fmt_date dt ++ lit " " ++ fmt_time dt).
Proof.
  intros ts dt Hn Hz Hf. unfold human_time. now rewrite Hn, Hz, Hf.
Qed.

Lemma with_lastHeard_rendered : forall d flat ts dt,
    Dict.get d (lit "lastHeard") = Some ts ->
    is_none ts = false -> eq_zero ts = false -> fromtimestamp ts = Some dt ->
    exists flat',
      with_lastHeard d flat = Ok flat'
      /\ Dict.get flat' (lit "lastHeard_human")
         = Some (VStr (fmt_time dt ++ lit " " ++ fmt_date dt)).
Proof.
  intros d flat ts dt Hget Hn Hz Hf. unfold with_lastHeard, Dict.mem.
  rewrite Hget. cbv zeta. rewrite (get_default_some _ _ _ Hget).
  rewrite (human_time_rendered _ Hn Hz Hf). cbn [bind].
  rewrite split_two_words
    by (auto using fmt_date_nonspace, fmt_time_nonspace, fmt_date_nonempty,
          fmt_time_nonempty).
  eexists. split; [reflexivity|]. apply get_set_same.
Qed.

Lemma with_lastHeard_absent : forall d flat,
    Dict.get d (lit "lastHeard") = None -> with_lastHeard d flat = Ok flat.
Proof.
  intros d flat H. unfold with_lastHeard, Dict.mem. now rewrite H.
Qed.

(** A record whose lastHeard is [None] or equal to 0 cannot be normalised:
    the placeholder is one word, and the reordering takes two. *)
Lemma with_lastHeard_placeholder : forall d flat ts,
    Dict.get d (lit "lastHeard") = Some ts ->
    is_none ts || eq_zero ts = true ->
    with_lastHeard d flat = Raise IndexError.
Proof.
  intros d flat ts Hget Hz. unfold with_lastHeard, Dict.mem.
  rewrite Hget. cbv zeta. rewrite (get_default_some _ _ _ Hget).
  unfold human_time. rewrite Hz. reflexivity.
Qed.

Lemma with_name_other : forall d flat flat' k,
    with_name d flat = Ok flat' -> k <> lit "name" ->
    Dict.get flat' k = Dict.get flat k.
Proof.
  intros d flat flat' k H Hk. unfold with_name in H.
  destruct (Dict.get d (lit "user")) as [u|].
  - match type of H with (bind (clean_name ?x) _ = _) =>
      destruct (clean_name x) as [s|e] end; simpl in H; [|discriminate].
    injection H as <-. apply get_set_other. congruence.
  - injection H as <-. apply get_set_other. congruence.
Qed.

Lemma with_viaHop_other : forall flat k,
    k <> lit "viaHop" -> Dict.get (with_viaHop flat) k = Dict.get flat k.
Proof. intros flat k Hk. unfold with_viaHop. apply get_set_other. congruence. Qed.

Lemma with_snr_other : forall flat k,
    k <> lit "snr" -> Dict.get (with_snr flat) k = Dict.get flat k.
Proof.
  intros flat k Hk. unfold with_snr. destruct (Dict.get flat (lit "snr")).
  - apply get_set_other. congruence.
  - reflexivity.
Qed.

(** The blocks after [# lastHeard] leave lastHeard_human as it is. *)
Lemma lastHeard_human_kept : forall d flat flat',
    with_name d flat = Ok flat' ->
    Dict.get (with_snr (with_viaHop flat')) (lit "lastHeard_human")
    = Dict.get flat (lit "lastHeard_human").
Proof.
  intros d flat flat' H.
  rewrite with_snr_other by lit_neq. rewrite with_viaHop_other by lit_neq.
  apply (@with_name_other _ _ _ _ H). lit_neq.
Qed.

(** Amended C3. In the row of a record, lastHeard_human is the local wall
    clock time of the record's lastHeard, the time before the date
    (HH:MM:SS DD/MM/YYYY, the year in four digits from the year 1000 on),
    whenever lastHeard is present, is neither [None] nor equal to 0, and is
    a time [fromtimestamp] converts; for a record without lastHeard the
    program adds no lastHeard_human: the row has the one flattening gave it,
    if any. *)
Theorem lastHeard_human_local_time : forall n r,
    normalize_node n = Ok r ->
    (forall ts dt,
        Dict.get (node_dict n) (lit "lastHeard") = Some ts ->
        is_none ts = false -> eq_zero ts = false -> fromtimestamp ts = Some dt ->
      Dict.get r (lit "lastHeard_human")
      = Some (VStr (fmt_time dt ++ lit " " ++ fmt_date dt))
      /\ ((1000 <= year dt)%Z ->
          fmt_time dt ++ lit " " ++ fmt_date dt
          = zfill 2 (Z.to_N (hour dt)) ++ lit ":"
            ++ zfill 2 (Z.to_N (minute dt)) ++ lit ":"
            ++ zfill 2 (Z.to_N (second dt)) ++ lit " "
            ++ zfill 2 (Z.to_N (day dt)) ++ lit "/"
            ++ zfill 2 (Z.to_N (month dt)) ++ lit "/"
            ++ zfill 4 (Z.to_N (year dt))))
    /\ (Dict.get (node_dict n) (lit "lastHeard") = None ->
        forall flat, flatten_dict (node_dict n) [] (lit "_") = Ok flat ->
                     Dict.get r (lit "lastHeard_human")
                     = Dict.get flat (lit "lastHeard_human")).
Proof.
  intros n r H. unfold normalize_node in H. cbv zeta in H.
  destruct (flatten_dict _ _ _) as [flat|e]; simpl in H; [|discriminate].
  destruct (with_lastHeard _ flat) as [flat1|e] eqn:E1; simpl in H; [|discriminate].
  destruct (with_name _ flat1) as [flat2|e] eqn:E2; simpl in H; [|discriminate].
  injection H as <-. rewrite (@lastHeard_human_kept _ _ _ E2). split.
  - intros ts dt Hget Hn Hz Hf.
    destruct (@with_lastHeard_rendered _ flat _ _ Hget Hn Hz Hf) as [flat' [Hw Hg]].
    rewrite Hw in E1. injection E1 as <-. split; [exact Hg|].
    intro Hy. unfold fmt_time, fmt_date. rewrite <- !app_assoc.
    do 10 f_equal. destruct strftime_pads_year; [reflexivity|].
    symmetry. now apply zfill_four_digits.
  - intros Habs flat0 Hflat. injection Hflat as <-.
    rewrite (@with_lastHeard_absent _ flat Habs) in E1. now injection E1 as <-.
Qed.

(** C1 fails: for a record whose lastHeard is [None] or equal to 0, and
    which flattening accepts, [normalize_node] returns no row; it raises
    IndexError. *)
Theorem normalize_node_placeholder_raises : forall n ts flat,
    Dict.get (node_dict n) (lit "lastHeard") = Some ts ->
    is_none ts || eq_zero ts = true ->
    flatten_dict (node_dict n) [] (lit "_") = Ok flat ->
    normalize_node n = Raise IndexError.
Proof.
  intros n ts flat Hget Hz Hflat. unfold normalize_node. cbv zeta.
  rewrite Hflat. cbn [bind].
  now rewrite (@with_lastHeard_placeholder _ flat _ Hget Hz).
Qed.
End LastHeard.

(** The record [{"lastHeard": 0}]. *)
Lemma normalize_node_placeholder_raises_witness :
  @normalize_node Cpython.utc (NodeMapping [(lit "lastHeard", VInt 0)])
  = Raise IndexError.
Proof.
  exact (@normalize_node_placeholder_raises Cpython.utc
           (NodeMapping [(lit "lastHeard", VInt 0)]) (VInt 0)
           [(lit "lastHeard", VInt 0)] eq_refl eq_refl eq_refl).
Defined.

Lemma sample_rows :
  mapM (@normalize_node Cpython.utc) (map snd Sample.nodes)
  = Ok [Sample.alice_row; Sample.bob_row].
Proof. vm_compute. reflexivity. Qed.

(** The table of the sample, compact and by recency, when local time is UTC. *)
Example print_table_sample :
  @print_table Cpython.utc Sample.nodes true false
  = Ok [ [];
         lit "#    user_id    user_hwModel  name                               hopsAway  snr   position_latitude  position_longitude  lastHeard_human      ";
         repeat 61%N 141;
         sgr_green_white
         ++ lit "001  !aabbccdd  TBEAM         Alice Station                      0         5.68  43.7167            10.3833             22:13:20 14/11/2023  "
         ++ sgr_reset;
         lit "002                           BOB                                2                                                                           " ].
Proof. vm_compute. reflexivity. Qed.

Lemma lastHeard_human_local_time_witness :
  @normalize_node Cpython.utc Sample.alice = Ok Sample.alice_row
  /\ Dict.get Sample.alice_row (lit "lastHeard_human")
     = Some (VStr (lit "22:13:20 14/11/2023")).
Proof.
  assert (H : @normalize_node Cpython.utc Sample.alice = Ok Sample.alice_row)
    by (vm_compute; reflexivity).
  split; [exact H|].
  exact (proj1 (proj1 (@lastHeard_human_local_time Cpython.utc Sample.alice _ H)
                  (VInt 1700000000)
                  {| year := 2023; month := 11; day := 14;
                     hour := 22; minute := 13; second := 20 |}
                  eq_refl eq_refl eq_refl eq_refl)).
Defined.

(** The record [bob] has no lastHeard, and its row no lastHeard_human. *)
Lemma no_lastHeard_no_lastHeard_human :
  @normalize_node Cpython.utc Sample.bob = Ok Sample.bob_row
  /\ Dict.get (node_dict Sample.bob) (lit "lastHeard") = None
  /\ Dict.get Sample.bob_row (lit "lastHeard_human") = None.
Proof. repeat split; vm_compute; reflexivity. Qed.

Lemma print_table_lines_witness :
  @print_table Cpython.utc Sample.nodes true false
  = Ok (@render Cpython.utc [Sample.alice_row; Sample.bob_row] true false)
  /\ exists rows headers cw lines,
      mapM (@normalize_node Cpython.utc) (map snd Sample.nodes) = Ok rows
      /\ @render Cpython.utc [Sample.alice_row; Sample.bob_row] true false
         = [] :: @header_line cw headers
              :: repeat 61%N (length (@header_line cw headers))
              :: lines
      /\ headers = @select_headers Cpython.utc true rows
      /\ cw = @col_widths Cpython.utc (@sort_rows Cpython.utc false rows) headers
      /\ lines = @printed_rows Cpython.utc cw headers 1
                   (@sort_rows Cpython.utc false rows)
      /\ length lines = length Sample.nodes.
Proof.
  assert (Hp : @print_table Cpython.utc Sample.nodes true false
               = Ok (@render Cpython.utc [Sample.alice_row; Sample.bob_row] true false))
    by (vm_compute; reflexivity).
  exact (conj Hp
           (proj1 (@print_table_lines Cpython.utc Sample.nodes true false) _ Hp)).
Defined.

(** The first line written is empty: the header line is the second one. *)
Lemma print_table_leading_empty_line :
  (exists rest, @print_table Cpython.utc Sample.nodes true false = Ok ([] :: rest))
  /\ ~ @writes_header_separator_rows Cpython.utc Sample.nodes true false
  /\ ~ @writes_header_separator_rows Cpython.utc [] true false.
Proof.
  split; [eexists; apply print_table_sample|]. split.
  - intros [header [lines [H Hl]]]. rewrite print_table_sample in H.
    injection H as <- H _. vm_compute in H. discriminate H.
  - intros [header [lines [H Hl]]]. vm_compute in H.
    destruct lines; [discriminate H|discriminate Hl].
Qed.

(** A row whose key is zero does not sort last: the row of [bob], which has
    no lastHeard_human, is printed before the row of a record last heard
    before 1970. *)
Lemma zero_key_not_last :
  mapM (@normalize_node Cpython.utc) [early; Sample.bob]
  = Ok [early_row; Sample.bob_row]
  /\ @recencyKey Cpython.utc Sample.bob_row = 0%Z
  /\ @recencyKey Cpython.utc early_row = (-5)%Z
  /\ @sort_rows Cpython.utc false [early_row; Sample.bob_row]
     = [Sample.bob_row; early_row]
  /\ ~ @zero_keyed_last Cpython.utc [early_row; Sample.bob_row].
Proof.
  assert (Hs : @sort_rows Cpython.utc false [early_row; Sample.bob_row]
               = [Sample.bob_row; early_row]) by (vm_compute; reflexivity).
  assert (Hb : @recencyKey Cpython.utc Sample.bob_row = 0%Z)
    by (vm_compute; reflexivity).
  assert (He : @recencyKey Cpython.utc early_row = (-5)%Z)
    by (vm_compute; reflexivity).
  split; [vm_compute; reflexivity|]. split; [exact Hb|]. split; [exact He|].
  split; [exact Hs|]. intro H.
  specialize (H 0 1 Sample.bob_row early_row). rewrite Hs in H.
  specialize (H eq_refl eq_refl Hb). rewrite He in H.
  assert (Hlt : 1 < 0) by (apply H; discriminate). lia.
Qed.

Lemma highlight_iff_direct_with_snr_witness :
  nth_error (@sort_rows Cpython.utc false [Sample.bob_row; Sample.alice_row]) 0
  = Some Sample.alice_row
  /\ @direct_with_snr Cpython.utc Sample.alice_row
  /\ exists line,
      line = @row_line Cpython.utc
               (@col_widths Cpython.utc
                  (@sort_rows Cpython.utc false [Sample.bob_row; Sample.alice_row])
                  (@select_headers Cpython.utc true [Sample.bob_row; Sample.alice_row]))
               (@select_headers Cpython.utc true [Sample.bob_row; Sample.alice_row])
               1 Sample.alice_row
      /\ nth_error (@render Cpython.utc [Sample.bob_row; Sample.alice_row] true false) 3
         = Some (sgr_green_white ++ line ++ sgr_reset).
Proof.
  assert (H : nth_error (@sort_rows Cpython.utc false [Sample.bob_row; Sample.alice_row]) 0
              = Some Sample.alice_row) by (vm_compute; reflexivity).
  assert (D : @direct_with_snr Cpython.utc Sample.alice_row)
    by (unfold direct_with_snr; split;
        [vm_compute; reflexivity|split; vm_compute; discriminate]).
  split; [exact H|]. split; [exact D|].
  destruct (@highlight_iff_direct_with_snr Cpython.utc
              [Sample.bob_row; Sample.alice_row] true false 0 Sample.alice_row H)
    as [line [Hline [Hiff _]]].
  exists line. split; [exact Hline|]. exact (proj2 Hiff D).
Defined.

Lemma row_lines_as_long_as_header_witness :
  (N.of_nat (length Sample.nodes) < 100000)%N
  /\ @print_table Cpython.utc Sample.nodes true false
     = Ok (@render Cpython.utc [Sample.alice_row; Sample.bob_row] true false)
  /\ exists rows headers hl lines,
      @render Cpython.utc [Sample.alice_row; Sample.bob_row] true false
      = [] :: hl :: repeat 61%N (length hl) :: lines
      /\ length lines = length Sample.nodes
      /\ length hl = list_sum (map (@columnWidth Cpython.utc rows) headers)
      /\ Forall (fun line =>
                   exists body,
                     (line = body \/ line = sgr_green_white ++ body ++ sgr_reset)
                     /\ length body = length hl) lines.
Proof.
  assert (Hn : (N.of_nat (length Sample.nodes) < 100000)%N) by reflexivity.
  assert (Hp : @print_table Cpython.utc Sample.nodes true false
               = Ok (@render Cpython.utc [Sample.alice_row; Sample.bob_row] true false))
    by (vm_compute; reflexivity).
  exact (conj Hn (conj Hp
           (@row_lines_as_long_as_header Cpython.utc Sample.nodes true false _ Hn Hp))).
Defined.

Lemma print_table_deterministic_witness :
  same_configuration Cpython.utc Cpython.utc_reversed
  /\ @print_table Cpython.utc Sample.nodes false true
     = @print_table Cpython.utc_reversed Sample.nodes false true.
Proof.
  assert (H : same_configuration Cpython.utc Cpython.utc_reversed)
    by (repeat split).
  exact (conj H (@print_table_deterministic _ _ Sample.nodes false true H)).
Defined.

(** * Further properties of the program *)

(** ** The blocks of [normalize_node] *)

Lemma digits_nonspace : forall z, Forall nonspace (str_of_Z z).
Proof.
  intro z. unfold str_of_Z.
  assert (H : Forall nonspace (str_of_N (Z.abs_N z)))
    by (apply digits_from_nonspace; constructor).
  destruct (z <? 0)%Z; [|exact H].
  constructor; [reflexivity|exact H].
Qed.

(** A text without white space is at most one word. *)
Lemma split_one_word : forall w,
    Forall nonspace w -> split w = if is_empty w then [] else [w].
Proof.
  intros w H. unfold split.
  rewrite <- (app_nil_r w) at 1. rewrite (split_from_word _ _ H), app_nil_r.
  cbn [split_from]. destruct w as [|c w]; [reflexivity|].
  destruct (rev (c :: w)) as [|x r] eqn:E.
  - apply (f_equal (@length N)) in E. rewrite length_rev in E. discriminate.
  - cbn [is_empty]. now rewrite <- E, rev_involutive.
Qed.

Section Blocks.
Context {rt : Runtime}.

Lemma with_lastHeard_other : forall d flat flat' k,
    with_lastHeard d flat = Ok flat' -> k <> lit "lastHeard_human" ->
    Dict.get flat' k = Dict.get flat k.
Proof.
  intros d flat flat' k H Hk. unfold with_lastHeard in H.
  destruct (Dict.mem d (lit "lastHeard")); [|now injection H as <-].
  destruct (human_time _) as [h|e]; [|discriminate]. cbn [bind] in H.
  cbv zeta in H.
  destruct (split _) as [|tmp0 [|tmp1 tmp]]; try discriminate.
  injection H as <-. rewrite !get_set_other by congruence. reflexivity.
Qed.

(** X1. [normalize_node] changes four keys only: every key of the row other
    than lastHeard_human, name, viaHop and snr has the value flattening the
    record gave it, and is absent when flattening did not produce it. *)
Theorem normalize_node_other_keys : forall n r flat k,
    normalize_node n = Ok r ->
    flatten_dict (node_dict n) [] (lit "_") = Ok flat ->
    k <> lit "lastHeard_human" -> k <> lit "name" ->
    k <> lit "viaHop" -> k <> lit "snr" ->
    Dict.get r k = Dict.get flat k.
Proof.
  intros n r flat k H Hflat H1 H2 H3 H4. unfold normalize_node in H.
  cbv zeta in H. rewrite Hflat in H. cbn [bind] in H.
  destruct (with_lastHeard _ flat) as [flat1|e] eqn:E1; simpl in H; [|discriminate].
  destruct (with_name _ flat1) as [flat2|e] eqn:E2; simpl in H; [|discriminate].
  injection H as <-.
  rewrite (with_snr_other _ H4), (with_viaHop_other _ H3).
  rewrite (with_name_other _ _ E2 H2).
  apply (with_lastHeard_other _ _ E1 H1).
Qed.

Lemma with_snr_viaHop : forall flat b,
    Dict.get flat (lit "viaHop") = Some (VBool b) ->
    Dict.get (with_snr flat) (lit "viaHop") = Some (VBool b).
Proof. intros flat b H. rewrite with_snr_other by lit_neq. exact H. Qed.

(** X2. In every row [normalize_node] returns, name is a string of 35
    characters, viaHop is a bool, snr is present exactly when flattening the
    record gave an snr and is then a string, and lastHeard_human is a string
    when the record has a lastHeard. *)
Theorem normalize_node_field_types : forall n r flat,
    normalize_node n = Ok r ->
    flatten_dict (node_dict n) [] (lit "_") = Ok flat ->
    (exists s, Dict.get r (lit "name") = Some (VStr s) /\ length s = 35)
    /\ (exists b, Dict.get r (lit "viaHop") = Some (VBool b))
    /\ (Dict.get flat (lit "snr") = None -> Dict.get r (lit "snr") = None)
    /\ (Dict.get flat (lit "snr") <> None ->
        exists s, Dict.get r (lit "snr") = Some (VStr s))
    /\ (Dict.mem (node_dict n) (lit "lastHeard") = true ->
        exists s, Dict.get r (lit "lastHeard_human") = Some (VStr s)).
Proof.
  intros n r flat H Hflat.
  split; [exact (normalize_node_has_name _ H)|].
  unfold normalize_node in H. cbv zeta in H. rewrite Hflat in H. cbn [bind] in H.
  destruct (with_lastHeard _ flat) as [flat1|e] eqn:E1; simpl in H; [|discriminate].
  destruct (with_name _ flat1) as [flat2|e] eqn:E2; simpl in H; [|discriminate].
  injection H as <-.
  assert (Hsnr : Dict.get (with_viaHop flat2) (lit "snr") = Dict.get flat (lit "snr")).
  { rewrite with_viaHop_other by lit_neq.
    rewrite (with_name_other _ _ E2) by lit_neq.
    apply (with_lastHeard_other _ _ E1). lit_neq. }
  split; [|split; [|split]].
  - eexists. apply with_snr_viaHop. unfold with_viaHop. cbv zeta.
    apply get_set_same.
  - intro Hn. unfold with_snr. rewrite Hsnr, Hn. now rewrite Hsnr.
  - intro Hs. unfold with_snr. rewrite Hsnr.
    destruct (Dict.get flat (lit "snr")) as [snr|]; [|contradiction].
    eexists. apply get_set_same.
  - intro Hm. rewrite (lastHeard_human_kept _ _ E2).
    unfold with_lastHeard in E1. rewrite Hm in E1.
    destruct (human_time _) as [h|e]; [|discriminate]. cbn [bind] in E1.
    cbv zeta in E1.
    destruct (split _) as [|tmp0 [|tmp1 tmp]]; try discriminate.
    injection E1 as <-. eexists. apply get_set_same.
Qed.

(** X3. The flag viaHop of a row agrees with the key [print_table] sorts by
    with sort-by-hop: viaHop is [True] exactly when [hop_key] of the row is
    positive. *)
Theorem viaHop_agrees_with_hop_key : forall n r,
    normalize_node n = Ok r ->
    Dict.get r (lit "viaHop") = Some (VBool (0 <? hop_key r)%Z).
Proof.
  intros n r H. unfold normalize_node in H. cbv zeta in H.
  destruct (flatten_dict _ _ _) as [flat|e]; simpl in H; [|discriminate].
  destruct (with_lastHeard _ flat) as [flat1|e]; simpl in H; [|discriminate].
  destruct (with_name _ flat1) as [flat2|e]; simpl in H; [|discriminate].
  injection H as <-.
  assert (Hh : Dict.get (with_snr (with_viaHop flat2)) (lit "hopsAway")
               = Dict.get flat2 (lit "hopsAway")).
  { rewrite with_snr_other by lit_neq. apply with_viaHop_other. lit_neq. }
  unfold hop_key, Dict.get_default. rewrite Hh.
  apply with_snr_viaHop. unfold with_viaHop, Dict.get_default. cbv zeta.
  rewrite get_set_same.
  destruct (Dict.get flat2 (lit "hopsAway")) as [[| | | | | | |]|]; reflexivity.
Qed.

(** X4. [clean_name] fails on one kind of value only: it raises TypeError
    exactly when the name is truthy and no string (a number other than 0, a
    list that is not empty, ...), and otherwise returns 35 characters. *)
Theorem clean_name_TypeError : forall name,
    (clean_name name = Raise TypeError
     <-> truthy name = true /\ (forall s, name <> VStr s))
    /\ (forall e, clean_name name = Raise e -> e = TypeError)
    /\ (forall s, clean_name name = Ok s -> length s = 35).
Proof.
  intro name. split; [|split].
  - unfold clean_name. destruct (truthy name) eqn:T; cbn [negb].
    + destruct name; (split; [intro H|intros [_ H]]);
        try discriminate; try reflexivity;
        try (split; [reflexivity|intros s0 Hs; discriminate]).
      exfalso. now apply (H s).
    + split; [discriminate|intros [H _]; discriminate].
  - intros e H. unfold clean_name in H.
    destruct (negb (truthy name)); [discriminate|].
    destruct name; try discriminate; now injection H as <-.
  - intros s. apply clean_name_length.
Qed.

(** X5. The name of a row is [clean_name] of the first truthy one of the
    user's longName and shortName, read with [get] from a user that is a dict
    and with [getattr] from any other: the cleaned longName when longName is
    a string that is not empty; TypeError when longName is truthy and no
    string, whatever shortName is; when longName is falsy, the cleaned
    shortName when that is a string that is not empty and TypeError when it
    is truthy and no string; 35 spaces when both are falsy or the record has
    no user. *)
Theorem name_precedence : forall d flat,
    (forall u,
        Dict.get d (lit "user") = Some u ->
        (forall long,
            user_field u (lit "longName") = VStr long -> long <> [] ->
            with_name d flat = Ok (Dict.set flat (lit "name") (VStr (cleanName long))))
        /\ (truthy (user_field u (lit "longName")) = true ->
            (forall long, user_field u (lit "longName") <> VStr long) ->
            with_name d flat = Raise TypeError)
        /\ (forall short,
               truthy (user_field u (lit "longName")) = false ->
               user_field u (lit "shortName") = VStr short -> short <> [] ->
               with_name d flat
               = Ok (Dict.set flat (lit "name") (VStr (cleanName short))))
        /\ (truthy (user_field u (lit "longName")) = false ->
            truthy (user_field u (lit "shortName")) = true ->
            (forall short, user_field u (lit "shortName") <> VStr short) ->
            with_name d flat = Raise TypeError)
        /\ (truthy (user_field u (lit "longName")) = false ->
            truthy (user_field u (lit "shortName")) = false ->
            with_name d flat = Ok (Dict.set flat (lit "name") (VStr (repeat 32%N 35)))))
    /\ (Dict.get d (lit "user") = None ->
        with_name d flat = Ok (Dict.set flat (lit "name") (VStr (repeat 32%N 35)))).
Proof.
  intros d flat.
  assert (Hstr : forall s : str, s <> [] -> truthy (VStr s) = true)
    by (intros [|c s] H; [contradiction|reflexivity]).
  assert (Hraise : forall v, truthy v = true -> (forall s, v <> VStr s) ->
                             clean_name v = Raise TypeError).
  { intros v Ht Hs. unfold clean_name. rewrite Ht. cbn [negb].
    destruct v; try reflexivity. now contradiction (Hs s). }
  assert (Hname : forall u, Dict.get d (lit "user") = Some u ->
            with_name d flat
            = (s <- clean_name (py_or (py_or (user_field u (lit "longName"))
                                             (user_field u (lit "shortName")))
                                      (VStr [])) ;;
               Ok (Dict.set flat (lit "name") (VStr s)))).
  { intros u Hu. unfold with_name. rewrite Hu. now destruct u. }
  split.
  - intros u Hu. rewrite (Hname u Hu). repeat split.
    + intros long Hl Hne. rewrite Hl. unfold py_or. rewrite (Hstr _ Hne).
      cbv beta iota. rewrite (Hstr _ Hne). now rewrite clean_name_VStr.
    + intros Ht Hs. unfold py_or. rewrite Ht, Ht. now rewrite (Hraise _ Ht Hs).
    + intros short Hl Hs Hne. rewrite Hs. unfold py_or. rewrite Hl.
      rewrite (Hstr _ Hne). now rewrite clean_name_VStr.
    + intros Hl Ht Hs. unfold py_or. rewrite Hl, Ht. now rewrite (Hraise _ Ht Hs).
    + intros Hl Hs. unfold py_or. rewrite Hl, Hs. reflexivity.
  - intro Hu. unfold with_name. now rewrite Hu.
Qed.

Lemma int_str_ok_0 : int_str_ok 0 = true.
Proof. vm_compute. reflexivity. Qed.

(** X6. For a record whose lastHeard is an int, the block [# lastHeard]
    succeeds exactly when the int is not 0 and [fromtimestamp] converts it.
    Otherwise it raises: IndexError for 0, and for a time outside the years
    of [datetime] whose text, a single word, [str] gives; ValueError, from
    [str] in the [except] clause of [human_time], for one of more than
    4300 digits. *)
Theorem with_lastHeard_int : forall d flat ts,
    Dict.get d (lit "lastHeard") = Some (VInt ts) ->
    ((exists flat', with_lastHeard d flat = Ok flat')
     <-> ts <> 0%Z /\ fromtimestamp_time_t ts <> None)
    /\ ((ts = 0%Z \/ (fromtimestamp_time_t ts = None /\ int_str_ok ts = true)) ->
        with_lastHeard d flat = Raise IndexError)
    /\ (fromtimestamp_time_t ts = None -> int_str_ok ts = false ->
        with_lastHeard d flat = Raise ValueError).
Proof.
  intros d flat ts Hget.
  assert (Hnone : fromtimestamp_time_t ts = None -> ts <> 0%Z ->
                  with_lastHeard d flat
                  = if int_str_ok ts then Raise IndexError else Raise ValueError).
  { intros Hn Hnz. unfold with_lastHeard, Dict.mem. rewrite Hget.
    rewrite (get_default_some _ _ _ Hget). unfold human_time.
    cbn [is_none eq_zero orb fromtimestamp].
    apply Z.eqb_neq in Hnz. rewrite Hnz, Hn. unfold str_of. cbn [str_ok].
    destruct (int_str_ok ts); [|reflexivity].
    cbn [bind py_str py_repr]. cbv zeta.
    rewrite (split_one_word (digits_nonspace ts)).
    now destruct (is_empty (str_of_Z ts)). }
  assert (Hbad : (ts = 0%Z \/ (fromtimestamp_time_t ts = None /\ int_str_ok ts = true)) ->
                 with_lastHeard d flat = Raise IndexError).
  { intros [->|[Hn Hok]].
    - apply (with_lastHeard_placeholder _ flat Hget). reflexivity.
    - destruct (Z.eq_dec ts 0) as [->|Hnz];
        [apply (with_lastHeard_placeholder _ flat Hget); reflexivity|].
      rewrite (Hnone Hn Hnz). now rewrite Hok. }
  assert (Hlong : fromtimestamp_time_t ts = None -> int_str_ok ts = false ->
                  with_lastHeard d flat = Raise ValueError).
  { intros Hn Hok.
    assert (Hnz : ts <> 0%Z)
      by (intros ->; rewrite int_str_ok_0 in Hok; discriminate Hok).
    rewrite (Hnone Hn Hnz). now rewrite Hok. }
  split; [|split; [exact Hbad|exact Hlong]]. split.
  - intros [flat' Hok]. split.
    + intros ->. rewrite Hbad in Hok by now left. discriminate.
    + intro Hn. case_eq (int_str_ok ts); intro E.
      * rewrite Hbad in Hok by (right; now split). discriminate.
      * rewrite (Hlong Hn E) in Hok. discriminate.
  - intros [Hnz Hsome].
    destruct (fromtimestamp_time_t ts) as [dt|] eqn:E; [|contradiction].
    assert (Hz : eq_zero (VInt ts) = false) by (now apply Z.eqb_neq).
    destruct (with_lastHeard_rendered _ flat Hget eq_refl Hz E) as [flat' [Hw _]].
    now exists flat'.
Qed.
End Blocks.

(** ** [node_dict] *)

Lemma get_set_none : forall (V : Type) (d : Dict.t V) k k' v,
    k <> k' -> Dict.get d k' = None -> Dict.get (Dict.set d k v) k' = None.
Proof. intros V d k k' v Hne H. now rewrite get_set_other. Qed.

Lemma private_match : forall (T : Type) (a b : T) attr,
    match attr with 95%N :: _ => a | _ => b end = if is_private attr then a else b.
Proof.
  intros T a b attr. unfold is_private.
  destruct attr as [|c attr]; [reflexivity|].
  destruct c as [|p]; [reflexivity|].
  do 7 (destruct p as [p|p|]; try reflexivity).
Qed.

(** The loop over [dir(node)], one attribute at a time. *)
Lemma node_dict_fold : forall attrs,
    node_dict (NodeObject attrs)
    = fold_left (fun d (a : str * attribute) =>
                   if is_private (fst a) then d
                   else match snd a with
                        | AttrValue val => Dict.set d (fst a) val
                        | _ => d
                        end) attrs [].
Proof.
  intro attrs. cbn [node_dict]. generalize ([] : pydict).
  induction attrs as [|[attr x] attrs IH]; intro d; [reflexivity|].
  cbn [fold_left fst snd]. rewrite IH. f_equal.
  rewrite private_match. now destruct x.
Qed.

(** X7. Read through [dir] and [getattr], a record keeps its public data
    attributes and nothing else: a key of the dictionary is the name of an
    attribute that does not start with an underscore, whose access did not
    raise and whose value is no method, with that value. *)
Theorem node_dict_public_attributes : forall attrs k v,
    NoDup (map fst attrs) ->
    (Dict.get (node_dict (NodeObject attrs)) k = Some v
     <-> In (k, AttrValue v) attrs /\ is_private k = false).
Proof.
  intros attrs k v Hnd. rewrite node_dict_fold.
  set (step := fun (d : pydict) (a : str * attribute) =>
                 if is_private (fst a) then d
                 else match snd a with
                      | AttrValue val => Dict.set d (fst a) val
                      | _ => d
                      end).
  assert (G : forall attrs d,
             NoDup (map fst attrs) ->
             (forall a, In a (map fst attrs) -> Dict.get d a = None) ->
             (Dict.get (fold_left step attrs d) k = Some v
              <-> Dict.get d k = Some v
                  \/ (In (k, AttrValue v) attrs /\ is_private k = false))).
  { clear attrs Hnd. induction attrs as [|[a x] attrs IH]; intros d Hnd Hfresh.
    - simpl. tauto.
    - inversion Hnd as [|? ? Hnotin Hnd']; subst. cbn [fold_left].
      assert (Ha : Dict.get d a = None) by (apply Hfresh; now left).
      assert (Hin : forall y, In (a, y) attrs -> False).
      { intros y Hy. apply Hnotin. change a with (fst (a, y)). now apply in_map. }
      rewrite IH; [|exact Hnd'|].
      + unfold step at 1. cbn [fst snd In].
        destruct (is_private a) eqn:Hp.
        * split; [tauto|]. intros [H|[[H|H] Hk]]; [tauto| |tauto].
          injection H as <- <-. congruence.
        * destruct x as [| |val].
          -- split; [tauto|]. intros [H|[[H|H] Hk]]; [tauto|discriminate|tauto].
          -- split; [tauto|]. intros [H|[[H|H] Hk]]; [tauto|discriminate|tauto].
          -- destruct (list_eq_dec N.eq_dec a k) as [->|Hne].
             ++ rewrite get_set_same. split.
                ** intros [H|[H Hk]]; [|now apply Hin in H].
                   injection H as ->. right. split; [now left|exact Hp].
                ** intros [H|[[H|H] Hk]]; [congruence| |now apply Hin in H].
                   injection H as ->. now left.
             ++ rewrite get_set_other by exact Hne. split.
                ** intros [H|[H Hk]]; [now left|right; split; [now right|exact Hk]].
                ** intros [H|[[H|H] Hk]]; [now left| |right; tauto].
                   injection H as -> _. contradiction.
      + intros a' Ha'. unfold step. cbn [fst snd].
        assert (Hne : a <> a') by (intros ->; contradiction).
        assert (Hd : Dict.get d a' = None) by (apply Hfresh; now right).
        destruct (is_private a); [exact Hd|].
        destruct x; try exact Hd. now apply get_set_none. }
  destruct (G attrs [] Hnd (fun _ _ => eq_refl)) as [G1 G2]. split.
  - intro H. destruct (G1 H) as [Hd|Hin]; [discriminate|exact Hin].
  - intro H. apply G2. now right.
Qed.

(** ** The order of the rows *)

Section Stable.
Variable A : Type.
Variable before : A -> A -> bool.
Variable p : A -> bool.
Hypothesis alike_before : forall x y, p x = true -> p y = true -> before x y = true.

Lemma filter_insert_sorted : forall x l,
    filter p (insert_sorted before x l) = filter p (x :: l).
Proof.
  intros x l. induction l as [|y l IH]; [reflexivity|].
  cbn [insert_sorted]. destruct (before x y) eqn:E; [reflexivity|].
  cbn [filter] in *. rewrite IH.
  destruct (p x) eqn:Px, (p y) eqn:Py; try reflexivity.
  rewrite (alike_before Px Py) in E. discriminate.
Qed.

Lemma filter_stable_sort : forall l,
    filter p (stable_sort before l) = filter p l.
Proof.
  induction l as [|x l IH]; [reflexivity|].
  cbn [stable_sort]. rewrite filter_insert_sorted. cbn [filter]. now rewrite IH.
Qed.
End Stable.

(** X8. Sorting is stable in both modes: the rows that have one and the same
    key stand in the table in the order in which the snapshot gave them. *)
Theorem sort_rows_stable : forall (rt : Runtime) rows k,
    filter (fun r => (hop_key r =? k)%Z) (sort_rows true rows)
    = filter (fun r => (hop_key r =? k)%Z) rows
    /\ filter (fun r => (ts_key r =? k)%Z) (sort_rows false rows)
       = filter (fun r => (ts_key r =? k)%Z) rows.
Proof.
  intros rt rows k. unfold sort_rows. split; apply filter_stable_sort.
  - intros x y Hx Hy. apply Z.eqb_eq in Hx, Hy. apply Z.leb_le. lia.
  - intros x y Hx Hy. apply Z.eqb_eq in Hx, Hy. apply Z.leb_le. lia.
Qed.

(** ** Loops that may raise *)

Lemma mapM_Ok_iff : forall (A B : Type) (f : A -> result B) l,
    (exists l', mapM f l = Ok l') <-> Forall (fun a => exists b, f a = Ok b) l.
Proof.
  intros A B f. induction l as [|a l IH]; simpl.
  - split; [constructor|intros _; now eexists].
  - split.
    + intros [l' H]. destruct (f a) as [b|e] eqn:Ea; simpl in H; [|discriminate].
      destruct (mapM f l) as [bs|e] eqn:El; simpl in H; [|discriminate].
      constructor; [now exists b|]. apply IH. now exists bs.
    + intro H. inversion H as [|? ? [b Hb] Hl]; subst.
      apply IH in Hl. destruct Hl as [bs Hbs].
      exists (b :: bs). now rewrite Hb, Hbs.
Qed.

Lemma mapM_Raise_iff : forall (A B : Type) (f : A -> result B) l e,
    mapM f l = Raise e
    <-> exists l1 a l2, l = l1 ++ a :: l2
                        /\ Forall (fun a => exists b, f a = Ok b) l1
                        /\ f a = Raise e.
Proof.
  intros A B f. induction l as [|a l IH]; intro e; simpl.
  - split; [discriminate|]. intros [l1 [a [l2 [H _]]]]. now destruct l1.
  - split.
    + intro H. destruct (f a) as [b|e'] eqn:Ea; simpl in H.
      * destruct (mapM f l) as [bs|e''] eqn:El; simpl in H; [discriminate|].
        injection H as ->. destruct (proj1 (IH e) eq_refl) as [l1 [a' [l2 [-> [Hl1 Ha']]]]].
        exists (a :: l1), a', l2. repeat split; [|exact Ha'].
        constructor; [now exists b|exact Hl1].
      * injection H as ->. exists [], a, l. repeat split; [constructor|exact Ea].
    + intros [l1 [a' [l2 [Hl [Hl1 Ha']]]]]. destruct l1 as [|a1 l1].
      * injection Hl as <- <-. now rewrite Ha'.
      * injection Hl as <- ->. inversion Hl1 as [|? ? [b Hb] Hl1']; subst.
        rewrite Hb. cbn [bind].
        rewrite (proj2 (IH e)); [reflexivity|]. now exists l1, a', l2.
Qed.

(** ** [flatten_dict] *)

(** Induction on a value, through its lists and dictionaries. *)
Lemma value_nested_ind : forall P : value -> Prop,
    P VNone -> (forall b, P (VBool b)) -> (forall z, P (VInt z)) ->
    (forall s, P (VStr s)) ->
    (forall l, Forall P l -> P (VList l)) ->
    (forall l, Forall P l -> P (VTuple l)) ->
    (forall d, Forall (fun kv => P (snd kv)) d -> P (VDict d)) ->
    (forall o attrs, P (VObj o attrs)) ->
    forall v, P v.
Proof.
  intros P HNone HBool HInt HStr HList HTuple HDict HObj.
  fix IH 1. intros [| b | z | s | l | l | d | o attrs].
  - exact HNone.
  - apply HBool.
  - apply HInt.
  - apply HStr.
  - apply HList. induction l as [|x l IHl]; constructor; [apply IH|exact IHl].
  - apply HTuple. induction l as [|x l IHl]; constructor; [apply IH|exact IHl].
  - apply HDict. induction d as [|[k x] d IHd]; constructor; [apply IH|exact IHd].
  - apply HObj.
Qed.

Section DictInvariants.
Variable V : Type.
Implicit Types (d : Dict.t V) (k : str) (v : V).

Lemma set_Forall : forall (Q : V -> Prop) d k v,
    Forall (fun kv => Q (snd kv)) d -> Q v ->
    Forall (fun kv => Q (snd kv)) (Dict.set d k v).
Proof.
  intros Q d k v Hd Hv. induction Hd as [|[k' v'] d Hk Hd IH]; simpl.
  - constructor; [exact Hv|constructor].
  - destruct (str_eqb k' k); constructor; assumption.
Qed.

Lemma of_items_Forall : forall (Q : V -> Prop) items,
    Forall (fun kv => Q (snd kv)) items ->
    Forall (fun kv => Q (snd kv)) (Dict.of_items items).
Proof.
  intros Q items H. unfold Dict.of_items.
  assert (G : forall acc, Forall (fun kv => Q (snd kv)) acc ->
                          Forall (fun kv => Q (snd kv))
                            (fold_left (fun d kv => Dict.set d (fst kv) (snd kv)) items acc)).
  { induction H as [|kv items Hkv H IH]; intros acc Hacc; simpl; [exact Hacc|].
    apply IH. now apply set_Forall. }
  apply G. constructor.
Qed.

Lemma set_fresh : forall d k v,
    ~ In k (Dict.keys d) -> Dict.set d k v = d ++ [(k, v)].
Proof.
  induction d as [|[k' v'] d IH]; intros k v H; simpl; [reflexivity|].
  destruct (str_eqb k' k) eqn:E.
  - apply str_eqb_eq in E. subst k'. exfalso. apply H. now left.
  - f_equal. apply IH. intro Hin. apply H. now right.
Qed.

Lemma keys_set : forall d k v k',
    In k' (Dict.keys (Dict.set d k v)) <-> k' = k \/ In k' (Dict.keys d).
Proof.
  induction d as [|[k0 v0] d IH]; intros k v k'; simpl.
  - intuition.
  - destruct (str_eqb k0 k) eqn:E; simpl.
    + apply str_eqb_eq in E. subst k0. intuition.
    + rewrite IH. intuition.
Qed.

Lemma NoDup_keys_set : forall d k v,
    NoDup (Dict.keys d) -> NoDup (Dict.keys (Dict.set d k v)).
Proof.
  induction d as [|[k0 v0] d IH]; intros k v H; simpl.
  - constructor; [intros []|constructor].
  - inversion H as [|? ? Hnotin Hd]; subst.
    destruct (str_eqb k0 k) eqn:E; simpl.
    + constructor; assumption.
    + constructor; [|now apply IH].
      intro Hin. apply keys_set in Hin. destruct Hin as [->|Hin]; [|contradiction].
      rewrite str_eqb_refl in E. discriminate.
Qed.

Lemma NoDup_keys_of_items : forall items : list (str * V),
    NoDup (Dict.keys (Dict.of_items items)).
Proof.
  intro items. unfold Dict.of_items.
  assert (G : forall acc, NoDup (Dict.keys acc) ->
                          NoDup (Dict.keys
                                   (fold_left (fun d kv => Dict.set d (fst kv) (snd kv))
                                      items acc))).
  { induction items as [|kv items IH]; intros acc Hacc; simpl; [exact Hacc|].
    apply IH. now apply NoDup_keys_set. }
  apply G. constructor.
Qed.

(** [dict(d.items())] is [d]. *)
Lemma of_items_dict : forall d, NoDup (Dict.keys d) -> Dict.of_items d = d.
Proof.
  intros d H. unfold Dict.of_items.
  assert (G : forall l acc, NoDup (Dict.keys (acc ++ l)) ->
                            fold_left (fun d kv => Dict.set d (fst kv) (snd kv)) l acc
                            = acc ++ l).
  { induction l as [|[k v] l IH]; intros acc Hnd; simpl.
    - now rewrite app_nil_r.
    - rewrite set_fresh.
      + rewrite IH; rewrite <- app_assoc; [reflexivity|exact Hnd].
      + unfold Dict.keys in *. rewrite map_app in Hnd. simpl in Hnd.
        apply NoDup_remove_2 in Hnd. intro Hin. apply Hnd.
        apply in_or_app. now left. }
  apply (G d []). exact H.
Qed.
End DictInvariants.

Section Flatten.
Context {rt : Runtime}.

(** The loop over the items of a nested dictionary is that of
    [flatten_dict] on it, with the key as the parent key. *)
Lemma flatten_item_dict : forall parent_key sep k d,
    flatten_item parent_key sep k (VDict d)
    = flatten_dict d (new_key parent_key sep k) sep.
Proof.
  intros parent_key sep k d. unfold flatten_dict. cbn [flatten_item].
  f_equal. induction d as [|[k' v'] d IH]; [reflexivity|].
  cbn [flatten_items]. now rewrite IH.
Qed.

Lemma flatten_items_app : forall parent_key sep d items,
    flatten_items parent_key sep d = Ok items ->
    Forall (fun kv => forall k its, flatten_item parent_key sep k (snd kv) = Ok its ->
                                    scalars its) d ->
    scalars items.
Proof.
  intros parent_key sep. induction d as [|[k v] d IH]; intros items H Hd.
  - injection H as <-. constructor.
  - cbn [flatten_items] in H.
    destruct (flatten_item parent_key sep k v) as [a|e] eqn:Ea; simpl in H; [|discriminate].
    destruct (flatten_items parent_key sep d) as [b|e] eqn:Eb; simpl in H; [|discriminate].
    injection H as <-. inversion Hd as [|? ? Hv Hd']; subst.
    apply Forall_app. split; [exact (Hv k a Ea)|now apply IH].
Qed.

Lemma flatten_item_scalars : forall v parent_key sep k items,
    flatten_item parent_key sep k v = Ok items -> scalars items.
Proof.
  induction v as [| b | z | s | l IHl | l IHl | d IHd | o attrs]
    using value_nested_ind; intros parent_key sep k items H;
    try (injection H as <-; constructor; [reflexivity|constructor]).
  - cbn [flatten_item] in H. destruct (json_dumps (VList l)); simpl in H; [|discriminate].
    injection H as <-. constructor; [reflexivity|constructor].
  - cbn [flatten_item] in H. destruct (json_dumps (VTuple l)); simpl in H; [|discriminate].
    injection H as <-. constructor; [reflexivity|constructor].
  - rewrite flatten_item_dict in H. unfold flatten_dict in H.
    destruct (flatten_items _ sep d) as [its|e] eqn:E; simpl in H; [|discriminate].
    injection H as <-.
    apply (of_items_Forall (fun v => is_scalar v = true)).
    eapply flatten_items_app; [exact E|].
    eapply Forall_impl; [|exact IHd]. intros kv Hkv k' its' H'. exact (Hkv _ _ _ _ H').
Qed.

Lemma flatten_dict_scalars : forall d parent_key sep flat,
    flatten_dict d parent_key sep = Ok flat -> scalars flat.
Proof.
  intros d parent_key sep flat H. unfold flatten_dict in H.
  destruct (flatten_items parent_key sep d) as [items|e] eqn:E; simpl in H; [|discriminate].
  injection H as <-.
  apply (of_items_Forall (fun v => is_scalar v = true)).
  eapply flatten_items_app; [exact E|].
  apply Forall_forall. intros kv _ k its Hk. exact (flatten_item_scalars _ _ _ _ Hk).
Qed.

Lemma flatten_dict_keys : forall d parent_key sep flat,
    flatten_dict d parent_key sep = Ok flat -> NoDup (Dict.keys flat).
Proof.
  intros d parent_key sep flat H. unfold flatten_dict in H.
  destruct (flatten_items parent_key sep d) as [items|e]; simpl in H; [|discriminate].
  injection H as <-. apply NoDup_keys_of_items.
Qed.

(** X10. A flat row is flat: whatever the nesting of the record, no value of
    the dictionary [flatten_dict] returns is a dict, a list or a tuple, and
    no two of its entries have the same key. *)
Theorem flatten_dict_flat : forall d parent_key sep flat,
    flatten_dict d parent_key sep = Ok flat ->
    Forall (fun kv => is_scalar (snd kv) = true) flat
    /\ NoDup (Dict.keys flat).
Proof.
  intros d parent_key sep flat H. split.
  - exact (flatten_dict_scalars _ _ _ H).
  - exact (flatten_dict_keys _ _ _ H).
Qed.

Lemma flatten_items_scalars : forall sep d,
    scalars d -> flatten_items [] sep d = Ok d.
Proof.
  intros sep d H. induction H as [|[k v] d Hv Hd IH]; [reflexivity|].
  cbn [flatten_items]. rewrite IH. cbn [snd] in Hv.
  destruct v; try discriminate; reflexivity.
Qed.

(** X11. Flattening what is flat changes nothing: on the dictionary
    [flatten_dict] returned for a record, [flatten_dict] returns the same
    dictionary. *)
Theorem flatten_dict_idempotent : forall d sep flat,
    flatten_dict d [] sep = Ok flat -> flatten_dict flat [] sep = Ok flat.
Proof.
  intros d sep flat H.
  pose proof (flatten_dict_scalars _ _ _ H) as Hs.
  pose proof (flatten_dict_keys _ _ _ H) as Hn.
  unfold flatten_dict. rewrite (flatten_items_scalars sep Hs). cbn [bind].
  now rewrite (of_items_dict _ Hn).
Qed.

Lemma Forall_equiv : forall (A : Type) (P Q : A -> Prop) (l : list A),
    Forall (fun a => P a <-> Q a) l -> (Forall P l <-> Forall Q l).
Proof.
  intros A P Q l H. induction H as [|a l Ha H IH].
  - split; constructor.
  - split; intro G; inversion G; subst; constructor; tauto.
Qed.

Lemma bind_Ok_iff : forall (A B : Type) (m : result A) (f : A -> B),
    (exists b, (a <- m ;; Ok (f a)) = Ok b) <-> (exists a, m = Ok a).
Proof.
  intros A B m f. destruct m as [a|e]; simpl; split; intros [x H];
    try discriminate; eexists; reflexivity.
Qed.

(** [json.dumps] returns on the values of [json_ok], and on no other. *)
Lemma json_dumps_ok : forall v,
    (exists s, json_dumps v = Ok s) <-> json_ok v = true.
Proof.
  induction v as [| b | z | s | l IHl | l IHl | d IHd | o attrs]
    using value_nested_ind; cbn [json_dumps json_ok];
    try (split; [reflexivity|intros _; now eexists]).
  - destruct (int_str_ok z); split; try reflexivity; try discriminate;
      [intros _; now eexists|intros [s H]; discriminate].
  - rewrite bind_Ok_iff, mapM_Ok_iff, forallb_forall, <- Forall_forall.
    now apply Forall_equiv.
  - rewrite bind_Ok_iff, mapM_Ok_iff, forallb_forall, <- Forall_forall.
    now apply Forall_equiv.
  - rewrite bind_Ok_iff, mapM_Ok_iff, forallb_forall, <- Forall_forall.
    apply Forall_equiv. eapply Forall_impl; [|exact IHd].
    intros [k x] Hx. cbn [snd] in *. now rewrite bind_Ok_iff.
  - destruct (o_json o); split; try reflexivity; try discriminate;
      [intros _; now eexists|intros [s H]; discriminate].
Qed.

Lemma flatten_items_Ok_iff : forall parent_key sep d,
    (exists items, flatten_items parent_key sep d = Ok items)
    <-> Forall (fun kv => exists its,
                    flatten_item parent_key sep (fst kv) (snd kv) = Ok its) d.
Proof.
  intros parent_key sep. induction d as [|[k v] d IH]; cbn [flatten_items].
  - split; [constructor|now eexists].
  - split.
    + intros [items H].
      destruct (flatten_item parent_key sep k v) as [a|e] eqn:Ea; simpl in H; [|discriminate].
      destruct (flatten_items parent_key sep d) as [b|e] eqn:Eb; simpl in H; [|discriminate].
      constructor; [now exists a|]. apply IH. now exists b.
    + intro H. inversion H as [|? ? [a Ha] Hd]; subst. cbn [fst snd] in Ha.
      apply IH in Hd. destruct Hd as [b Hb]. rewrite Ha, Hb. now eexists.
Qed.

Lemma flatten_item_Ok_iff : forall v parent_key sep k,
    (exists items, flatten_item parent_key sep k v = Ok items)
    <-> flattenable v = true.
Proof.
  induction v as [| b | z | s | l IHl | l IHl | d IHd | o attrs]
    using value_nested_ind; intros parent_key sep k;
    try (split; [reflexivity|intros _; now eexists]).
  - cbn [flatten_item flattenable]. rewrite bind_Ok_iff. apply json_dumps_ok.
  - cbn [flatten_item flattenable]. rewrite bind_Ok_iff. apply json_dumps_ok.
  - rewrite flatten_item_dict. unfold flatten_dict. cbn [flattenable].
    rewrite bind_Ok_iff, flatten_items_Ok_iff, forallb_forall, <- Forall_forall.
    apply Forall_equiv. eapply Forall_impl; [|exact IHd].
    intros kv Hkv. apply Hkv.
Qed.

Lemma forallb_In_false : forall (A : Type) (f : A -> bool) l a,
    In a l -> f a = false -> forallb f l = false.
Proof.
  intros A f l a Hin Ha. destruct (forallb f l) eqn:E; [|reflexivity].
  rewrite forallb_forall in E. rewrite (E a Hin) in Ha. discriminate.
Qed.

Lemma mapM_raises_In : forall (A B : Type) (f : A -> result B) l e,
    mapM f l = Raise e -> exists a, In a l /\ f a = Raise e.
Proof.
  intros A B f l e H. apply mapM_Raise_iff in H.
  destruct H as [l1 [a [l2 [-> [_ Ha]]]]]. exists a. split; [|exact Ha].
  apply in_or_app. right. now left.
Qed.

(** What [json.dumps] raises, and for what: ValueError for an int of too
    many digits, TypeError for an object it cannot serialise. *)
Lemma json_dumps_raises : forall v e,
    json_dumps v = Raise e ->
    (e = ValueError /\ str_ok v = false) \/ (e = TypeError /\ objects_ok v = false).
Proof.
  induction v as [| b | z | s | l IHl | l IHl | d IHd | o attrs]
    using value_nested_ind; intros e H; cbn [json_dumps] in H; try discriminate.
  - cbn [str_ok]. destruct (int_str_ok z); [discriminate|].
    injection H as <-. now left.
  - destruct (mapM json_dumps l) as [parts|e'] eqn:E; [discriminate|].
    injection H as <-. apply mapM_raises_In in E. destruct E as [a [Hin Ha]].
    rewrite Forall_forall in IHl. cbn [str_ok objects_ok].
    destruct (IHl a Hin _ Ha) as [[-> Hs]|[-> Ho]];
      [left|right]; (split; [reflexivity|]); now apply forallb_In_false with a.
  - destruct (mapM json_dumps l) as [parts|e'] eqn:E; [discriminate|].
    injection H as <-. apply mapM_raises_In in E. destruct E as [a [Hin Ha]].
    rewrite Forall_forall in IHl. cbn [str_ok objects_ok].
    destruct (IHl a Hin _ Ha) as [[-> Hs]|[-> Ho]];
      [left|right]; (split; [reflexivity|]); now apply forallb_In_false with a.
  - destruct (mapM _ d) as [parts|e'] eqn:E; [discriminate|].
    injection H as <-. apply mapM_raises_In in E. destruct E as [[k x] [Hin Ha]].
    rewrite Forall_forall in IHd. cbn [str_ok objects_ok].
    destruct (json_dumps x) as [sx|ex] eqn:Ex; [discriminate|]. injection Ha as ->.
    destruct (IHd (k, x) Hin _ Ex) as [[-> Hs]|[-> Ho]];
      [left|right]; (split; [reflexivity|]); now apply forallb_In_false with (k, x).
  - cbn [objects_ok]. destruct (o_json o); [discriminate|].
    injection H as <-. now right.
Qed.

Lemma flatten_items_raises_In : forall parent_key sep d e,
    flatten_items parent_key sep d = Raise e ->
    exists k v, In (k, v) d /\ flatten_item parent_key sep k v = Raise e.
Proof.
  intros parent_key sep. induction d as [|[k v] d IH]; intros e H;
    cbn [flatten_items] in H; [discriminate|].
  destruct (flatten_item parent_key sep k v) as [a|ea] eqn:Ea.
  - destruct (flatten_items parent_key sep d) as [b|eb]; [discriminate|].
    injection H as <-. destruct (IH _ eq_refl) as [k' [v' [Hin Hv]]].
    exists k', v'. split; [now right|exact Hv].
  - injection H as <-. exists k, v. split; [now left|exact Ea].
Qed.

Lemma flatten_item_raises : forall v parent_key sep k e,
    flatten_item parent_key sep k v = Raise e ->
    (e = ValueError /\ str_ok v = false) \/ (e = TypeError /\ objects_ok v = false).
Proof.
  induction v as [| b | z | s | l IHl | l IHl | d IHd | o attrs]
    using value_nested_ind; intros parent_key sep k e H; try discriminate.
  - cbn [flatten_item] in H.
    destruct (json_dumps (VList l)) as [s|e'] eqn:E; [discriminate|].
    injection H as <-. now apply json_dumps_raises.
  - cbn [flatten_item] in H.
    destruct (json_dumps (VTuple l)) as [s|e'] eqn:E; [discriminate|].
    injection H as <-. now apply json_dumps_raises.
  - rewrite flatten_item_dict in H. unfold flatten_dict in H.
    destruct (flatten_items _ sep d) as [items|e'] eqn:E; [discriminate|].
    injection H as <-. apply flatten_items_raises_In in E.
    destruct E as [k' [v' [Hin Hv]]]. rewrite Forall_forall in IHd.
    cbn [str_ok objects_ok].
    destruct (IHd (k', v') Hin _ _ _ _ Hv) as [[-> Hs]|[-> Ho]];
      [left|right]; (split; [reflexivity|]); now apply forallb_In_false with (k', v').
Qed.

(** X12. [flatten_dict] returns a dictionary exactly on the records of
    which every list and tuple, at any depth of nested dicts, is one
    [json.dumps] can serialise. On every other record it raises what
    [json.dumps] raises: ValueError, and then the record holds an int of more
    than 4300 digits, or TypeError, and then it holds an object that
    [json.dumps] cannot serialise. *)
Theorem flatten_dict_returns_iff : forall d parent_key sep,
    ((exists flat, flatten_dict d parent_key sep = Ok flat)
     <-> forallb (fun kv => flattenable (snd kv)) d = true)
    /\ (forall e,
           flatten_dict d parent_key sep = Raise e ->
           (e = ValueError /\ forallb (fun kv => str_ok (snd kv)) d = false)
           \/ (e = TypeError /\ forallb (fun kv => objects_ok (snd kv)) d = false)).
Proof.
  intros d parent_key sep. split.
  - unfold flatten_dict.
    rewrite bind_Ok_iff, flatten_items_Ok_iff, forallb_forall, <- Forall_forall.
    apply Forall_equiv. apply Forall_forall. intros kv _. apply flatten_item_Ok_iff.
  - intros e H. unfold flatten_dict in H.
    destruct (flatten_items parent_key sep d) as [items|e'] eqn:E; [discriminate|].
    injection H as <-. apply flatten_items_raises_In in E.
    destruct E as [k [v [Hin Hv]]].
    destruct (flatten_item_raises _ _ _ _ Hv) as [[-> Hs]|[-> Ho]];
      [left|right]; (split; [reflexivity|]); now apply forallb_In_false with (k, v).
Qed.
End Flatten.

(** ** The columns of the full table *)

Lemma existsb_str_eqb : forall k hs, existsb (str_eqb k) hs = true <-> In k hs.
Proof.
  intros k hs. rewrite existsb_exists. split.
  - intros [x [Hin Hx]]. apply str_eqb_eq in Hx. now subst x.
  - intro Hin. exists k. split; [exact Hin|apply str_eqb_refl].
Qed.

Lemma set_add_In : forall hs k k', In k' (set_add hs k) <-> In k' hs \/ k' = k.
Proof.
  intros hs k k'. unfold set_add. destruct (existsb (str_eqb k) hs) eqn:E.
  - apply existsb_str_eqb in E. split; [now left|]. intros [H| ->]; assumption.
  - rewrite in_app_iff. cbn [In]. intuition.
Qed.

Lemma set_add_NoDup : forall hs k, NoDup hs -> NoDup (set_add hs k).
Proof.
  intros hs k H. unfold set_add. destruct (existsb (str_eqb k) hs) eqn:E; [exact H|].
  assert (Hk : ~ In k hs).
  { intro Hin. apply existsb_str_eqb in Hin. congruence. }
  apply NoDup_rev in H. rewrite <- (rev_involutive (hs ++ [k])).
  apply NoDup_rev. rewrite rev_app_distr. cbn [rev app].
  constructor; [|exact H]. now rewrite <- in_rev.
Qed.

Lemma update_In : forall ks hs k,
    In k (fold_left set_add ks hs) <-> In k hs \/ In k ks.
Proof.
  induction ks as [|k0 ks IH]; intros hs k; cbn [fold_left In].
  - tauto.
  - rewrite IH, set_add_In. intuition.
Qed.

Lemma update_NoDup : forall ks hs, NoDup hs -> NoDup (fold_left set_add ks hs).
Proof.
  induction ks as [|k0 ks IH]; intros hs H; cbn [fold_left]; [exact H|].
  apply IH. now apply set_add_NoDup.
Qed.

Lemma headers_from_In : forall (rows : list pydict) hs k,
    In k (fold_left (fun hs flat => fold_left set_add (Dict.keys flat) hs) rows hs)
    <-> In k hs \/ exists r, In r rows /\ In k (Dict.keys r).
Proof.
  induction rows as [|r0 rows IH]; intros hs k; cbn [fold_left].
  - split; [now left|]. intros [H|[r [[] _]]]. exact H.
  - rewrite IH, update_In. split.
    + intros [[H|H]|[r [Hr Hk]]].
      * now left.
      * right. exists r0. split; [now left|exact H].
      * right. exists r. split; [now right|exact Hk].
    + intros [H|[r [[<-|Hr] Hk]]].
      * left. now left.
      * left. now right.
      * right. now exists r.
Qed.

Lemma headers_from_NoDup : forall (rows : list pydict) hs,
    NoDup hs ->
    NoDup (fold_left (fun hs flat => fold_left set_add (Dict.keys flat) hs) rows hs).
Proof.
  induction rows as [|r0 rows IH]; intros hs H; cbn [fold_left]; [exact H|].
  apply IH. now apply update_NoDup.
Qed.

(** X13. The columns of the full table: [#], then every key that some row
    has, each once, in the order of [sorted], whatever the order in which the
    set of the keys is iterated. *)
Theorem full_table_headers : forall (rt : Runtime) rows,
    exists cols,
      select_headers false rows = lit "#" :: cols
      /\ (forall k, In k cols <-> exists r, In r rows /\ In k (Dict.keys r))
      /\ NoDup cols
      /\ StronglySorted (fun a b => str_leb a b = true) cols.
Proof.
  intros rt rows. exists (sorted (set_order (headers_of rows))).
  assert (Hp : Permutation (sorted (set_order (headers_of rows))) (headers_of rows)).
  { unfold sorted. eapply Permutation_trans; [|apply set_order_perm].
    apply stable_sort_perm. }
  split; [reflexivity|]. split; [|split].
  - intro k. split.
    + intro H. apply (Permutation_in _ Hp) in H. unfold headers_of in H.
      apply headers_from_In in H. destruct H as [[]|H]. exact H.
    + intro H. apply (Permutation_in _ (Permutation_sym Hp)).
      unfold headers_of. apply headers_from_In. now right.
  - apply (Permutation_NoDup (Permutation_sym Hp)).
    unfold headers_of. apply headers_from_NoDup. constructor.
  - unfold sorted. apply stable_sort_sorted.
    + apply str_leb_total.
    + apply str_leb_trans.
Qed.

(** ** All or nothing *)

Lemma str_of_Ok_iff : forall (rt : Runtime) v,
    (exists s, str_of v = Ok s) <-> str_ok v = true.
Proof.
  intros rt v. unfold str_of. destruct (str_ok v); split; try reflexivity;
    [intros _; now eexists|intros [s H]; discriminate|discriminate].
Qed.

Lemma str_of_raises : forall (rt : Runtime) v e, str_of v = Raise e -> e = ValueError.
Proof.
  intros rt v e H. unfold str_of in H. destruct (str_ok v); [discriminate|].
  now injection H as <-.
Qed.

Lemma get_In_keys : forall (V : Type) (d : Dict.t V) k v,
    Dict.get d k = Some v -> In k (Dict.keys d).
Proof.
  intros V. induction d as [|[k0 v0] d IH]; intros k v H; [discriminate|].
  cbn in H. destruct (str_eqb k0 k) eqn:E.
  - apply str_eqb_eq in E. now left.
  - right. now apply IH with v.
Qed.

Lemma forallb_perm : forall (A : Type) (f : A -> bool) l l',
    Permutation l l' -> forallb f l = forallb f l'.
Proof.
  intros A f l l' Hp. induction Hp; cbn [forallb].
  - reflexivity.
  - now rewrite IHHp.
  - now rewrite !andb_assoc, (andb_comm (f y)).
  - congruence.
Qed.

Section Measure.
Context {rt : Runtime}.

Lemma measure_Ok_iff : forall rows h,
    (exists u, measure rows h = Ok u)
    <-> str_eqb h (lit "#") || str_eqb h (lit "name")
        || forallb (fun r => str_ok (Dict.get_default r h (VStr []))) rows = true.
Proof.
  intros rows h. unfold measure.
  destruct (str_eqb h (lit "#") || str_eqb h (lit "name")); cbn [orb].
  - split; [reflexivity|intros _; now eexists].
  - rewrite bind_Ok_iff, mapM_Ok_iff, forallb_forall, <- Forall_forall.
    apply Forall_equiv. apply Forall_forall. intros r _. apply str_of_Ok_iff.
Qed.

Lemma measure_raises : forall rows h e, measure rows h = Raise e -> e = ValueError.
Proof.
  intros rows h e H. unfold measure in H.
  destruct (_ || _); [discriminate|].
  match type of H with (bind ?m _ = _) => destruct m as [l|e'] eqn:E end;
    [discriminate|].
  injection H as <-. apply mapM_raises_In in E. destruct E as [r [_ Hr]].
  eapply str_of_raises; exact Hr.
Qed.

Lemma measures_Ok_iff : forall rows headers,
    (exists us, mapM (measure rows) headers = Ok us)
    <-> measurable rows headers = true.
Proof.
  intros rows headers. unfold measurable.
  rewrite mapM_Ok_iff, forallb_forall, <- Forall_forall.
  apply Forall_equiv. apply Forall_forall. intros h _. apply measure_Ok_iff.
Qed.

Lemma measures_raise : forall rows headers e,
    mapM (measure rows) headers = Raise e -> e = ValueError.
Proof.
  intros rows headers e H. apply mapM_raises_In in H. destruct H as [h [_ Hh]].
  eapply measure_raises; exact Hh.
Qed.

Lemma measurable_perm : forall rows rows' headers,
    Permutation rows rows' -> measurable rows headers = measurable rows' headers.
Proof.
  intros rows rows' headers Hp. unfold measurable.
  induction headers as [|h headers IH]; [reflexivity|].
  cbn [forallb]. rewrite IH. do 2 f_equal. now apply forallb_perm.
Qed.

(** A column of every key of the rows, hopsAway among them, is shown. *)
Lemma hopsAway_shown : forall compact rows r v,
    In r rows -> Dict.get r (lit "hopsAway") = Some v ->
    In (lit "hopsAway") (select_headers compact rows).
Proof.
  intros compact rows r v Hr Hv. unfold select_headers. destruct compact.
  - cbn. tauto.
  - right. unfold sorted.
    apply (Permutation_in _ (Permutation_sym (stable_sort_perm str_leb _))).
    apply (Permutation_in _ (Permutation_sym (set_order_perm _))).
    unfold headers_of. apply headers_from_In. right. exists r.
    split; [exact Hr|]. now apply get_In_keys with v.
Qed.

(** In the loop over the rows no call of [str] raises, once the widths of
    the columns are computed: each is on a value that was measured, on the
    name, or on the default of a missing hopsAway. *)
Lemma row_strs_return : forall rows headers r,
    measurable rows headers = true -> In r rows -> has_name r ->
    (forall v, Dict.get r (lit "hopsAway") = Some v -> In (lit "hopsAway") headers) ->
    row_strs headers r = Ok tt.
Proof.
  intros rows headers r Hm Hr [name [Hname _]] Hhops. unfold row_strs.
  unfold measurable in Hm. rewrite forallb_forall in Hm.
  assert (Hcell : forall h, In h headers -> str_eqb h (lit "#") = false ->
                            str_ok (Dict.get_default r h (VStr [])) = true).
  { intros h Hh Hsharp. specialize (Hm h Hh). rewrite Hsharp in Hm. cbn [orb] in Hm.
    destruct (str_eqb h (lit "name")) eqn:En.
    - apply str_eqb_eq in En. subst h. now rewrite (get_default_some _ _ _ Hname).
    - cbn [orb] in Hm. rewrite forallb_forall in Hm. now apply Hm. }
  assert (Hcells : exists l, mapM (fun h => if str_eqb h (lit "#") then Ok []
                                            else str_of (Dict.get_default r h (VStr [])))
                               headers = Ok l).
  { apply mapM_Ok_iff. apply Forall_forall. intros h Hh.
    destruct (str_eqb h (lit "#")) eqn:E; [now eexists|].
    apply str_of_Ok_iff. now apply Hcell. }
  destruct Hcells as [l ->]. cbn [bind].
  assert (Hh : str_ok (Dict.get_default r (lit "hopsAway") (VStr (lit "0"))) = true).
  { unfold Dict.get_default.
    destruct (Dict.get r (lit "hopsAway")) as [v|] eqn:E; [|reflexivity].
    specialize (Hcell _ (Hhops v eq_refl) eq_refl).
    now rewrite (get_default_some _ _ _ E) in Hcell. }
  unfold str_of. now rewrite Hh.
Qed.

Lemma rows_strs_return : forall compact sort_hop (nodes : list (Z * node)) rows,
    mapM normalize_node (map snd nodes) = Ok rows ->
    measurable rows (select_headers compact rows) = true ->
    exists us,
      mapM (row_strs (select_headers compact rows)) (sort_rows sort_hop rows) = Ok us.
Proof.
  intros compact sort_hop nodes rows Hrows Hm. apply mapM_Ok_iff.
  apply Forall_forall. intros r Hr. exists tt.
  assert (Hin : In r rows)
    by (now apply (Permutation_in _ (sort_rows_perm sort_hop rows))).
  apply row_strs_return with rows; [exact Hm|exact Hin| |].
  - destruct (mapM_In _ _ _ Hrows Hin) as [n [_ Hn]].
    exact (normalize_node_has_name _ Hn).
  - intros v Hv. now apply hopsAway_shown with r v.
Qed.
End Measure.

(** [print_table] on a snapshot whose records are all normalised. *)
Lemma print_table_measured : forall (rt : Runtime) nodes compact sort_hop rows,
    mapM normalize_node (map snd nodes) = Ok rows ->
    print_table nodes compact sort_hop
    = if measurable rows (select_headers compact rows)
      then Ok (render rows compact sort_hop) else Raise ValueError.
Proof.
  intros rt nodes compact sort_hop rows Hrows.
  unfold print_table. rewrite Hrows. cbn [bind]. cbv zeta.
  destruct (measurable rows (select_headers compact rows)) eqn:Em.
  - destruct (rows_strs_return compact sort_hop _ Hrows Em) as [us Hus].
    rewrite <- (measurable_perm _ (sort_rows_perm sort_hop rows)) in Em.
    apply measures_Ok_iff in Em. destruct Em as [ms ->]. cbn [bind].
    now rewrite Hus.
  - destruct (mapM (measure _) _) as [ms|e] eqn:E.
    + assert (Hm : measurable (sort_rows sort_hop rows) (select_headers compact rows)
                   = true) by (apply measures_Ok_iff; now exists ms).
      rewrite (measurable_perm _ (sort_rows_perm sort_hop rows)) in Hm. congruence.
    + cbn [bind]. f_equal. eapply measures_raise; exact E.
Qed.

(** The smallest int of 4301 digits. *)
Lemma long_int : int_str_ok (10 ^ 4300) = false.
Proof.
  unfold int_str_ok, int_max_str_digits. change (Z.of_nat 4300) with 4300%Z.
  rewrite Z.abs_eq by (apply Z.pow_nonneg; lia). apply Z.ltb_irrefl.
Qed.

(** A record whose hopsAway is an int [z] of too many digits:
    [normalize_node] accepts it and [print_table] raises where it measures
    the column; in a list, [z] makes [flatten_dict] raise. *)
Lemma print_table_long_hopsAway : forall z,
    int_str_ok z = false ->
    @normalize_node Cpython.utc (NodeMapping [(lit "hopsAway", VInt z)])
    = Ok [ (lit "hopsAway", VInt z); (lit "name", VStr (repeat 32%N 35));
           (lit "viaHop", VBool (0 <? z)%Z) ]
    /\ @print_table Cpython.utc [(1%Z, NodeMapping [(lit "hopsAway", VInt z)])]
         true false
       = Raise ValueError
    /\ flatten_dict [(lit "x", VList [VInt z])] [] (lit "_") = Raise ValueError.
Proof.
  intros z Hz.
  assert (Hn : @normalize_node Cpython.utc (NodeMapping [(lit "hopsAway", VInt z)])
               = Ok [ (lit "hopsAway", VInt z); (lit "name", VStr (repeat 32%N 35));
                      (lit "viaHop", VBool (0 <? z)%Z) ]) by reflexivity.
  split; [exact Hn|]. split.
  - rewrite (@print_table_measured Cpython.utc _ true false
               [[ (lit "hopsAway", VInt z); (lit "name", VStr (repeat 32%N 35));
                  (lit "viaHop", VBool (0 <? z)%Z) ]]);
      [|cbn [map snd mapM]; now rewrite Hn].
    replace (measurable _ _) with false; [reflexivity|]. symmetry.
    unfold measurable. apply forallb_In_false with (lit "hopsAway").
    + cbn. tauto.
    + replace (str_eqb (lit "hopsAway") (lit "#")) with false by reflexivity.
      replace (str_eqb (lit "hopsAway") (lit "name")) with false by reflexivity.
      cbn [orb forallb].
      change (Dict.get_default
                [(lit "hopsAway", VInt z); (lit "name", VStr (repeat 32%N 35));
                 (lit "viaHop", VBool (0 <? z)%Z)] (lit "hopsAway") (VStr []))
        with (VInt z).
      cbn [str_ok]. now rewrite Hz.
  - unfold flatten_dict.
    cbn [flatten_items flatten_item json_dumps mapM bind]. now rewrite Hz.
Qed.

(** At [10 ** 4300]. *)
Example print_table_long_int :
  (exists r, @normalize_node Cpython.utc
               (NodeMapping [(lit "hopsAway", VInt (10 ^ 4300))]) = Ok r)
  /\ @print_table Cpython.utc
       [(1%Z, NodeMapping [(lit "hopsAway", VInt (10 ^ 4300))])] true false
     = Raise ValueError
  /\ flatten_dict [(lit "x", VList [VInt (10 ^ 4300)])] [] (lit "_")
     = Raise ValueError.
Proof.
  destruct (@print_table_long_hopsAway _ long_int) as [H1 [H2 H3]].
  split; [eexists; exact H1|]. split; assumption.
Qed.

(** X9. [print_table] is all or nothing. It returns, the table printed,
    exactly when [normalize_node] accepts every record of the snapshot and
    [str] accepts every value shown in a column other than [#] and name.
    Otherwise it raises before it has written anything: the exception of
    the first record in the snapshot's order that [normalize_node] rejects,
    whatever the records after it, or else the ValueError of [str] where the
    widths are computed, for an int of more than 4300 digits; once the
    widths are computed, the calls of [str] in the loop over the rows
    return. *)
Theorem print_table_all_or_nothing : forall (rt : Runtime) nodes compact sort_hop,
    ((exists out, print_table nodes compact sort_hop = Ok out)
     <-> exists rows,
          mapM normalize_node (map snd nodes) = Ok rows
          /\ measurable rows (select_headers compact rows) = true)
    /\ (forall e,
           print_table nodes compact sort_hop = Raise e
           <-> (exists before kn after,
                   nodes = before ++ kn :: after
                   /\ Forall (fun kn => exists r, normalize_node (snd kn) = Ok r) before
                   /\ normalize_node (snd kn) = Raise e)
               \/ (e = ValueError
                   /\ exists rows,
                       mapM normalize_node (map snd nodes) = Ok rows
                       /\ measurable rows (select_headers compact rows) = false))
    /\ (forall rows,
           mapM normalize_node (map snd nodes) = Ok rows ->
           measurable rows (select_headers compact rows) = true ->
           exists us,
             mapM (row_strs (select_headers compact rows)) (sort_rows sort_hop rows)
             = Ok us).
Proof.
  intros rt nodes compact sort_hop.
  pose proof (@print_table_measured rt nodes compact sort_hop) as Hcase.
  split; [|split].
  - split.
    + intros [out H]. destruct (mapM normalize_node (map snd nodes)) as [rows|e] eqn:E.
      * exists rows. split; [reflexivity|]. rewrite (Hcase rows eq_refl) in H.
        destruct (measurable _ _); [reflexivity|discriminate].
      * unfold print_table in H. rewrite E in H. discriminate.
    + intros [rows [Hrows Hm]]. rewrite (Hcase rows Hrows), Hm. now eexists.
  - intro e. split.
    + intro H. destruct (mapM normalize_node (map snd nodes)) as [rows|e'] eqn:E.
      * right. rewrite (Hcase rows eq_refl) in H.
        destruct (measurable _ _) eqn:Em; [discriminate|]. injection H as <-.
        split; [reflexivity|]. now exists rows.
      * left. unfold print_table in H. rewrite E in H. injection H as ->.
        apply mapM_Raise_iff in E. destruct E as [l1 [n [l2 [Hl [Hl1 Hn]]]]].
        apply map_eq_app in Hl. destruct Hl as [before [rest [-> [<- Hrest]]]].
        apply map_eq_cons in Hrest. destruct Hrest as [kn [after [-> [<- <-]]]].
        exists before, kn, after. split; [reflexivity|]. split; [|exact Hn].
        exact (proj1 (Forall_map snd (fun n => exists r, normalize_node n = Ok r)
                        before) Hl1).
    + intros [[before [kn [after [-> [Hb Hn]]]]]|[-> [rows [Hrows Hm]]]].
      * assert (E : mapM normalize_node (map snd (before ++ kn :: after)) = Raise e).
        { apply mapM_Raise_iff. rewrite map_app. cbn [map].
          exists (map snd before), (snd kn), (map snd after).
          split; [reflexivity|]. split; [|exact Hn].
          exact (proj2 (Forall_map snd (fun n => exists r, normalize_node n = Ok r)
                          before) Hb). }
        unfold print_table. now rewrite E.
      * now rewrite (Hcase rows Hrows), Hm.
  - intros rows Hrows Hm. exact (rows_strs_return compact sort_hop _ Hrows Hm).
Qed.

(** ** The width of the column [#] *)

Lemma list_sum_lt : forall (A : Type) (f g : A -> nat) l x,
    (forall a, In a l -> f a <= g a) -> In x l -> f x < g x ->
    list_sum (map f l) < list_sum (map g l).
Proof.
  intros A f g l x Hle Hin Hlt.
  assert (Hall : forall l', (forall a, In a l' -> f a <= g a) ->
                            list_sum (map f l') <= list_sum (map g l')).
  { induction l' as [|a l' IH]; intro H; simpl; [lia|].
    pose proof (H a (or_introl eq_refl)).
    pose proof (IH (fun b Hb => H b (or_intror Hb))). lia. }
  induction l as [|a l IH]; [destruct Hin|]. simpl.
  pose proof (Hall l (fun b Hb => Hle b (or_intror Hb))) as Hl.
  pose proof (Hle a (or_introl eq_refl)) as Ha.
  destruct Hin as [->|Hin].
  - lia.
  - pose proof (IH (fun b Hb => Hle b (or_intror Hb)) Hin). lia.
Qed.

Lemma index_cell_overflow : forall idx,
    (100000 <= N.of_nat idx)%N -> 5 < length (ljust 5 (zfill 3 (N.of_nat idx))).
Proof.
  intros idx H. rewrite length_ljust, zfill_length.
  assert (Hl : 0 + 6 <= length (str_of_N (N.of_nat idx))).
  { unfold str_of_N. apply (@digits_from_length_ge 5 _ (N.of_nat idx) []).
    - pose proof (N.log2_le_mono _ _ H) as Hlog.
      change (N.log2 100000) with 16%N in Hlog. lia.
    - exact H. }
  lia.
Qed.

(** X14. The bound of 100000 rows is sharp: from the row 100000 on, the
    number of the row has six digits and no longer fits the five characters
    of the column [#], and the line of the row is longer than the header
    line: the columns after [#] are out of line with their headers. *)
Theorem index_overflows_column : forall (rt : Runtime) rows headers idx r,
    In r rows -> has_name r -> In (lit "#") headers ->
    (100000 <= N.of_nat idx)%N ->
    length (header_line (col_widths rows headers) headers)
    < length (row_line (col_widths rows headers) headers idx r).
Proof.
  intros rt rows headers idx r Hr Hname Hin Hidx.
  rewrite header_line_length. unfold row_line. rewrite length_join, map_map.
  apply list_sum_lt with (x := lit "#").
  - intros h Hh. destruct (str_eqb h (lit "#")) eqn:E.
    + apply str_eqb_eq in E. subst h. unfold cell. cbv zeta.
      rewrite (col_widths_get _ _ _ Hh).
      change (str_eqb (lit "#") (lit "#")) with true. cbv iota.
      rewrite length_ljust. change (col_width rows (lit "#")) with 5. lia.
    + assert (Hc : cell (col_widths rows headers) idx r h
                   = cell (col_widths rows headers) 0 r h).
      { unfold cell. cbv zeta. now rewrite E. }
      rewrite Hc. rewrite (@cell_length rt rows headers 0 r h Hh Hr); [lia|reflexivity|exact Hname].
  - exact Hin.
  - unfold cell. cbv zeta. rewrite (col_widths_get _ _ _ Hin).
    change (str_eqb (lit "#") (lit "#")) with true. cbv iota.
    change (col_width rows (lit "#")) with 5. now apply index_cell_overflow.
Qed.

(** ** [clean_name], applied again *)

Lemma lstrip_decompose : forall s,
    exists w, s = w ++ lstrip s /\ forallb is_space w = true.
Proof.
  induction s as [|c s [w [Hw Hs]]]; simpl.
  - now exists [].
  - destruct (is_space c) eqn:E.
    + exists (c :: w). simpl. rewrite E, Hs. split; [now f_equal|reflexivity].
    + now exists [].
Qed.

Lemma rstrip_decompose : forall s,
    exists w, s = rstrip s ++ w /\ forallb is_space w = true.
Proof.
  intro s. destruct (lstrip_decompose (rev s)) as [w [Hw Hs]].
  exists (rev w). split.
  - unfold rstrip. rewrite <- rev_app_distr, <- Hw. now rewrite rev_involutive.
  - rewrite forallb_forall in *. intros c Hc. apply Hs. now apply in_rev.
Qed.

Lemma name_space : forall c, name_char c = true -> is_space c = true -> c = 32%N.
Proof.
  intros c Hn Hs.
  assert (Hc : (c < 123)%N).
  { unfold name_char, ascii_letter, ascii_digit in Hn.
    repeat (apply orb_true_iff in Hn; destruct Hn as [Hn|Hn]);
      repeat (apply andb_true_iff in Hn; destruct Hn as [? Hn]);
      repeat match goal with
        | H : (_ <=? _)%N = true |- _ => apply N.leb_le in H
        | H : (_ =? _)%N = true |- _ => apply N.eqb_eq in H
        end; lia. }
  assert (Hall : forallb (fun n => let c := N.of_nat n in
                            negb (name_char c && is_space c) || (c =? 32)%N)
                   (seq 0 123) = true) by (vm_compute; reflexivity).
  rewrite forallb_forall in Hall.
  specialize (Hall (N.to_nat c)). cbv zeta in Hall. rewrite N2Nat.id in Hall.
  rewrite Hn, Hs in Hall. cbn [andb negb orb] in Hall.
  apply N.eqb_eq, Hall, in_seq. lia.
Qed.

Lemma name_spaces : forall w,
    Forall (fun c => name_char c = true) w -> forallb is_space w = true ->
    w = repeat 32%N (length w).
Proof.
  intros w Hn. induction Hn as [|c w Hc Hn IH]; intro Hs; [reflexivity|].
  simpl in Hs. apply andb_true_iff in Hs. destruct Hs as [Hs Hw].
  simpl. f_equal; [now apply name_space|now apply IH].
Qed.

Lemma lstrip_spaces : forall k s, lstrip (repeat 32%N k ++ s) = lstrip s.
Proof. induction k as [|k IH]; intro s; [reflexivity|]. simpl. apply IH. Qed.

Lemma cleanName_chars : forall raw,
    Forall (fun c => name_char c = true) (firstn 35 (strip (filter name_char raw))).
Proof.
  intro raw. apply Forall_prefix, Forall_strip.
  apply Forall_forall. intros c Hc. now apply filter_In in Hc.
Qed.

Lemma filter_all : forall (f : N -> bool) l,
    Forall (fun c => f c = true) l -> filter f l = l.
Proof.
  intros f l H. induction H as [|c l Hc H IH]; simpl; [reflexivity|].
  now rewrite Hc, IH.
Qed.

(** What [strip] returns begins with no white space. *)
Lemma strip_head : forall s c t, strip s = c :: t -> is_space c = false.
Proof.
  intros s c t H. unfold strip in H.
  destruct (rstrip_decompose (lstrip s)) as [w [Hw _]]. rewrite H in Hw.
  simpl in Hw. now apply lstrip_head in Hw.
Qed.

Lemma cleanName_idempotent : forall raw, cleanName (cleanName raw) = cleanName raw.
Proof.
  intro raw. unfold cleanName at 2 3. cbv zeta.
  pose proof (cleanName_chars raw) as Hchars.
  assert (Hhead : forall c t, firstn 35 (strip (filter name_char raw)) = c :: t ->
                              is_space c = false).
  { intros c t H. destruct (strip (filter name_char raw)) as [|c' u] eqn:E;
      [discriminate|].
    simpl in H. injection H as -> _. now apply strip_head in E. }
  pose proof (firstn_le_length 35 (strip (filter name_char raw))) as Hlen.
  set (t := firstn 35 (strip (filter name_char raw))) in *. clearbody t.
  unfold cleanName. cbv zeta.
  assert (Hout : Forall (fun c => name_char c = true) (t ++ repeat 32%N (35 - length t))).
  { apply Forall_app. split; [exact Hchars|].
    apply Forall_forall. intros c Hc. apply repeat_spec in Hc. now subst c. }
  rewrite (filter_all _ Hout).
  assert (Hstrip : strip (t ++ repeat 32%N (35 - length t)) = rstrip t).
  { unfold strip. destruct t as [|c t].
    - cbn [app]. rewrite <- (app_nil_r (repeat _ _)), lstrip_spaces. reflexivity.
    - cbn [app lstrip]. rewrite (Hhead c t eq_refl).
      change (c :: t ++ repeat 32%N (35 - length (c :: t)))
        with ((c :: t) ++ repeat 32%N (35 - length (c :: t))).
      unfold rstrip. rewrite rev_app_distr, rev_repeat, lstrip_spaces. reflexivity. }
  rewrite Hstrip.
  destruct (rstrip_decompose t) as [w [Hw Hs]].
  assert (Hwn : Forall (fun c => name_char c = true) w).
  { rewrite Hw in Hchars. now apply Forall_app in Hchars. }
  rewrite (name_spaces Hwn Hs) in Hw.
  set (u := rstrip t) in *. clearbody u. subst t.
  rewrite length_app, repeat_length in Hlen |- *.
  rewrite firstn_all2 by lia.
  rewrite <- app_assoc, <- repeat_app. do 2 f_equal. lia.
Qed.

(** X15. [clean_name] is idempotent: applied to a name it returned, it
    returns that name; a name of the table is one it leaves as it is. *)
Theorem clean_name_idempotent : forall (rt : Runtime) name s,
    clean_name name = Ok s -> clean_name (VStr s) = Ok s.
Proof.
  intros rt name s H. rewrite clean_name_VStr.
  assert (Hs : exists raw, s = cleanName raw).
  { destruct name as [| | |raw| | | |];
      try (unfold clean_name in H; destruct (negb (truthy _));
           [injection H as <-; now exists []|discriminate]).
    rewrite clean_name_VStr in H. injection H as <-. now exists raw. }
  destruct Hs as [raw ->]. now rewrite cleanName_idempotent.
Qed.

(** ** The key of the order by recency and lastHeard *)

Lemma all_from_spec : forall P n z,
    all_from P z n = true -> forall x, ((z <= x < z + Z.of_nat n)%Z -> P x = true).
Proof.
  intros P. induction n as [|n IH]; intros z H x Hx; [lia|].
  cbn [all_from] in H. apply andb_true_iff in H. destruct H as [Hz Hn].
  destruct (Z.eq_dec x z) as [->|Hne]; [exact Hz|].
  apply (IH (z + 1)%Z Hn). lia.
Qed.
Arguments all_from_spec : clear implicits.

Lemma two_digits_below_100 : forall n, (n < 100)%N -> two_digits n = true.
Proof.
  intros n H.
  assert (Hall : all_from (fun z => two_digits (Z.to_N z)) 0 100 = true)
    by (vm_compute; reflexivity).
  rewrite <- (N2Z.id n).
  exact (all_from_spec _ _ _ Hall (Z.of_N n) ltac:(lia)).
Qed.

Lemma four_digits_years : forall y, (1000 <= y <= 9999)%N -> four_digits y = true.
Proof.
  intros y H.
  assert (Hall : all_from (fun z => four_digits (Z.to_N z)) 1000 (N.to_nat 9000) = true)
    by (vm_compute; reflexivity).
  rewrite <- (N2Z.id y).
  exact (all_from_spec _ _ _ Hall (Z.of_N y) ltac:(lia)).
Qed.

(** The days of the times a 32-bit lastHeard and the probes around it
    reach, from 1969-12-29 to 2106-02-09. *)
Lemma calendar_days : forall z, (-3 <= z <= 49712)%Z -> calendar_day z = true.
Proof.
  intros z H.
  assert (Hall : all_from calendar_day (-3) (N.to_nat 49716) = true)
    by (vm_compute; reflexivity).
  exact (all_from_spec _ _ _ Hall z ltac:(lia)).
Qed.

Lemma two_digits_inv : forall n,
    (n < 100)%N ->
    exists a b, zfill 2 n = [a; b]
                /\ Cpython.is_digit a = true /\ Cpython.is_digit b = true
                /\ is_space a = false /\ (10 * (a - 48) + (b - 48) = n)%N.
Proof.
  intros n Hn.
  pose proof (two_digits_below_100 Hn) as H. unfold two_digits in H.
  destruct (zfill 2 n) as [|a [|b [|x l]]]; try discriminate.
  destruct (Cpython.is_digit a) eqn:Ha; [|discriminate H].
  destruct (Cpython.is_digit b) eqn:Hb; [|discriminate H].
  destruct (is_space a) eqn:Hsa; [discriminate H|].
  cbn [andb negb] in H. apply N.eqb_eq in H. now exists a, b.
Qed.

Lemma field2_two_digits : forall lo2 hi lo1 n rest,
    (n < 100)%N -> (lo2 <= n <= hi)%N ->
    Cpython.field2 lo2 hi lo1 (zfill 2 n ++ rest) = Some (Z.of_N n, rest).
Proof.
  intros lo2 hi lo1 n rest Hn [Hlo Hhi].
  destruct (two_digits_inv Hn) as [a [b [-> [Ha [Hb [_ Hv]]]]]].
  cbn [app]. unfold Cpython.field2. rewrite Ha, Hb, Hv.
  apply N.leb_le in Hlo, Hhi. now rewrite Hlo, Hhi.
Qed.

Lemma spaces_two_digits : forall n rest,
    (n < 100)%N ->
    Cpython.spaces (lit " " ++ zfill 2 n ++ rest) = Some (zfill 2 n ++ rest).
Proof.
  intros n rest Hn.
  destruct (two_digits_inv Hn) as [a [b [-> [_ [_ [Hsa _]]]]]].
  change (lit " " ++ [a; b] ++ rest) with (32%N :: a :: b :: rest).
  unfold Cpython.spaces. replace (is_space 32) with true by reflexivity.
  cbn [lstrip app]. now rewrite Hsa.
Qed.

Lemma year4_four_digits : forall y,
    (1000 <= y <= 9999)%N -> Cpython.year4 (zfill 1 y) = Some (Z.of_N y).
Proof.
  intros y Hy.
  pose proof (four_digits_years Hy) as H. unfold four_digits in H.
  destruct (zfill 1 y) as [|a [|b [|c [|d [|x l]]]]]; try discriminate.
  destruct (Cpython.is_digit a) eqn:Ha; [|discriminate H].
  destruct (Cpython.is_digit b) eqn:Hb; [|discriminate H].
  destruct (Cpython.is_digit c) eqn:Hc; [|discriminate H].
  destruct (Cpython.is_digit d) eqn:Hd; [|discriminate H].
  cbn [andb] in H. apply N.eqb_eq in H.
  unfold Cpython.year4. now rewrite Ha, Hb, Hc, Hd, H.
Qed.

(** [strptime] reads what [strftime] wrote: a date of a year of four digits
    and a time of the day, the time before the date. *)
Lemma strptime_strftime : forall offset order perm dt,
    (0 <= hour dt <= 23)%Z -> (0 <= minute dt <= 59)%Z -> (0 <= second dt <= 59)%Z ->
    (1000 <= year dt <= 9999)%Z -> (1 <= month dt <= 12)%Z ->
    (1 <= day dt <= Cpython.days_in_month (year dt) (month dt))%Z ->
    Cpython.strptime_HMS_dmY
      (fmt_time dt ++ lit " " ++ @fmt_date (Cpython.runtime offset order perm) dt)
    = Some dt.
Proof.
  intros offset order perm dt Hh Hm Hs Hy Hmo Hd.
  assert (Hd31 : (day dt <= 31)%Z).
  { destruct Hd as [_ Hd]. unfold Cpython.days_in_month in Hd.
    destruct (month dt =? 2)%Z; [destruct (Cpython.is_leap _); lia|].
    destruct (_ || _); lia. }
  unfold fmt_time, fmt_date. cbn [strftime_pads_year Cpython.runtime].
  rewrite <- !app_assoc. unfold Cpython.strptime_HMS_dmY.
  assert (Hcolon : forall x, Cpython.expect 58 (lit ":" ++ x) = Some x)
    by reflexivity.
  assert (Hslash : forall x, Cpython.expect 47 (lit "/" ++ x) = Some x)
    by reflexivity.
  rewrite field2_two_digits by lia. cbn [Cpython.obind]. rewrite Hcolon.
  cbn [Cpython.obind]. rewrite field2_two_digits by lia.
  cbn [Cpython.obind]. rewrite Hcolon.
  cbn [Cpython.obind]. rewrite field2_two_digits by lia.
  cbn [Cpython.obind]. rewrite spaces_two_digits by lia.
  cbn [Cpython.obind]. rewrite field2_two_digits by lia.
  cbn [Cpython.obind]. rewrite Hslash.
  cbn [Cpython.obind]. rewrite field2_two_digits by lia.
  cbn [Cpython.obind]. rewrite Hslash.
  cbn [Cpython.obind]. rewrite year4_four_digits by lia.
  cbn [Cpython.obind]. rewrite !Z2N.id by lia.
  replace (second dt <=? 59)%Z with true by (symmetry; apply Z.leb_le; lia).
  replace (1 <=? year dt)%Z with true by (symmetry; apply Z.leb_le; lia).
  replace (day dt <=? Cpython.days_in_month (year dt) (month dt))%Z with true
    by (symmetry; apply Z.leb_le; lia).
  now destruct dt.
Qed.

Lemma calendar_day_year_ok : forall l,
    calendar_day (l / 86400) = true -> year_ok l = true.
Proof.
  intros l H. unfold calendar_day in H. unfold year_ok, MINYEAR, MAXYEAR.
  destruct (civil_from_days (l / 86400)) as [[y m] d].
  repeat (apply andb_true_iff in H; destruct H as [H ?]).
  apply Z.leb_le in H, H4. apply andb_true_iff. split; apply Z.leb_le; lia.
Qed.

Lemma day_of_time : forall l,
    (-259200 <= l < 4295203200)%Z -> (-3 <= l / 86400 <= 49712)%Z.
Proof.
  intros l H. pose proof (Z.div_mod l 86400 ltac:(lia)).
  pose proof (Z.mod_pos_bound l 86400 ltac:(lia)). lia.
Qed.

Lemma time_of_day : forall s,
    (0 <= s < 86400)%Z ->
    (0 <= s / 3600 <= 23 /\ 0 <= s mod 3600 / 60 <= 59 /\ 0 <= s mod 60 <= 59
     /\ s / 3600 * 3600 + s mod 3600 / 60 * 60 + s mod 60 = s)%Z.
Proof.
  intros s H.
  pose proof (Z.div_mod s 3600 ltac:(lia)).
  pose proof (Z.mod_pos_bound s 3600 ltac:(lia)).
  pose proof (Z.div_mod (s mod 3600) 60 ltac:(lia)).
  pose proof (Z.mod_pos_bound (s mod 3600) 60 ltac:(lia)).
  pose proof (Z.div_mod s 60 ltac:(lia)).
  pose proof (Z.mod_pos_bound s 60 ltac:(lia)).
  lia.
Qed.

(** The wall clock of a clock that keeps one offset from UTC. *)
Lemma fromtimestamp_constant_offset : forall c order perm t,
    calendar_day ((t + c) / 86400) = true ->
    calendar_day ((t - 86400 + c) / 86400) = true ->
    exists dt,
      @fromtimestamp_time_t (Cpython.runtime (fun _ => c) order perm) t = Some dt
      /\ civil_from_days ((t + c) / 86400) = (year dt, month dt, day dt)
      /\ hour dt = ((t + c) mod 86400 / 3600)%Z
      /\ minute dt = ((t + c) mod 86400 mod 3600 / 60)%Z
      /\ second dt = ((t + c) mod 86400 mod 60)%Z.
Proof.
  intros c order perm t H1 H2.
  unfold fromtimestamp_time_t, local. cbn [utcoffset Cpython.runtime].
  rewrite (calendar_day_year_ok _ H1), (calendar_day_year_ok _ H2).
  replace (t + c - (t - 86400 + c) - 86400)%Z with 0%Z by lia.
  destruct (civil_from_days ((t + c) / 86400)) as [[y m] d].
  cbn. eexists. repeat split.
Qed.

(** The instant at which a clock that keeps one offset from UTC shows the
    wall clock time of [t]. *)
Lemma timestamp_constant_offset : forall c dt t,
    calendar_day ((t + c) / 86400) = true ->
    calendar_day ((t - 86400 + c) / 86400) = true ->
    calendar_day ((t + c + c) / 86400) = true ->
    civil_from_days ((t + c) / 86400) = (year dt, month dt, day dt) ->
    hour dt = ((t + c) mod 86400 / 3600)%Z ->
    minute dt = ((t + c) mod 86400 mod 3600 / 60)%Z ->
    second dt = ((t + c) mod 86400 mod 60)%Z ->
    Cpython.timestamp (fun _ => c) dt = Some t.
Proof.
  intros c dt t H1 H2 H3 Hdate Hh Hm Hs.
  assert (Hday : Cpython.days_from_civil (year dt) (month dt) (day dt)
                 = ((t + c) / 86400)%Z).
  { unfold calendar_day in H1. rewrite Hdate in H1.
    repeat (apply andb_true_iff in H1; destruct H1 as [H1 ?]).
    now apply Z.eqb_eq. }
  pose proof (time_of_day (Z.mod_pos_bound (t + c) 86400 ltac:(lia)))
    as [_ [_ [_ Hsum]]].
  pose proof (Z.div_mod (t + c) 86400 ltac:(lia)) as Hl.
  unfold Cpython.timestamp. rewrite Hday, Hh, Hm, Hs.
  replace ((t + c) / 86400 * 86400 + (t + c) mod 86400 / 3600 * 3600
           + (t + c) mod 86400 mod 3600 / 60 * 60 + (t + c) mod 86400 mod 60)%Z
    with (t + c)%Z by lia.
  unfold Cpython.local_checked.
  rewrite (calendar_day_year_ok _ H3). cbn [Cpython.obind].
  replace (t + c - (t + c + c - (t + c)))%Z with t by lia.
  rewrite (calendar_day_year_ok _ H1). cbn [Cpython.obind].
  rewrite Z.eqb_refl.
  rewrite (calendar_day_year_ok _ H2). cbn [Cpython.obind].
  replace (t + c + c - (t + c) =? t - 86400 + c - (t - 86400))%Z with true
    by (symmetry; apply Z.eqb_eq; lia).
  reflexivity.
Qed.

Lemma first_word_not_blank : forall a b : str,
    Forall nonspace a -> a <> [] -> forallb is_space (a ++ b) = false.
Proof.
  intros a b Ha Hne. destruct a as [|c a]; [contradiction|].
  inversion Ha as [|? ? Hc _]; subst. unfold nonspace in Hc.
  cbn [app forallb]. now rewrite Hc.
Qed.


(** ** [main] *)

Lemma stdout_app : forall a b, stdout (a ++ b) = stdout a ++ stdout b.
Proof.
  induction a as [|[line|line|secs|] a IH]; intro b; simpl; now rewrite ?IH.
Qed.

Lemma stdout_lines : forall lines, stdout (map Stdout lines) = lines.
Proof. induction lines as [|l lines IH]; simpl; now rewrite ?IH. Qed.

Lemma closes_app : forall a b, closes (a ++ b) = closes a + closes b.
Proof.
  induction a as [|[line|line|secs|] a IH]; intro b; simpl; now rewrite ?IH.
Qed.

Lemma closes_lines : forall lines, closes (map Stdout lines) = 0.
Proof. induction lines as [|l lines IH]; simpl; now rewrite ?IH. Qed.

Lemma mapM_raises_at : forall (A B : Type) (f : A -> result B) l a e,
    In a l -> f a = Raise e -> exists e', mapM f l = Raise e'.
Proof.
  intros A B f. induction l as [|x l IH]; intros a e Hin Ha; [destruct Hin|].
  simpl. destruct (f x) as [b|ex] eqn:Ex; [|now exists ex].
  destruct Hin as [->|Hin]; [congruence|].
  destruct (IH a e Hin Ha) as [e' ->]. now exists e'.
Qed.

Lemma closes_errors : forall lines, closes (map Stderr lines) = 0.
Proof. induction lines as [|l lines IH]; simpl; now rewrite ?IH. Qed.

Section MainFacts.
Context {rt : Runtime}.
Variable parse_args : command_line.
Variable connect : connection.
Variable str_of_exn : exn -> str.

Local Abbreviation run := (main parse_args connect str_of_exn).

(** X17. [main] returns, and the process ends with status 0, exactly when
    [parse_args] returns the arguments, the connection is made, [nodesByNum]
    is a dictionary that is not empty, [print_table] returns on it and the
    first [close] raises nothing. When [parse_args] ends the process, on a
    missing or wrong argument or on a request for help, the status is the
    one [argparse] gave and nothing but its lines is written. Every other
    run ends in [sys.exit(1)]. *)
Theorem main_returns_iff :
  (status run = None
   <-> exists host port sort_hop iface nodes lines,
        parse_args = Args host port sort_hop /\ int_str_ok port = true
        /\ connect = Connected iface /\ nodesByNum iface = Some nodes /\ nodes <> []
        /\ print_table nodes true sort_hop = Ok lines /\ close iface 0 = None)
  /\ (forall out err code,
         parse_args = Usage out err code ->
         status run = Some code /\ events run = map Stdout out ++ map Stderr err)
  /\ (forall host port sort_hop,
         parse_args = Args host port sort_hop ->
         status run <> None -> status run = Some 1%Z).
Proof.
  unfold main, handler.
  destruct parse_args as [host port sort_hop|out err code].
  2:{ cbn [status events]. split; [|split].
      - split; [discriminate|]. intros [h [p [sh [i [ns [ls [H _]]]]]]]. discriminate.
      - intros out' err' code' H. injection H as <- <- <-. now split.
      - intros h p sh H. discriminate. }
  split; [|split; [intros out err code H; discriminate|]].
  - destruct (int_str_ok port) eqn:Ep; cbn [negb].
    2:{ cbn [status]. split; [discriminate|].
        intros [h [p [sh [i [ns [ls [H [Hp _]]]]]]]]. injection H as <- <- <-.
        congruence. }
    cbv zeta. destruct connect as [iface|msg]; cbn [status].
    2:{ split; [discriminate|].
        intros [h [p [sh [i [ns [ls [_ [_ [H _]]]]]]]]]. discriminate. }
    destruct (nodesByNum iface) as [[|kn nodes]|] eqn:En.
    + destruct (close iface 0); cbn [status];
        (split; [discriminate|]);
        intros [h [p [sh [i [ns [ls [_ [_ [H [Hn [Hne _]]]]]]]]]]]; injection H as <-;
        rewrite En in Hn; injection Hn as <-; now contradiction Hne.
    + destruct (print_table (kn :: nodes) true sort_hop) as [lines|e] eqn:Ept.
      * destruct (close iface 0) as [exc|] eqn:Ec; cbn [status].
        -- split; [discriminate|].
           intros [h [p [sh [i [ns [ls [_ [_ [H [_ [_ [_ Hc]]]]]]]]]]]].
           injection H as <-. congruence.
        -- split; [|reflexivity].
           intros _. exists host, port, sort_hop, iface, (kn :: nodes), lines.
           repeat split; try assumption; try reflexivity. discriminate.
      * cbn [status]. split; [discriminate|].
        intros [h [p [sh [i [ns [ls [Ha [_ [H [Hn [_ [Hp _]]]]]]]]]]]].
        injection Ha as <- <- <-. injection H as <-.
        rewrite En in Hn. injection Hn as <-. congruence.
    + destruct (close iface 0); cbn [status];
        (split; [discriminate|]);
        intros [h [p [sh [i [ns [ls [_ [_ [H [Hn _]]]]]]]]]]; injection H as <-;
        congruence.
  - intros h p sh _ Hs.
    destruct (int_str_ok port); cbn [negb] in *; [|reflexivity].
    cbv zeta in *. destruct connect as [iface|msg]; [|reflexivity].
    destruct (nodesByNum iface) as [[|kn nodes]|].
    + now destruct (close iface 0).
    + destruct (print_table (kn :: nodes) true sort_hop); [|reflexivity].
      destruct (close iface 0); [reflexivity|]. now contradiction Hs.
    + now destruct (close iface 0).
Qed.

(** X18. One record that was never heard stops the whole program: when the
    node database holds a record whose lastHeard is [None] or equal to 0,
    [main] writes no line of the table, only the two lines on the
    connection, reports an error and ends in [sys.exit(1)], whatever the
    other records are. *)
Theorem main_unheard_record : forall host port sort_hop iface nodes k n ts,
    parse_args = Args host port sort_hop -> int_str_ok port = true ->
    connect = Connected iface -> nodesByNum iface = Some nodes ->
    In (k, n) nodes ->
    Dict.get (node_dict n) (lit "lastHeard") = Some ts ->
    is_none ts || eq_zero ts = true ->
    status run = Some 1%Z
    /\ stdout (events run)
       = [lit "Connessione TCP a " ++ host ++ lit ":" ++ str_of_Z port;
          lit "Connesso!"]
    /\ exists e, In (Stderr (lit "Errore: " ++ str_of_exn e)) (events run).
Proof.
  intros host port sort_hop iface nodes k n ts Ha Hport Hc Hn Hin Hget Hz.
  assert (Hraise : exists e, normalize_node n = Raise e).
  { unfold normalize_node. cbv zeta.
    destruct (flatten_dict (node_dict n) [] (lit "_")) as [flat|e];
      [|now exists e].
    cbn [bind]. rewrite (with_lastHeard_placeholder _ flat Hget Hz).
    now exists IndexError. }
  destruct Hraise as [e He].
  assert (Hp : exists e', print_table nodes true sort_hop = Raise e').
  { unfold print_table.
    destruct (mapM_raises_at normalize_node (map snd nodes) n (e := e)) as [e' ->];
      [|exact He|now exists e'].
    change n with (snd (k, n)). now apply in_map. }
  destruct Hp as [e' Hp].
  unfold main, handler. rewrite Ha, Hport, Hc. cbn [negb]. cbv zeta. rewrite Hn.
  destruct nodes as [|kn nodes]; [destruct Hin|]. rewrite Hp. cbn [status events].
  split; [reflexivity|]. split.
  - rewrite !stdout_app. destruct (is_true iface); reflexivity.
  - exists e'. apply in_or_app. right. now left.
Qed.

(** X19. A connection that was made is closed: in every run in which the
    interface was opened, [iface.close()] is called, once, or twice when
    the first call is the one that raised; when the connection was refused
    it is not called. *)
Theorem main_closes :
  (forall host port sort_hop iface,
      parse_args = Args host port sort_hop -> int_str_ok port = true ->
      connect = Connected iface -> is_true iface = true ->
      1 <= closes (events run) <= 2
      /\ (close iface 0 = None -> closes (events run) = 1))
  /\ (forall exc, connect = Refused exc -> closes (events run) = 0).
Proof.
  split.
  - intros host port sort_hop iface Ha Hport Hc Ht. unfold main, handler.
    rewrite Ha, Hport, Hc. cbn [negb]. cbv zeta. rewrite Ht.
    destruct (nodesByNum iface) as [[|kn nodes]|].
    + destruct (close iface 0); cbn [events]; rewrite ?closes_app; cbn [closes];
        rewrite ?closes_app; cbn [closes plus]; split; try lia; try discriminate;
        intros _; lia.
    + destruct (print_table (kn :: nodes) true sort_hop) as [lines|e].
      * destruct (close iface 0); cbn [events];
          rewrite ?closes_app, ?closes_lines; cbn [closes plus];
          rewrite ?closes_app, ?closes_lines; cbn [closes plus];
          split; try lia; try discriminate; intros _; lia.
      * cbn [events]; rewrite ?closes_app; cbn [closes plus]. split; [lia|]. intros _; lia.
    + destruct (close iface 0); cbn [events]; rewrite ?closes_app; cbn [closes];
        rewrite ?closes_app; cbn [closes plus]; split; try lia; try discriminate;
        intros _; lia.
  - intros exc Hc. unfold main, handler. rewrite Hc.
    destruct parse_args as [host port sort_hop|out err code]; cbn [events].
    + now destruct (int_str_ok port).
    + now rewrite closes_app, closes_lines, closes_errors.
Qed.
End MainFacts.

(** ** The properties at the sample *)

Lemma normalize_node_other_keys_witness :
  @normalize_node Cpython.utc Sample.alice = Ok Sample.alice_row
  /\ exists flat,
      flatten_dict (node_dict Sample.alice) [] (lit "_") = Ok flat
      /\ Dict.get Sample.alice_row (lit "user_id") = Dict.get flat (lit "user_id").
Proof.
  assert (H : @normalize_node Cpython.utc Sample.alice = Ok Sample.alice_row)
    by (vm_compute; reflexivity).
  split; [exact H|]. eexists.
  assert (Hflat : flatten_dict (node_dict Sample.alice) [] (lit "_") = Ok _)
    by (vm_compute; reflexivity).
  split; [exact Hflat|].
  apply (@normalize_node_other_keys Cpython.utc _ _ _ (lit "user_id") H Hflat);
    intro Hk; vm_compute in Hk; discriminate Hk.
Defined.

Lemma normalize_node_field_types_witness :
  @normalize_node Cpython.utc Sample.alice = Ok Sample.alice_row
  /\ exists flat,
      flatten_dict (node_dict Sample.alice) [] (lit "_") = Ok flat
      /\ (exists s, Dict.get Sample.alice_row (lit "name") = Some (VStr s)
                    /\ length s = 35)
      /\ (exists b, Dict.get Sample.alice_row (lit "viaHop") = Some (VBool b))
      /\ (Dict.get flat (lit "snr") = None ->
          Dict.get Sample.alice_row (lit "snr") = None)
      /\ (Dict.get flat (lit "snr") <> None ->
          exists s, Dict.get Sample.alice_row (lit "snr") = Some (VStr s))
      /\ (Dict.mem (node_dict Sample.alice) (lit "lastHeard") = true ->
          exists s, Dict.get Sample.alice_row (lit "lastHeard_human") = Some (VStr s)).
Proof.
  assert (H : @normalize_node Cpython.utc Sample.alice = Ok Sample.alice_row)
    by (vm_compute; reflexivity).
  split; [exact H|]. eexists.
  assert (Hflat : flatten_dict (node_dict Sample.alice) [] (lit "_") = Ok _)
    by (vm_compute; reflexivity).
  split; [exact Hflat|].
  exact (@normalize_node_field_types Cpython.utc _ _ _ H Hflat).
Defined.

Lemma viaHop_agrees_with_hop_key_witness :
  @normalize_node Cpython.utc Sample.bob = Ok Sample.bob_row
  /\ Dict.get Sample.bob_row (lit "viaHop")
     = Some (VBool (0 <? @hop_key Cpython.utc Sample.bob_row)%Z).
Proof.
  assert (H : @normalize_node Cpython.utc Sample.bob = Ok Sample.bob_row)
    by (vm_compute; reflexivity).
  exact (conj H (@viaHop_agrees_with_hop_key Cpython.utc _ _ H)).
Defined.

Lemma with_lastHeard_int_witness :
  Dict.get (node_dict Sample.alice) (lit "lastHeard") = Some (VInt 1700000000)
  /\ ((exists flat', @with_lastHeard Cpython.utc (node_dict Sample.alice) [] = Ok flat')
      <-> 1700000000%Z <> 0%Z
          /\ @fromtimestamp_time_t Cpython.utc 1700000000 <> None)
  /\ ((1700000000%Z = 0%Z
       \/ (@fromtimestamp_time_t Cpython.utc 1700000000 = None
           /\ int_str_ok 1700000000 = true)) ->
      @with_lastHeard Cpython.utc (node_dict Sample.alice) [] = Raise IndexError)
  /\ (@fromtimestamp_time_t Cpython.utc 1700000000 = None ->
      int_str_ok 1700000000 = false ->
      @with_lastHeard Cpython.utc (node_dict Sample.alice) [] = Raise ValueError).
Proof.
  assert (H : Dict.get (node_dict Sample.alice) (lit "lastHeard")
              = Some (VInt 1700000000)) by (vm_compute; reflexivity).
  exact (conj H (@with_lastHeard_int Cpython.utc _ [] _ H)).
Defined.

Lemma node_dict_public_attributes_witness :
  NoDup (map fst [ (lit "num", AttrValue (VInt 7));
                   (lit "_raw", AttrValue VNone);
                   (lit "close", AttrCallable) ])
  /\ (Dict.get (node_dict (NodeObject [ (lit "num", AttrValue (VInt 7));
                                        (lit "_raw", AttrValue VNone);
                                        (lit "close", AttrCallable) ]))
        (lit "num") = Some (VInt 7)
      <-> In (lit "num", AttrValue (VInt 7))
            [ (lit "num", AttrValue (VInt 7));
              (lit "_raw", AttrValue VNone);
              (lit "close", AttrCallable) ]
          /\ is_private (lit "num") = false).
Proof.
  assert (H : NoDup (map fst [ (lit "num", AttrValue (VInt 7));
                               (lit "_raw", AttrValue VNone);
                               (lit "close", AttrCallable) ])).
  { cbn [map fst].
    repeat (constructor;
            [cbn [In]; intro Hin;
             repeat (destruct Hin as [Hin|Hin]; [vm_compute in Hin; discriminate Hin|]);
             exact Hin|]).
    constructor. }
  exact (conj H (@node_dict_public_attributes _ (lit "num") (VInt 7) H)).
Defined.

Lemma flatten_dict_flat_witness :
  exists flat,
    flatten_dict (node_dict Sample.alice) [] (lit "_") = Ok flat
    /\ Forall (fun kv => is_scalar (snd kv) = true) flat
    /\ NoDup (Dict.keys flat).
Proof.
  eexists.
  assert (Hflat : flatten_dict (node_dict Sample.alice) [] (lit "_") = Ok _)
    by (vm_compute; reflexivity).
  exact (conj Hflat (flatten_dict_flat _ _ _ Hflat)).
Defined.

Lemma flatten_dict_idempotent_witness :
  exists flat,
    flatten_dict (node_dict Sample.alice) [] (lit "_") = Ok flat
    /\ flatten_dict flat [] (lit "_") = Ok flat.
Proof.
  eexists.
  assert (Hflat : flatten_dict (node_dict Sample.alice) [] (lit "_") = Ok _)
    by (vm_compute; reflexivity).
  exact (conj Hflat (flatten_dict_idempotent _ _ Hflat)).
Defined.

Lemma index_overflows_column_witness :
  In Sample.alice_row [Sample.alice_row]
  /\ has_name Sample.alice_row
  /\ In (lit "#") compact_headers
  /\ (100000 <= N.of_nat (N.to_nat 100000))%N
  /\ length (header_line (@col_widths Cpython.utc [Sample.alice_row] compact_headers)
               compact_headers)
     < length (@row_line Cpython.utc
                 (@col_widths Cpython.utc [Sample.alice_row] compact_headers)
                 compact_headers (N.to_nat 100000) Sample.alice_row).
Proof.
  assert (H1 : In Sample.alice_row [Sample.alice_row]) by (left; reflexivity).
  assert (H2 : has_name Sample.alice_row).
  { eexists. split; [vm_compute; reflexivity|reflexivity]. }
  assert (H3 : In (lit "#") compact_headers) by (left; reflexivity).
  assert (H4 : (100000 <= N.of_nat (N.to_nat 100000))%N)
    by (rewrite N2Nat.id; lia).
  exact (conj H1 (conj H2 (conj H3 (conj H4
           (@index_overflows_column Cpython.utc _ _ _ _ H1 H2 H3 H4))))).
Defined.

Lemma clean_name_idempotent_witness :
  @clean_name (VStr (lit "Alice Station!!"))
  = Ok (lit "Alice Station                      ")
  /\ @clean_name (VStr (lit "Alice Station                      "))
     = Ok (lit "Alice Station                      ").
Proof.
  assert (H : clean_name (VStr (lit "Alice Station!!"))
              = Ok (lit "Alice Station                      "))
    by (vm_compute; reflexivity).
  exact (conj H (clean_name_idempotent Cpython.utc _ H)).
Defined.


Lemma main_unheard_record_witness :
  int_str_ok 4403 = true
  /\ In (1%Z, unheard) ((1%Z, unheard) :: Sample.nodes)
  /\ Dict.get (node_dict unheard) (lit "lastHeard") = Some (VInt 0)
  /\ status (@main Cpython.utc (Args (lit "192.168.1.10") 4403 false)
               (Connected station) (fun _ => lit "list index out of range"))
     = Some 1%Z
  /\ stdout (events (@main Cpython.utc (Args (lit "192.168.1.10") 4403 false)
                       (Connected station) (fun _ => lit "list index out of range")))
     = [lit "Connessione TCP a " ++ lit "192.168.1.10" ++ lit ":" ++ str_of_Z 4403;
        lit "Connesso!"]
  /\ exists e : exn,
      In (Stderr (lit "Errore: " ++ lit "list index out of range"))
        (events (@main Cpython.utc (Args (lit "192.168.1.10") 4403 false)
                   (Connected station) (fun _ => lit "list index out of range"))).
Proof.
  assert (H0 : int_str_ok 4403 = true) by (vm_compute; reflexivity).
  assert (H1 : In (1%Z, unheard) ((1%Z, unheard) :: Sample.nodes))
    by (left; reflexivity).
  assert (H2 : Dict.get (node_dict unheard) (lit "lastHeard") = Some (VInt 0))
    by (vm_compute; reflexivity).
  exact (conj H0 (conj H1 (conj H2
           (@main_unheard_record Cpython.utc (Args (lit "192.168.1.10") 4403 false)
              (Connected station) (fun _ => lit "list index out of range")
              (lit "192.168.1.10") 4403%Z false
              station _ 1%Z unheard (VInt 0) eq_refl H0 eq_refl eq_refl H1 H2
              eq_refl)))).
Defined.
